(** * ATS resume checker: a shallow embedding of [app.py]

    The development follows the helper functions of [app.py] in source
    order: text extraction, normalisation and keyword extraction, the
    memoised synonym lookup, the score computation and the PDF
    highlighter.  Python values are modelled as the interpreter has them:

    - a [str] is a sequence of Unicode code points ([list N]);
    - a [set] of strings is a [gset (list N)];
    - an [int] is a [Z], a [float] is an IEEE 754 binary64 value, taken
      from the Standard Library's [SpecFloat] with [prec = 53] and
      [emax = 1024];
    - a raised exception is the [Raise] branch of a result type. *)

From Stdlib Require Import ZArith NArith Lia String Ascii.
From Stdlib Require Import Floats.SpecFloat.
From stdpp Require Import base option list gmap sets.

#[local] Set Warnings "-clear-no-such-hyp".

Local Open Scope Z_scope.
Local Open Scope N_scope.

(** ** Strings *)

Abbreviation pystr := (list N).

(** A literal of the source, written as a Rocq string of ASCII bytes. *)
Definition py (s : string) : pystr :=
  N_of_ascii <$> list_ascii_of_string s.

Module Char.

Definition is_ascii (c : N) : bool := c <? 128.

Definition is_digit (c : N) : bool := (48 <=? c) && (c <=? 57).
Definition is_lower (c : N) : bool := (97 <=? c) && (c <=? 122).
Definition is_upper (c : N) : bool := (65 <=? c) && (c <=? 90).

(** The character class [a-z0-9] of [clean_text]'s pattern. *)
Definition is_lower_alnum (c : N) : bool := is_lower c || is_digit c.

(** [\s] on a [str] pattern: the interpreter's [Py_UNICODE_ISSPACE]. *)
Definition is_space (c : N) : bool :=
  ((9 <=? c) && (c <=? 13)) || ((28 <=? c) && (c <=? 32))
  || (c =? 133) || (c =? 160) || (c =? 5760)
  || ((8192 <=? c) && (c <=? 8202))
  || (c =? 8232) || (c =? 8233) || (c =? 8239) || (c =? 8287)
  || (c =? 12288).

(** [str.lower()] and [str.isalnum()] restricted to ASCII. *)
Definition ascii_lower (c : N) : N := if is_upper c then c + 32 else c.
Definition ascii_isalnum (c : N) : bool :=
  is_lower c || is_upper c || is_digit c.

(** What [clean_text] lets through: a member of [a-z0-9\s]. *)
Definition is_clean (c : N) : bool := is_lower_alnum c || is_space c.

End Char.

(** The interpreter's Unicode tables are not part of the repository.  They
    enter as an interface: [str_lower] is [str.lower()], [uni_isalnum] is
    the alphanumeric test behind [\w].  The laws are the part of their
    behaviour the program relies on. *)
Class PyUnicode := {
  str_lower : pystr → pystr;
  uni_isalnum : N → bool;
  str_lower_ascii s :
    Forall (λ c, Char.is_ascii c = true) s → str_lower s = Char.ascii_lower <$> s;
  str_lower_clean s :
    Forall (λ c, Char.is_clean c = true) s → str_lower s = s;
  uni_isalnum_ascii c :
    Char.is_ascii c = true → uni_isalnum c = Char.ascii_isalnum c;
  uni_isalnum_space c :
    Char.is_space c = true → uni_isalnum c = false
}.

(** The tables cut down to ASCII: every other code point is caseless and
    not alphanumeric.  On ASCII text it is the interpreter's behaviour. *)
Definition ascii_str_lower (s : pystr) : pystr := Char.ascii_lower <$> s.

Lemma ascii_lower_clean c : Char.is_clean c = true → Char.ascii_lower c = c.
Proof.
  unfold Char.is_clean, Char.is_lower_alnum, Char.ascii_lower, Char.is_upper,
    Char.is_lower, Char.is_digit, Char.is_space.
  intros Hc. destruct ((65 <=? c) && (c <=? 90)) eqn:Hu; [|done].
  exfalso. apply andb_true_iff in Hu as [H1 H2].
  apply N.leb_le in H1, H2.
  repeat (apply orb_true_iff in Hc as [Hc|Hc]);
    repeat match goal with
      | H : (_ && _) = true |- _ => apply andb_true_iff in H as [? ?]
      | H : (_ <=? _) = true |- _ => apply N.leb_le in H
      | H : (_ =? _) = true |- _ => apply N.eqb_eq in H
      end; lia.
Qed.

Lemma ascii_space_not_alnum c :
  Char.is_space c = true → Char.is_ascii c && Char.ascii_isalnum c = false.
Proof.
  unfold Char.ascii_isalnum, Char.is_ascii, Char.is_upper, Char.is_lower,
    Char.is_digit, Char.is_space.
  intros Hc. apply not_true_iff_false. intros Hw.
  apply andb_true_iff in Hw as [_ Hw].
  repeat (apply orb_true_iff in Hc as [Hc|Hc]);
  repeat (apply orb_true_iff in Hw as [Hw|Hw]);
    repeat match goal with
      | H : (_ && _) = true |- _ => apply andb_true_iff in H as [? ?]
      | H : (_ <=? _) = true |- _ => apply N.leb_le in H
      | H : (_ =? _) = true |- _ => apply N.eqb_eq in H
      end; lia.
Qed.

Lemma ascii_str_lower_clean s :
  Forall (λ c, Char.is_clean c = true) s → ascii_str_lower s = s.
Proof.
  intros Hs. unfold ascii_str_lower. induction Hs as [|c s Hc _ IH]; [done|].
  cbn. by rewrite IH, ascii_lower_clean.
Qed.

Lemma ascii_isalnum_ascii c :
  Char.is_ascii c = true →
  Char.is_ascii c && Char.ascii_isalnum c = Char.ascii_isalnum c.
Proof. intros Hc. by rewrite Hc. Qed.

#[export] Instance ascii_unicode : PyUnicode := {|
  str_lower := ascii_str_lower;
  uni_isalnum c := Char.is_ascii c && Char.ascii_isalnum c;
  str_lower_ascii s _ := eq_refl;
  str_lower_clean := ascii_str_lower_clean;
  uni_isalnum_ascii := ascii_isalnum_ascii;
  uni_isalnum_space := ascii_space_not_alnum
|}.

(** ** Normalisation and keyword extraction *)

Section Keywords.
Context {U : PyUnicode}.

(** [re.sub(r"[^a-z0-9\s]", " ", text)] *)
Definition sub_non_clean (text : pystr) : pystr :=
  (λ c, if Char.is_clean c then c else 32) <$> text.

Definition clean_text (text : pystr) : pystr :=
  sub_non_clean (str_lower text).

(** [\w]: alphanumeric or underscore. *)
Definition is_word (c : N) : bool := uni_isalnum c || (c =? 95).

(** [re.findall(r'\b\w+\b', s)].  The scan goes left to right; at the
    first word character after a non-word character (or the start) [\b]
    holds, the greedy [\w+] takes the whole run, and [\b] holds again at
    its end, so the matches are the maximal runs of word characters in
    order.  [run] is the run being read, last character first. *)
Fixpoint findall_from (run : pystr) (s : pystr) : list pystr :=
  match s with
  | [] => match run with [] => [] | _ => [rev run] end
  | c :: s' =>
      if is_word c then findall_from (c :: run) s'
      else match run with
           | [] => findall_from [] s'
           | _ => rev run :: findall_from [] s'
           end
  end.

Definition findall_words (s : pystr) : list pystr := findall_from [] s.

Definition stopwords : gset pystr :=
  list_to_set (py <$> ["and"; "or"; "the"; "a"; "an"; "in"; "on"; "with";
                       "for"; "to"; "of"; "is"; "are"]%string).

Definition extract_keywords (text : pystr) : gset pystr :=
  let words := findall_words (clean_text text) in
  list_to_set (filter (λ w, w ∉ stopwords) words).

End Keywords.

(** The pattern [^[a-z0-9]+$]: one or more characters, all in [a-z0-9]. *)
Definition matches_lower_alnum (w : pystr) : Prop :=
  w ≠ [] ∧ Forall (λ c, Char.is_lower_alnum c = true) w.

(** ** Exceptions, floats and the state of the synonym cache *)

Inductive exn :=
  | ZeroDivisionError
  | OverflowError
  | ValueError
  | LibraryError (code : N).

Inductive result (A : Type) :=
  | Return (a : A)
  | Raise (e : exn).
Arguments Return {A} a.
Arguments Raise {A} e.

Module Float.

Definition prec : Z := 53.
Definition emax : Z := 1024.

(** An [int] read as an unrounded float: mantissa [z], exponent 0. *)
Definition exact (z : Z) : spec_float :=
  match z with
  | Z0 => S754_zero false
  | Zpos p => S754_finite false p 0
  | Zneg p => S754_finite true p 0
  end.

(** [float(z)]: the conversion of an [int] operand, round to nearest
    even. *)
Definition of_int (z : Z) : spec_float := binary_normalize prec emax z 0 false.

(** [a / b] on two [int]s: the correctly rounded quotient of the exact
    operands ([long_true_divide]); a zero divisor and a result beyond
    the largest float raise. *)
Definition int_truediv (a b : Z) : result spec_float :=
  if (b =? 0)%Z then Raise ZeroDivisionError
  else match SFdiv prec emax (exact a) (exact b) with
       | S754_infinity _ => Raise OverflowError
       | q => Return q
       end.

Definition mul (x y : spec_float) : spec_float := SFmul prec emax x y.

(** [int(x)]: truncation toward zero. *)
Definition to_int (x : spec_float) : result Z :=
  match x with
  | S754_zero _ => Return 0%Z
  | S754_finite s m e => Return (cond_Zopp s (Z.shiftl (Zpos m) e))
  | S754_infinity _ => Raise OverflowError
  | S754_nan => Raise ValueError
  end.

End Float.

(** The cache that [functools.lru_cache] keeps for [get_synonyms]:
    the entries from most to least recently used, and the counters that
    [cache_info()] reports. *)
Record lru := Lru {
  entries : list (pystr * gset pystr);
  hits : nat;
  misses : nat
}.

Definition lru_empty : lru := Lru [] 0 0.

Definition maxsize : nat := 500.

Fixpoint cache_lookup (k : pystr) (l : list (pystr * gset pystr)) :
    option (gset pystr) :=
  match l with
  | [] => None
  | (k', v) :: l' => if decide (k = k') then Some v else cache_lookup k l'
  end.

Fixpoint cache_remove (k : pystr) (l : list (pystr * gset pystr)) :
    list (pystr * gset pystr) :=
  match l with
  | [] => []
  | (k', v) :: l' => if decide (k = k') then l' else (k', v) :: cache_remove k l'
  end.

(** The distinct words of a sequence of calls, the most recently called
    first: the order of use that "least recently used" speaks of. *)
Fixpoint first_occurrences (l : list pystr) : list pystr :=
  match l with
  | [] => []
  | w :: l' => w :: filter (λ k, k ≠ w) (first_occurrences l')
  end.

Definition recently_used (calls : list pystr) : list pystr :=
  first_occurrences (reverse calls).

(** Computations that read and update a state [S] (the cache, an open
    stream, a page being annotated) and may raise.  What was written to
    the state before an exception stays written. *)
Definition ST (S A : Type) : Type := S → result A * S.

#[export] Instance ST_ret {S} : MRet (ST S) := λ A a s, (Return a, s).
#[export] Instance ST_bind {S} : MBind (ST S) := λ A B f m s,
  match m s with
  | (Return a, s') => f a s'
  | (Raise e, s') => (Raise e, s')
  end.

Definition lift {S A} (r : result A) : ST S A := λ s, (r, s).

(** [try: body except Exception as e: handler(e)] *)
Definition try_except {S A} (body : ST S A) (handler : exn → ST S A) : ST S A :=
  λ s, match body s with
       | (Return a, s') => (Return a, s')
       | (Raise e, s') => handler e s'
       end.

(** A [for] loop with an accumulator. *)
Fixpoint foldM {S A B} (f : A → B → ST S A) (a : A) (l : list B) : ST S A :=
  match l with
  | [] => mret a
  | b :: l' => a' ← f a b; foldM f a' l'
  end.

(** A [for] loop run for its effect on the state. *)
Fixpoint forM_ {S B} (f : B → ST S unit) (l : list B) : ST S unit :=
  match l with
  | [] => mret ()
  | b :: l' => _ ← f b; forM_ f l'
  end.

Abbreviation M := (ST lru).

(** ** Synonyms and the score *)

Section Score.
Context {U : PyUnicode}.

(** [wordnet.synsets(word)], each synset given by the names of its
    lemmas.  The lexical database is external.  The corpus is taken to be
    installed, so that every lookup returns.  Where it is missing,
    [wordnet.synsets] raises [LookupError], and with it the first call of
    [get_synonyms] for a word that is not cached: this failure is outside
    the model, which speaks of the runs whose lookups return. *)
Variable wordnet_synsets : pystr → list (list pystr).

(** [name.replace("_", " ")] *)
Definition replace_underscore (name : pystr) : pystr :=
  (λ c, if c =? 95 then 32 else c) <$> name.

(** The body of [get_synonyms]. *)
Definition synonyms (word : pystr) : gset pystr :=
  foldl (λ syns syn,
           foldl (λ syns name,
                    syns ∪ {[ str_lower (replace_underscore name) ]})
                 syns syn)
        ∅ (wordnet_synsets word).

(** [get_synonyms] under [@lru_cache(maxsize=500)]: a hit returns the
    stored set and makes the entry the most recent; a miss runs the
    body, drops the least recently used entry when the cache is full,
    and stores the result as the most recent entry. *)
Definition get_synonyms (word : pystr) : M (gset pystr) :=
  λ c, match cache_lookup word (entries c) with
       | Some syns =>
           (Return syns,
            Lru ((word, syns) :: cache_remove word (entries c))
                (S (hits c)) (misses c))
       | None =>
           let syns := synonyms word in
           let kept := if (length (entries c) <? maxsize)%nat
                       then entries c else removelast (entries c) in
           (Return syns, Lru ((word, syns) :: kept) (hits c) (S (misses c)))
       end.

Definition priority : gset pystr :=
  list_to_set (py <$> ["python"; "java"; "sql"; "aws"; "react"; "node";
                       "mongodb"; "docker"]%string).

(** One turn of the loop over [jd_kw]. *)
Definition classify (resume_kw : gset pystr)
    (st : gset pystr * gset pystr) (word : pystr) :
    M (gset pystr * gset pystr) :=
  let '(matches, missing) := st in
  if decide (word ∈ resume_kw) then mret (matches ∪ {[ word ]}, missing)
  else
    syns ← get_synonyms word;
    if decide (syns ∩ resume_kw ≠ ∅) then mret (matches ∪ {[ word ]}, missing)
    else mret (matches, missing ∪ {[ word ]}).

(** [int((len(matches) / len(jd_kw)) * 100) if jd_kw else 0] *)
Definition ats_score (matches jd_kw : gset pystr) : result Z :=
  if decide (jd_kw = ∅) then Return 0%Z
  else match Float.int_truediv (Z.of_nat (size matches)) (Z.of_nat (size jd_kw)) with
       | Return q => Float.to_int (Float.mul q (Float.of_int 100))
       | Raise e => Raise e
       end.

(** The loop visits the keywords of the job description in the order of
    [elements]; the order of a Python set is as arbitrary. *)
Definition calculate_ats (resume_text jd_text : pystr) :
    M (Z * Z * gset pystr * gset pystr) :=
  let resume_kw := extract_keywords resume_text in
  let jd_kw := extract_keywords jd_text in
  '(matches, missing) ← foldM (classify resume_kw) (∅, ∅) (elements jd_kw);
  ats ← lift (ats_score matches jd_kw);
  let weighted :=
    Z.min (ats + Z.of_nat (size (matches ∩ priority)) * 2) 100 in
  mret (ats, weighted, matches, missing).

(** Every entry of the cache is what the body of [get_synonyms] gives for
    its key.  The empty cache is coherent and [get_synonyms] keeps the
    cache coherent. *)
Definition cache_coherent (c : lru) : Prop :=
  ∀ k v, cache_lookup k (entries c) = Some v → v = synonyms k.

(** The test of one turn of the loop, read off a coherent cache. *)
Definition is_match (resume_kw : gset pystr) (word : pystr) : Prop :=
  word ∈ resume_kw ∨ synonyms word ∩ resume_kw ≠ ∅.

#[export] Instance is_match_dec resume_kw word :
  Decision (is_match resume_kw word).
Proof. unfold is_match. apply _. Defined.

(** The result of [calculate_ats] written as a function of the two
    keyword sets. *)
Definition score_of_keywords (resume_kw jd_kw : gset pystr) :
    result (Z * Z * gset pystr * gset pystr) :=
  let matches : gset pystr :=
    list_to_set (filter (is_match resume_kw) (elements jd_kw)) in
  let missing : gset pystr :=
    list_to_set (filter (λ w, ¬ is_match resume_kw w) (elements jd_kw)) in
  match ats_score matches jd_kw with
  | Return ats =>
      Return (ats, Z.min (ats + Z.of_nat (size (matches ∩ priority)) * 2) 100,
              matches, missing)
  | Raise e => Raise e
  end.

End Score.

(** ** Uploaded files and PDF documents *)

(** An uploaded file is an in-memory byte stream with a name. *)
Record upload := Upload {
  name : pystr;
  content : list N;
  position : nat
}.

(** [file.seek(n)] *)
Definition seek (n : nat) : ST upload unit :=
  λ f, (Return (), Upload (name f) (content f) n).

(** [file.read()]: the bytes from the current position on; the position
    moves to the end. *)
Definition read : ST upload (list N) :=
  λ f, (Return (drop (position f) (content f)),
        Upload (name f) (content f) (Nat.max (position f) (length (content f)))).

(** [s.split(sep)] for a one-character separator. *)
Fixpoint split_from (sep : N) (cur s : pystr) : list pystr :=
  match s with
  | [] => [rev cur]
  | c :: s' =>
      if c =? sep then rev cur :: split_from sep [] s'
      else split_from sep (c :: cur) s'
  end.

Definition split (sep : N) (s : pystr) : list pystr := split_from sep [] s.

Section Documents.
Context {U : PyUnicode}.

(** The PDF and Word libraries are external.  A parsed page is its text
    layout, which the program only reads, and the annotations put on it. *)
Variable Layout : Type.
Variable coord : Type.

Definition rect : Type := coord * coord * coord * coord.

Record page := Page {
  layout : Layout;
  annots : list rect
}.

(** [fitz.open(stream=..., filetype="pdf")] *)
Variable fitz_open : list N → result (list page).
(** [page.get_text()] *)
Variable page_get_text : Layout → result pystr.
(** [page.search_for(kw)] *)
Variable search_for : Layout → pystr → result (list rect).
(** [page.get_text("words")], the first five fields of each entry. *)
Variable get_text_words :
  Layout → result (list (coord * coord * coord * coord * pystr)).
(** The exception, if any, of [page.add_highlight_annot(r)]. *)
Variable annot_error : Layout → rect → option exn.
(** [pdf.write()] *)
Variable pdf_write : list page → result (list N).
(** [docx2txt.process(file)] and where it leaves the stream. *)
Variable docx2txt_process : list N → result pystr.
Variable docx2txt_tell : list N → nat.

Definition file_type (f : upload) : pystr :=
  str_lower (List.last (split 46 (name f)) []).

Definition get_text_from_stream : ST upload pystr :=
  λ file,
    (_ ← seek 0;
     text ← (if decide (file_type file = py "pdf") then
               bytes ← read;
               pdf ← lift (fitz_open bytes);
               foldM (λ text pg,
                        t ← lift (page_get_text (layout pg));
                        mret (text ++ t ++ [10]))
                     [] pdf
             else if decide (file_type file = py "docx") then
               λ f, (docx2txt_process (content f),
                     Upload (name f) (content f) (docx2txt_tell (content f)))
             else mret []);
     _ ← seek 0;
     mret text) file.

(** [file] is [None] or an uploaded file; only [None] is falsy. *)
Definition get_text_from_file (file : option upload) :
    result pystr * option upload :=
  match file with
  | None => (Return [], None)
  | Some f => let '(r, f') := get_text_from_stream f in (r, Some f')
  end.

Definition add_highlight_annot (r : rect) : ST page unit :=
  λ p, match annot_error (layout p) r with
       | Some e => (Raise e, p)
       | None => (Return (), Page (layout p) (annots p ++ [r]))
       end.

(** The statements under [try], for one keyword on one page. *)
Definition mark_keyword (kw : pystr) : ST page unit :=
  found ← (λ p, (search_for (layout p) kw, p));
  _ ← forM_ add_highlight_annot found;
  words ← (λ p, (get_text_words (layout p), p));
  forM_ (λ inst,
           let '(x0, y0, x1, y1, word) := inst in
           if decide (str_lower word = str_lower kw)
           then add_highlight_annot (x0, y0, x1, y1)
           else mret ())
        words.

(** The [try] statement; the handler prints and goes on. *)
Definition highlight_keyword (kw : pystr) : ST page unit :=
  try_except (mark_keyword kw) (λ _, mret ()).

(** [for page in pdf: body], the body working on the page in place. *)
Fixpoint for_pages (body : ST page unit) : ST (list page) unit :=
  λ pdf,
    match pdf with
    | [] => (Return (), [])
    | p :: pdf' =>
        match body p with
        | (Return _, p') =>
            let '(r, pdf'') := for_pages body pdf' in (r, p' :: pdf'')
        | (Raise e, p') => (Raise e, p' :: pdf')
        end
    end.

Definition highlight_pdf_keywords (keywords : list pystr) :
    ST upload (list N) :=
  _ ← seek 0;
  bytes ← read;
  pdf ← lift (fitz_open bytes);
  let '(r, pdf') := for_pages (forM_ highlight_keyword keywords) pdf in
  _ ← lift r;
  lift (pdf_write pdf').

(** What one keyword leaves on a page with layout [l]: the annotations
    made before its statements finished or failed. *)
Definition marks (l : Layout) (kw : pystr) : list rect :=
  annots (snd (mark_keyword kw (Page l []))).

(** The document after the two loops when no exception leaves a [try]. *)
Definition highlighted (kws : list pystr) (pdf : list page) : list page :=
  (λ p, Page (layout p) (annots p ++ concat (marks (layout p) <$> kws))) <$> pdf.

(** A computation on a page that reads its layout and only appends to
    its annotations: outcome and appended annotations are a function of
    the layout. *)
Definition appends {A} (m : ST page A) : Prop :=
  ∀ l, ∃ r added, ∀ a, m (Page l a) = (r, Page l (a ++ added)).

End Documents.

Arguments Page {Layout coord} layout annots.
Arguments layout {Layout coord} p.
Arguments annots {Layout coord} p.
Arguments appends {Layout coord A} m.

(** A computation on a stream that leaves its name and content alone. *)
Definition keeps_file {A} (m : ST upload A) : Prop :=
  ∀ f, name (snd (m f)) = name f ∧ content (snd (m f)) = content f.

(** [file.seek(0)] on the stream, if there is one. *)
Definition rewound (file : option upload) : option upload :=
  (λ f, Upload (name f) (content f) 0) <$> file.

(** The cache as [lru_cache] keeps it: no word twice, at most [maxsize]
    entries, every entry coherent with the lexical database. *)
Definition cache_ok `{PyUnicode} (wordnet_synsets : pystr → list (list pystr))
    (c : lru) : Prop :=
  NoDup ((entries c).*1)
  ∧ (length (entries c) ≤ maxsize)%nat
  ∧ cache_coherent wordnet_synsets c.

(** The rectangles of the words that equal the keyword up to case. *)
Definition word_rects `{PyUnicode} {coord : Type} (kw : pystr)
    (words : list (coord * coord * coord * coord * pystr)) : list (rect coord) :=
  (λ '(x0, y0, x1, y1, _), (x0, y0, x1, y1))
    <$> filter (λ inst, str_lower inst.2 = str_lower kw) words.

(** ** The two analyses *)

(** [s.endswith(suffix)] *)
Definition endswith (s suffix : pystr) : bool :=
  bool_decide (drop (length s - length suffix) s = suffix).

(** [not jd.strip()]: nothing but whitespace. *)
Definition is_blank (s : pystr) : bool := forallb Char.is_space s.

(** The external libraries, in one record. *)
Record libraries := Libraries {
  lib_layout : Type;
  lib_coord : Type;
  lib_fitz_open : list N → result (list (page lib_layout lib_coord));
  lib_page_get_text : lib_layout → result pystr;
  lib_search_for : lib_layout → pystr → result (list (rect lib_coord));
  lib_get_text_words :
    lib_layout →
    result (list (lib_coord * lib_coord * lib_coord * lib_coord * pystr));
  lib_annot_error : lib_layout → rect lib_coord → option exn;
  lib_pdf_write : list (page lib_layout lib_coord) → result (list N);
  lib_docx2txt_process : list N → result pystr;
  lib_docx2txt_tell : list N → nat;
  lib_wordnet_synsets : pystr → list (list pystr)
}.

(** A statement on the cache, and a statement on the file, in a
    computation that has both. *)
Definition on_cache {A} (m : ST lru A) : ST (lru * upload) A :=
  λ '(c, f), let '(r, c') := m c in (r, (c', f)).

Definition on_file {A} (m : ST upload A) : ST (lru * upload) A :=
  λ '(c, f), let '(r, f') := m f in (r, (c, f')).

(** One line of the ranking table; the handler for one resume shows the
    same values.  The keywords are kept as the set that the
    [", ".join] is made of. *)
Record row := Row {
  row_resume : pystr;
  row_ats : Z;
  row_weighted : Z;
  row_matched : gset pystr
}.

Section Analysis.
Context {U : PyUnicode}.
Variable L : libraries.

Definition extract_text : ST upload pystr :=
  get_text_from_stream (lib_layout L) (lib_coord L) (lib_fitz_open L)
    (lib_page_get_text L) (lib_docx2txt_process L) (lib_docx2txt_tell L).

Definition score (resume_text jd_text : pystr) :
    ST lru (Z * Z * gset pystr * gset pystr) :=
  calculate_ats (lib_wordnet_synsets L) resume_text jd_text.

Definition highlight (keywords : list pystr) : ST upload (list N) :=
  highlight_pdf_keywords (lib_layout L) (lib_coord L) (lib_fitz_open L)
    (lib_search_for L) (lib_get_text_words L) (lib_annot_error L)
    (lib_pdf_write L) keywords.

(** What both handlers do with one uploaded file: extract, score, and
    highlight when the name ends in [.pdf].  The file is there, so
    [get_text_from_file] runs its stream part. *)
Definition analyze_resume (jd : pystr) :
    ST (lru * upload) (row * gset pystr * option (list N)) :=
  text ← on_file extract_text;
  '(ats, weighted, matches, missing) ← on_cache (score text jd);
  file_name ← (λ s, (Return (name s.2), s));
  let r := Row file_name ats weighted matches in
  if endswith file_name (py ".pdf") then
    pdf_bytes ← on_file (highlight (elements matches));
    mret (r, missing, Some pdf_bytes)
  else mret (r, missing, None).

(** One turn of the loop over the uploaded files: a row is appended and
    the highlighted bytes, if any, are stored under the file's name. *)
Definition analyze_next (jd : pystr)
    (acc : list row * gmap pystr (list N)) (f : upload) :
    ST lru (list row * gmap pystr (list N)) :=
  λ c, let '(results, pdf_links) := acc in
       match analyze_resume jd (c, f) with
       | (Return (r, _, Some pdf_bytes), (c', _)) =>
           (Return (results ++ [r], <[name f := pdf_bytes]> pdf_links), c')
       | (Return (r, _, None), (c', _)) =>
           (Return (results ++ [r], pdf_links), c')
       | (Raise e, (c', _)) => (Raise e, c')
       end.

(** The loop of the ranking handler, before the table is sorted; [None]
    when the guard [files and jd_multi.strip()] fails. *)
Definition analyze_all (files : list upload) (jd : pystr) :
    ST lru (option (list row * gmap pystr (list N))) :=
  if bool_decide (files ≠ []) && negb (is_blank jd) then
    acc ← foldM (analyze_next jd) ([], ∅) files;
    mret (Some acc)
  else mret None.

End Analysis.

(** ** Sample inputs *)

(** A lexical database without entries. *)
Definition no_wordnet : pystr → list (list pystr) := λ _, [].

(** A job description of fifty distinct keywords and a resume that has
    the first twenty-nine of them. *)
Definition jd_fifty : pystr :=
  py ("k00 k01 k02 k03 k04 k05 k06 k07 k08 k09 k10 k11 k12 k13 k14 " ++
      "k15 k16 k17 k18 k19 k20 k21 k22 k23 k24 k25 k26 k27 k28 k29 " ++
      "k30 k31 k32 k33 k34 k35 k36 k37 k38 k39 k40 k41 k42 k43 k44 " ++
      "k45 k46 k47 k48 k49")%string.

Definition resume_twenty_nine : pystr :=
  py ("k00 k01 k02 k03 k04 k05 k06 k07 k08 k09 k10 k11 k12 k13 k14 " ++
      "k15 k16 k17 k18 k19 k20 k21 k22 k23 k24 k25 k26 k27 k28")%string.

Definition matched_twenty_nine : list pystr :=
  py <$> ["k00"; "k01"; "k02"; "k03"; "k04"; "k05"; "k06"; "k07"; "k08";
          "k09"; "k10"; "k11"; "k12"; "k13"; "k14"; "k15"; "k16"; "k17";
          "k18"; "k19"; "k20"; "k21"; "k22"; "k23"; "k24"; "k25"; "k26";
          "k27"; "k28"]%string.

Definition missing_twenty_one : list pystr :=
  py <$> ["k29"; "k30"; "k31"; "k32"; "k33"; "k34"; "k35"; "k36"; "k37";
          "k38"; "k39"; "k40"; "k41"; "k42"; "k43"; "k44"; "k45"; "k46";
          "k47"; "k48"; "k49"]%string.

Definition kw_fifty : gset pystr :=
  list_to_set (matched_twenty_nine ++ missing_twenty_one).

Definition kw_twenty_nine : gset pystr := list_to_set matched_twenty_nine.

(** A stand-in for the document libraries: a PDF is read as pages of text
    separated by form feeds, every word sits in a box numbered by its
    place on the page, the search fails on the keyword [boom], and a
    document is written back as the number of annotations per page. *)
Module Stub.

Definition Layout : Type := pystr.
Definition coord : Type := Z.

Definition fitz_open (bytes : list N) : result (list (page Layout coord)) :=
  Return ((λ text, Page text []) <$> split 12 bytes).

Definition page_get_text (l : Layout) : result pystr := Return l.

Definition words_of (l : Layout) : list (coord * coord * coord * coord * pystr) :=
  imap (λ i w, (Z.of_nat i, 0, Z.of_nat i + 1, 1, w)%Z) (findall_words l).

Definition get_text_words (l : Layout) :
    result (list (coord * coord * coord * coord * pystr)) :=
  Return (words_of l).

Definition search_for (l : Layout) (kw : pystr) : result (list (rect coord)) :=
  if decide (kw = py "boom") then Raise (LibraryError 1)
  else Return ((λ '(x0, y0, x1, y1, _), (x0, y0, x1, y1))
                 <$> filter (λ inst, inst.2 = kw) (words_of l)).

Definition annot_error (l : Layout) (r : rect coord) : option exn := None.

Definition pdf_write (pdf : list (page Layout coord)) : result (list N) :=
  Return ((λ p, N.of_nat (length (annots p))) <$> pdf).

Definition docx2txt_process (bytes : list N) : result pystr := Return bytes.
Definition docx2txt_tell (bytes : list N) : nat := length bytes.

End Stub.

Definition notes_txt : upload := Upload (py "notes.txt") (py "Python and SQL") 0.
Definition resume_pdf : upload :=
  Upload (py "resume.PDF") (py "Python SQL" ++ [12] ++ py "python boom") 7.

Definition phrase_wordnet : pystr → list (list pystr) :=
  λ _, [[py "machine_learning"; py "e-mail"]; [py "Ph.D."]].

(** A PDF library that opens nothing. *)
Definition broken_fitz_open (bytes : list N) :
    result (list (page Stub.Layout Stub.coord)) :=
  Raise (LibraryError 2).

Definition stub_libraries : libraries :=
  Libraries Stub.Layout Stub.coord Stub.fitz_open Stub.page_get_text
    Stub.search_for Stub.get_text_words Stub.annot_error Stub.pdf_write
    Stub.docx2txt_process Stub.docx2txt_tell no_wordnet.

Definition broken_libraries : libraries :=
  Libraries Stub.Layout Stub.coord broken_fitz_open Stub.page_get_text
    Stub.search_for Stub.get_text_words Stub.annot_error Stub.pdf_write
    Stub.docx2txt_process Stub.docx2txt_tell no_wordnet.

Definition sql_pdf : upload := Upload (py "b.pdf") (py "sql aws") 0.

(** The word numbered [i], for [i < 1000]: a [w] and three digits. *)
Definition numbered (i : nat) : pystr :=
  let n := N.of_nat i in
  [119; 48 + n / 100; 48 + (n / 10) mod 10; 48 + n mod 10].

(** [get_synonyms] called on each word of a list in turn; the cache
    afterwards. *)
Definition lookup_all `{PyUnicode} (wordnet_synsets : pystr → list (list pystr))
    (words : list pystr) (c : lru) : lru :=
  foldl (λ c w, snd (get_synonyms wordnet_synsets w c)) c words.

Example extract_keywords_ex :
  extract_keywords (py "I know Python and SQL, C++; the_end!")
  = list_to_set (py <$> ["i"; "know"; "python"; "sql"; "c"; "end"]%string).
Proof. vm_compute. reflexivity. Qed.

Example scenario_python_sql_aws :
  fst (calculate_ats no_wordnet (py "I know Python and SQL") (py "Python SQL AWS")
         lru_empty)
  = Return (66%Z, 70%Z, list_to_set (py <$> ["python"; "sql"]%string),
            list_to_set (py <$> ["aws"]%string)).
Proof. vm_compute. reflexivity. Qed.

Example truediv_29_50 :
  Float.int_truediv 29 50
  = Return (S754_finite false 5224175567749775 (-53)).
Proof. vm_compute. reflexivity. Qed.

Example percent_29_50 :
  Float.to_int (Float.mul (S754_finite false 5224175567749775 (-53))
                  (Float.of_int 100))
  = Return 57%Z.
Proof. vm_compute. reflexivity. Qed.

(** * Properties *)

(** ** Binary64 arithmetic of the score *)

Section FloatFacts.
Local Open Scope Z_scope.

Lemma digits2_pos_size p : digits2_pos p = Pos.size p.
Proof. induction p; cbn; congruence. Qed.

Lemma Zdigits2_bound m d : 0 <= m -> 0 <= d -> m < 2 ^ d -> Zdigits2 m <= d.
Proof.
  intros Hm Hd Hlt. destruct m as [|p|p]; cbn; [lia| |lia].
  rewrite digits2_pos_size.
  pose proof (Pos.size_le p) as Hle.
  destruct (Z_le_gt_dec (Zpos (Pos.size p)) d) as [|Hgt]; [assumption|exfalso].
  assert (2 ^ (d + 1) <= 2 ^ Zpos (Pos.size p)) by (apply Z.pow_le_mono_r; lia).
  assert (Hp : (2 ^ Zpos (Pos.size p) <= Zpos p~0)).
  { rewrite <- Pos2Z.inj_pow. apply Pos2Z.pos_le_pos. exact Hle. }
  rewrite Z.pow_add_r in H by lia. lia.
Qed.

Lemma shr_1_m mrs : 0 <= shr_m mrs -> shr_m (shr_1 mrs) = shr_m mrs / 2.
Proof.
  destruct mrs as [m r s]; cbn. intros Hm.
  destruct m as [|[p|p|]|p]; cbn; [reflexivity| | |reflexivity|lia].
  - rewrite Pos2Z.inj_xI. apply Z.div_unique with (r := 1); lia.
  - rewrite Pos2Z.inj_xO. apply Z.div_unique with (r := 0); lia.
Qed.

Lemma shr_1_r mrs : 0 <= shr_m mrs -> shr_r (shr_1 mrs) = Z.odd (shr_m mrs).
Proof.
  destruct mrs as [m r s]; cbn. intros Hm.
  destruct m as [|[p|p|]|p]; cbn; try lia; reflexivity.
Qed.

(** [p] halvings: the mantissa is divided by [2 ^ p], the round bit is the
    last bit shifted out. *)
Lemma iter_shr_1 p mrs :
  0 <= shr_m mrs ->
  shr_m (SpecFloat.iter_pos shr_1 p mrs) = shr_m mrs / 2 ^ Zpos p
  /\ shr_r (SpecFloat.iter_pos shr_1 p mrs) = Z.testbit (shr_m mrs) (Zpos p - 1).
Proof.
  revert mrs. induction p as [p IH|p IH|]; intros mrs Hm; cbn [SpecFloat.iter_pos].
  - assert (H1 : 0 <= shr_m (shr_1 mrs)) by (rewrite shr_1_m by assumption; apply Z.div_pos; lia).
    destruct (IH _ H1) as [Ha Hb].
    assert (H2 : 0 <= shr_m (SpecFloat.iter_pos shr_1 p (shr_1 mrs))) by (rewrite Ha; apply Z.div_pos; lia).
    destruct (IH _ H2) as [Hc Hd].
    rewrite Hc, Hd, Ha, shr_1_m by assumption. split.
    + rewrite !Z.div_div by lia. f_equal.
      replace (Zpos p~1) with (1 + Zpos p + Zpos p) by lia.
      rewrite !Z.pow_add_r by lia. change (2 ^ 1) with 2. ring.
    + rewrite <- !Z.shiftr_div_pow2 by lia.
      rewrite Z.shiftr_spec by lia.
      change (shr_m mrs / 2) with (shr_m mrs / 2 ^ 1).
      rewrite <- Z.shiftr_div_pow2 by lia.
      rewrite Z.shiftr_spec by lia. f_equal. lia.
  - destruct (IH _ Hm) as [Ha Hb].
    assert (H2 : 0 <= shr_m (SpecFloat.iter_pos shr_1 p mrs)) by (rewrite Ha; apply Z.div_pos; lia).
    destruct (IH _ H2) as [Hc Hd].
    rewrite Hc, Hd, Ha. split.
    + rewrite !Z.div_div by lia. f_equal.
      rewrite <- Z.pow_add_r by lia. f_equal. lia.
    + rewrite <- !Z.shiftr_div_pow2 by lia.
      rewrite Z.shiftr_spec by lia. f_equal. lia.
  - rewrite shr_1_m, shr_1_r by assumption. split; [reflexivity|].
    symmetry. apply Z.bit0_odd.
Qed.

Lemma shr_record_of_loc_m m l : shr_m (shr_record_of_loc m l) = m.
Proof. destruct l as [|[]]; reflexivity. Qed.

Lemma round_nearest_even_bounds mrs :
  shr_m mrs <= round_nearest_even (shr_m mrs) (loc_of_shr_record mrs) <= shr_m mrs + 1
  /\ (shr_r mrs = false ->
      round_nearest_even (shr_m mrs) (loc_of_shr_record mrs) = shr_m mrs).
Proof.
  destruct mrs as [m [] []]; cbn; try destruct (Z.even m); split; try lia; try reflexivity;
    intros; discriminate.
Qed.

(** Rounding to the exponent [fexp] never goes past a bound [K * 2 ^ j]
    that is itself on the grid. *)
Lemma shr_fexp_le m e l K j mrs e' :
  0 <= m -> 0 < K < 2 ^ 53 -> emin Float.prec Float.emax <= j -> e <= j ->
  m <= K * 2 ^ (j - e) ->
  shr_fexp Float.prec Float.emax m e l = (mrs, e') ->
  e' <= j /\ 0 <= shr_m mrs <= K * 2 ^ (j - e')
  /\ (shr_m mrs = K * 2 ^ (j - e') ->
      (l <> loc_Exact -> m < K * 2 ^ (j - e)) -> shr_r mrs = false).
Proof.
  intros Hm HK Hj He Hle. unfold shr_fexp, shr.
  set (k := fexp Float.prec Float.emax (Zdigits2 m + e) - e).
  assert (Hpow : 0 < 2 ^ (j - e)) by (apply Z.pow_pos_nonneg; lia).
  destruct k as [|p|p] eqn:Hk.
  - intros [= <- <-]. rewrite shr_record_of_loc_m. repeat split; try lia.
    intros Heq Hstrict. destruct l as [|[]]; try reflexivity;
      exfalso; assert (m < K * 2 ^ (j - e)) by (apply Hstrict; discriminate); lia.
  - intros [= <- <-].
    assert (Hm0 : 0 <= shr_m (shr_record_of_loc m l)) by (rewrite shr_record_of_loc_m; exact Hm).
    destruct (iter_shr_1 p _ Hm0) as [Ha Hb].
    rewrite shr_record_of_loc_m in Ha, Hb. rewrite Ha, Hb.
    assert (Hd : Zdigits2 m <= 53 + j - e).
    { apply Zdigits2_bound; [lia|lia|].
      replace (53 + j - e) with (53 + (j - e)) by lia.
      rewrite Z.pow_add_r by lia. nia. }
    assert (He1 : e + Z.pos p <= j).
    { subst k. unfold fexp, emin, Float.prec, Float.emax in *. lia. }
    assert (Hsplit : 2 ^ (j - e) = 2 ^ (j - (e + Z.pos p)) * 2 ^ Z.pos p).
    { rewrite <- Z.pow_add_r by lia. f_equal. lia. }
    assert (Hp2 : 0 < 2 ^ Z.pos p) by (apply Z.pow_pos_nonneg; lia).
    repeat split.
    + exact He1.
    + apply Z.div_pos; lia.
    + apply Z.div_le_upper_bound; [lia|]. rewrite Hsplit in Hle. lia.
    + intros Heq _.
      assert (Hmul : m = K * 2 ^ (j - (e + Z.pos p)) * 2 ^ Z.pos p).
      { pose proof (Z.mul_div_le m (2 ^ Z.pos p) Hp2) as Hdl.
        rewrite Heq in Hdl. rewrite Hsplit in Hle. lia. }
      rewrite Hmul. apply Z.mul_pow2_bits_low. lia.
  - intros [= <- <-]. rewrite shr_record_of_loc_m. repeat split; try lia.
    intros Heq Hstrict. destruct l as [|[]]; try reflexivity;
      exfalso; assert (m < K * 2 ^ (j - e)) by (apply Hstrict; discriminate); lia.
Qed.

Lemma binary_round_aux_le mx ex lx K j :
  0 <= mx -> 0 < K < 2 ^ 53 -> emin Float.prec Float.emax <= j <= Float.emax - Float.prec -> ex <= j ->
  mx <= K * 2 ^ (j - ex) ->
  (lx <> loc_Exact -> mx < K * 2 ^ (j - ex)) ->
  match binary_round_aux Float.prec Float.emax false mx ex lx with
  | S754_zero s => s = false
  | S754_finite s m e => s = false /\ e <= j /\ Zpos m <= K * 2 ^ (j - e)
  | _ => False
  end.
Proof.
  intros Hm HK Hj He Hle Hstrict. unfold binary_round_aux.
  destruct (shr_fexp Float.prec Float.emax mx ex lx) as [mrs1 e1] eqn:H1.
  destruct (shr_fexp_le _ _ _ K j _ _ Hm HK (proj1 Hj) He Hle H1) as (He1 & Hm1 & Hr1).
  destruct (round_nearest_even_bounds mrs1) as [Hb Hb'].
  set (m2 := round_nearest_even (shr_m mrs1) (loc_of_shr_record mrs1)) in *.
  assert (Hm2 : 0 <= m2 <= K * 2 ^ (j - e1)).
  { split; [lia|].
    destruct (Z.eq_dec (shr_m mrs1) (K * 2 ^ (j - e1))) as [Heq|Hne]; [|lia].
    rewrite (Hb' (Hr1 Heq Hstrict)). lia. }
  destruct (shr_fexp Float.prec Float.emax m2 e1 loc_Exact) as [mrs3 e3] eqn:H3.
  destruct (shr_fexp_le _ _ _ K j _ _ (proj1 Hm2) HK (proj1 Hj) He1 (proj2 Hm2) H3)
    as (He3 & Hm3 & _).
  destruct (shr_m mrs3) as [|m|m] eqn:Em3; [reflexivity| |lia].
  replace (e3 <=? Float.emax - Float.prec) with true by (symmetry; apply Z.leb_le; lia).
  repeat split; [exact He3 | lia].
Qed.

Lemma new_location_exact nb r : new_location nb r <> loc_Exact -> r <> 0.
Proof.
  intros Hl ->. apply Hl. unfold new_location, new_location_even, new_location_odd.
  destruct (Z.even nb); reflexivity.
Qed.

(** The quotient of two positive integers [pm <= pn] rounds to at most 1. *)
Lemma SFdiv_le_one (pm pn : positive) :
  (pm <= pn)%positive ->
  match SFdiv Float.prec Float.emax (S754_finite false pm 0) (S754_finite false pn 0) with
  | S754_zero s => s = false
  | S754_finite s m e => s = false /\ e <= 0 /\ Zpos m <= 2 ^ (- e)
  | _ => False
  end.
Proof.
  intros Hle. unfold SFdiv, SFdiv_core_binary.
  set (e' := Z.min _ _).
  assert (He' : e' <= 0) by (subst e'; lia).
  replace (0 - 0 - e') with (- e') by lia.
  set (m' := match - e' with Z.pos _ => _ | Z0 => _ | Z.neg _ => _ end).
  assert (Hm' : m' = Zpos pm * 2 ^ (- e')).
  { subst m'. destruct (- e') as [|s|s] eqn:Es; [cbn; lia| |lia].
    apply Z.shiftl_mul_pow2. lia. }
  pose proof (Z_div_mod m' (Zpos pn) eq_refl) as Hdm.
  destruct (Z.div_eucl m' (Zpos pn)) as [q r]. destruct Hdm as [Hq Hr].
  assert (Hpow : 0 < 2 ^ (- e')) by (apply Z.pow_pos_nonneg; lia).
  assert (Hpn : Zpos pm <= Zpos pn) by (apply Pos2Z.pos_le_pos; exact Hle).
  cbn [xorb].
  pose proof (binary_round_aux_le q e' (new_location (Z.pos pn) r) 1 0) as Hround.
  replace (0 - e') with (- e') in Hround by lia.
  assert (Hq0 : 0 <= q) by nia.
  assert (Hq1 : q <= 1 * 2 ^ (- e')) by nia.
  specialize (Hround Hq0 ltac:(lia) ltac:(unfold emin, Float.prec, Float.emax; lia) He' Hq1).
  assert (Hstrict : new_location (Z.pos pn) r <> loc_Exact -> q < 1 * 2 ^ (- e')).
  { intros Hl. apply new_location_exact in Hl. nia. }
  specialize (Hround Hstrict).
  destruct (binary_round_aux Float.prec Float.emax false q e' (new_location (Z.pos pn) r))
    as [s|s| |s m e]; try assumption.
  destruct Hround as (Hs & He & Hm). replace (0 - e) with (- e) in Hm by lia.
  repeat split; [assumption | assumption | lia].
Qed.

Lemma of_int_100 : Float.of_int 100 = S754_finite false (25 * 2 ^ 48) (-46).
Proof. reflexivity. Qed.

(** A float in [0, 1] times 100, truncated, is an integer in [0, 100]. *)
Lemma percent_to_int (x : spec_float) :
  match x with
  | S754_zero s => s = false
  | S754_finite s m e => s = false /\ e <= 0 /\ Zpos m <= 2 ^ (- e)
  | _ => False
  end ->
  ∃ a, Float.to_int (Float.mul x (Float.of_int 100)) = Return a /\ 0 <= a <= 100.
Proof.
  rewrite of_int_100. destruct x as [s|s| |s m e]; try contradiction.
  - intros ->. exists 0. split; [reflexivity|lia].
  - intros (-> & He & Hm). unfold Float.mul, SFmul. cbn [xorb].
    assert (Hpow : 0 < 2 ^ (- e)) by (apply Z.pow_pos_nonneg; lia).
    pose proof (binary_round_aux_le (Zpos (m * (25 * 2 ^ 48))) (e + -46) loc_Exact 25 2)
      as Hround.
    assert (Hsplit : 2 ^ (2 - (e + -46)) = 2 ^ 48 * 2 ^ (- e)).
    { rewrite <- Z.pow_add_r by lia. f_equal. lia. }
    set (res := binary_round_aux _ _ _ _ _ _) in *.
    specialize (Hround ltac:(lia) ltac:(lia) ltac:(unfold emin, Float.prec, Float.emax; lia)
                  ltac:(lia)).
    rewrite Hsplit, Pos2Z.inj_mul in Hround.
    assert (Hp : Z.pos (25 * 2 ^ 48) = 25 * 2 ^ 48) by reflexivity.
    rewrite Hp in Hround.
    specialize (Hround ltac:(nia) ltac:(intros Hc; exfalso; apply Hc; reflexivity)).
    destruct res as [s|s| |s m' e']; try contradiction.
    + exists 0. split; [reflexivity|lia].
    + destruct Hround as (-> & He' & Hm'). cbn [Float.to_int cond_Zopp].
      eexists; split; [reflexivity|].
      destruct (Z_le_gt_dec 0 e') as [Hpos|Hneg].
      * rewrite Z.shiftl_mul_pow2 by lia.
        assert (0 < 2 ^ e') by (apply Z.pow_pos_nonneg; lia).
        assert (Hfour : 2 ^ (2 - e') * 2 ^ e' = 4).
        { rewrite <- Z.pow_add_r by lia. replace (2 - e' + e') with 2 by lia.
          reflexivity. }
        split; [lia|nia].
      * rewrite Z.shiftl_div_pow2 by lia.
        assert (0 < 2 ^ (- e')) by (apply Z.pow_pos_nonneg; lia).
        split; [apply Z.div_pos; lia|].
        apply Z.div_le_upper_bound; [lia|].
        replace (2 - e') with (2 + - e') in Hm' by lia.
        rewrite Z.pow_add_r in Hm' by lia. change (2 ^ 2) with 4 in Hm'. lia.
Qed.

End FloatFacts.

(** ** Keyword extraction *)

Section KeywordFacts.
Context {U : PyUnicode}.

Lemma space_is_clean : Char.is_clean 32 = true.
Proof. reflexivity. Qed.

Lemma sub_non_clean_clean (s : pystr) :
  Forall (λ c, Char.is_clean c = true) (sub_non_clean s).
Proof.
  unfold sub_non_clean. induction s as [|c s IH]; cbn; [constructor|].
  constructor; [|exact IH].
  destruct (Char.is_clean c) eqn:Hc; [exact Hc | exact space_is_clean].
Qed.

Lemma sub_non_clean_id (s : pystr) :
  Forall (λ c, Char.is_clean c = true) s → sub_non_clean s = s.
Proof.
  unfold sub_non_clean. induction 1 as [|c s Hc _ IH]; cbn; [done|].
  by rewrite Hc, IH.
Qed.

Lemma clean_text_clean (t : pystr) :
  Forall (λ c, Char.is_clean c = true) (clean_text t).
Proof. apply sub_non_clean_clean. Qed.

Lemma clean_text_idempotent (t : pystr) :
  clean_text (clean_text t) = clean_text t.
Proof.
  unfold clean_text at 1.
  rewrite (str_lower_clean _ (clean_text_clean t)).
  apply sub_non_clean_id, clean_text_clean.
Qed.

(** A word character that survives [clean_text] is in [a-z0-9]. *)
Lemma clean_word_char c :
  Char.is_clean c = true → is_word c = true → Char.is_lower_alnum c = true.
Proof.
  unfold Char.is_clean, is_word. intros Hc Hw.
  apply orb_true_iff in Hc as [Hc|Hc]; [done|].
  rewrite (uni_isalnum_space _ Hc) in Hw. cbn in Hw.
  apply N.eqb_eq in Hw. subst c. discriminate Hc.
Qed.

Lemma findall_from_runs (P : N → Prop) (s run : pystr) :
  Forall P run →
  Forall (λ c, is_word c = true → P c) s →
  Forall (λ w, w ≠ [] ∧ Forall P w) (findall_from run s).
Proof.
  revert run. induction s as [|c s IH]; intros run Hrun Hs; cbn.
  - destruct run as [|r run]; [constructor|].
    repeat constructor.
    + intros E. apply (f_equal length) in E.
      rewrite length_rev in E. discriminate E.
    + by apply Forall_rev.
  - apply Forall_cons in Hs as [Hc Hs].
    destruct (is_word c) eqn:Hw.
    + apply IH; [|done]. constructor; auto.
    + destruct run as [|r run]; [by apply IH|].
      constructor; [|by apply IH]. split.
      * intros E. apply (f_equal length) in E.
        rewrite length_rev in E. discriminate E.
      * by apply Forall_rev.
Qed.

Lemma findall_clean_text (t : pystr) :
  Forall (λ w, w ≠ [] ∧ Forall (λ c, Char.is_lower_alnum c = true) w)
         (findall_words (clean_text t)).
Proof.
  apply findall_from_runs; [constructor|].
  eapply Forall_impl; [apply clean_text_clean|].
  intros c Hc Hw. by apply clean_word_char.
Qed.

Lemma elem_of_extract_keywords (t w : pystr) :
  w ∈ extract_keywords t ↔
  w ∈ findall_words (clean_text t) ∧ w ∉ stopwords.
Proof.
  unfold extract_keywords. rewrite elem_of_list_to_set, list_elem_of_filter.
  tauto.
Qed.

End KeywordFacts.

(** ** The score *)

Lemma ST_bind_eq {S A B} (f : A → ST S B) (m : ST S A) (s : S) :
  (m ≫= f) s = match m s with
               | (Return a, s') => f a s'
               | (Raise e, s') => (Raise e, s')
               end.
Proof. reflexivity. Qed.

Lemma ST_bind_return {S A B} (f : A → ST S B) (m : ST S A) (s s' : S) (a : A) :
  m s = (Return a, s') → (m ≫= f) s = f a s'.
Proof. intros Hm. by rewrite ST_bind_eq, Hm. Qed.

Section ScoreFacts.
Context {U : PyUnicode}.
Variable wordnet_synsets : pystr → list (list pystr).

Lemma get_synonyms_returns (word : pystr) (c : lru) :
  ∃ syns c', get_synonyms wordnet_synsets word c = (Return syns, c').
Proof.
  unfold get_synonyms. destruct (cache_lookup word (entries c)); eauto.
Qed.

(** A turn of the loop puts the word in exactly one of the two sets. *)
Lemma classify_returns (resume_kw ma mi : gset pystr) (word : pystr) (c : lru) :
  ∃ c', classify wordnet_synsets resume_kw (ma, mi) word c
          = (Return (ma ∪ {[ word ]}, mi), c')
      ∨ classify wordnet_synsets resume_kw (ma, mi) word c
          = (Return (ma, mi ∪ {[ word ]}), c').
Proof.
  unfold classify. destruct (decide (word ∈ resume_kw)); [by eexists; left|].
  destruct (get_synonyms_returns word c) as (syns & c' & Hs).
  rewrite (ST_bind_return _ _ _ _ _ Hs).
  exists c'. destruct (decide (syns ∩ resume_kw ≠ ∅)); [by left | by right].
Qed.

End ScoreFacts.

Lemma classify_loop {U : PyUnicode} (wordnet_synsets : pystr → list (list pystr))
    (resume_kw : gset pystr) (l : list pystr) :
  ∀ (ma mi : gset pystr) (c : lru),
  ∃ ma' mi' c',
    foldM (classify wordnet_synsets resume_kw) (ma, mi) l c
      = (Return (ma', mi'), c')
    ∧ ma' ∪ mi' = ma ∪ mi ∪ list_to_set l
    ∧ ma' ⊆ ma ∪ list_to_set l
    ∧ (NoDup l → (∀ w, w ∈ l → w ∉ ma ∪ mi) → ma ∩ mi = ∅ → ma' ∩ mi' = ∅).
Proof.
  induction l as [|w l IH]; intros ma mi c; cbn [foldM].
  - exists ma, mi, c. split; [done|]. clear. set_solver.
  - destruct (classify_returns wordnet_synsets resume_kw ma mi w c)
      as (c1 & [Hc|Hc]); rewrite (ST_bind_return _ _ _ _ _ Hc).
    + destruct (IH (ma ∪ {[ w ]}) mi c1) as (ma' & mi' & c' & Hf & Hu & Hsub & Hd).
      exists ma', mi', c'. split; [done|].
      split; [clear - Hu; set_solver|]. split; [clear - Hsub; set_solver|].
      intros Hnd Hfresh Hdisj. apply NoDup_cons in Hnd as [Hw Hnd].
      apply Hd; [done| |].
      * intros w' Hw'. assert (w' ≠ w) by (intros ->; done).
        specialize (Hfresh w' ltac:(by right)). clear - Hfresh H. set_solver.
      * specialize (Hfresh w ltac:(by left)). clear - Hfresh Hdisj. set_solver.
    + destruct (IH ma (mi ∪ {[ w ]}) c1) as (ma' & mi' & c' & Hf & Hu & Hsub & Hd).
      exists ma', mi', c'. split; [done|].
      split; [clear - Hu; set_solver|]. split; [clear - Hsub; set_solver|].
      intros Hnd Hfresh Hdisj. apply NoDup_cons in Hnd as [Hw Hnd].
      apply Hd; [done| |].
      * intros w' Hw'. assert (w' ≠ w) by (intros ->; done).
        specialize (Hfresh w' ltac:(by right)). clear - Hfresh H. set_solver.
      * specialize (Hfresh w ltac:(by left)). clear - Hfresh Hdisj. set_solver.
Qed.

(** The percentage is computed without an exception and lies in
    [0, 100]. *)
Lemma ats_score_returns {U : PyUnicode} (matches jd_kw : gset pystr) :
  matches ⊆ jd_kw →
  ∃ ats, ats_score matches jd_kw = Return ats ∧ (0 ≤ ats ≤ 100)%Z.
Proof.
  intros Hsub. unfold ats_score.
  destruct (decide (jd_kw = ∅)) as [|Hne]; [exists 0%Z; split; [done|lia]|].
  pose proof (subseteq_size _ _ Hsub) as Hle.
  assert (Hpos : size jd_kw ≠ 0%nat) by (by intros ?%size_empty_inv%leibniz_equiv).
  unfold Float.int_truediv.
  destruct (Z.eqb_spec (Z.of_nat (size jd_kw)) 0) as [|_]; [lia|].
  destruct (Z.of_nat (size jd_kw)) as [|pn|pn] eqn:En; [lia| |lia].
  destruct (Z.of_nat (size matches)) as [|pm|pm] eqn:Em; [| |lia].
  - cbn [Float.exact SFdiv xorb].
    apply (percent_to_int (S754_zero false)). reflexivity.
  - cbn [Float.exact].
    assert (Hpp : (pm ≤ pn)%positive) by lia.
    pose proof (SFdiv_le_one pm pn Hpp) as Hq.
    destruct (SFdiv Float.prec Float.emax (S754_finite false pm 0)
                (S754_finite false pn 0)) as [s|s| |s m e] eqn:Eq;
      try contradiction; by apply percent_to_int.
Qed.

(** An empty job description scores 0; there is no division. *)
Lemma ats_score_empty {U : PyUnicode} (matches : gset pystr) :
  ats_score matches ∅ = Return 0%Z.
Proof. unfold ats_score. by rewrite decide_True. Qed.

(** Two matches out of three keywords score 66. *)
Lemma ats_score_two_of_three {U : PyUnicode} (matches jd_kw : gset pystr) :
  size matches = 2%nat → size jd_kw = 3%nat →
  ats_score matches jd_kw = Return 66%Z.
Proof.
  intros Hm Hn. unfold ats_score.
  destruct (decide (jd_kw = ∅)) as [->|_]; [by rewrite size_empty in Hn|].
  rewrite Hm, Hn. vm_compute. reflexivity.
Qed.

(** What [calculate_ats] returns, whatever the cache holds. *)
Lemma calculate_ats_returns {U : PyUnicode}
    (wordnet_synsets : pystr → list (list pystr))
    (resume_text jd_text : pystr) (c : lru) :
  ∃ ats matches missing c',
    calculate_ats wordnet_synsets resume_text jd_text c
      = (Return (ats,
                 Z.min (ats + Z.of_nat (size (matches ∩ priority)) * 2) 100,
                 matches, missing), c')
    ∧ ats_score matches (extract_keywords jd_text) = Return ats
    ∧ (0 ≤ ats ≤ 100)%Z
    ∧ matches ∪ missing = extract_keywords jd_text
    ∧ matches ∩ missing = ∅.
Proof.
  unfold calculate_ats.
  destruct (classify_loop wordnet_synsets (extract_keywords resume_text)
              (elements (extract_keywords jd_text)) ∅ ∅ c)
    as (ma & mi & c' & Hloop & Hu & Hsub & Hd).
  rewrite list_to_set_elements_L in Hu, Hsub.
  destruct (ats_score_returns ma (extract_keywords jd_text)) as (ats & Hats & Hb);
    [clear - Hsub; set_solver|].
  exists ats, ma, mi, c'.
  rewrite (ST_bind_return _ _ _ _ _ Hloop).
  unfold lift. rewrite ST_bind_eq, Hats.
  split; [done|]. split; [done|]. split; [done|].
  split; [clear - Hu; set_solver|].
  apply Hd; [apply NoDup_elements| clear; set_solver | clear; set_solver].
Qed.

Section CoherentCache.
Context {U : PyUnicode}.
Variable wordnet_synsets : pystr → list (list pystr).

Lemma cache_lookup_remove_ne (k w : pystr) (l : list (pystr * gset pystr)) :
  k ≠ w → cache_lookup k (cache_remove w l) = cache_lookup k l.
Proof.
  intros Hne. induction l as [|[k' v] l IH]; cbn; [done|].
  destruct (decide (w = k')) as [->|Hw].
  - by destruct (decide (k = k')).
  - cbn. by rewrite IH.
Qed.

Lemma cache_lookup_removelast (k : pystr) (v : gset pystr)
    (l : list (pystr * gset pystr)) :
  cache_lookup k (removelast l) = Some v → cache_lookup k l = Some v.
Proof.
  induction l as [|[k' v'] l IH]; cbn; [done|].
  destruct l as [|e l]; [done|].
  cbn [cache_lookup]. destruct (decide (k = k')); [done|]. exact IH.
Qed.

Lemma cache_coherent_empty : cache_coherent wordnet_synsets lru_empty.
Proof. intros k v Hk. discriminate Hk. Qed.

(** On a coherent cache [get_synonyms] returns what its body computes,
    hit or miss, and leaves the cache coherent. *)
Lemma get_synonyms_coherent (word : pystr) (c : lru) :
  cache_coherent wordnet_synsets c →
  ∃ c', get_synonyms wordnet_synsets word c
          = (Return (synonyms wordnet_synsets word), c')
        ∧ cache_coherent wordnet_synsets c'.
Proof.
  intros Hc. unfold get_synonyms.
  destruct (cache_lookup word (entries c)) as [syns|] eqn:Hl.
  - rewrite (Hc _ _ Hl). eexists; split; [reflexivity|].
    intros k v. cbn. destruct (decide (k = word)) as [->|Hne]; [by intros [= <-]|].
    rewrite cache_lookup_remove_ne by done. intros Hk. exact (Hc _ _ Hk).
  - eexists; split; [reflexivity|].
    intros k v. cbn [entries cache_lookup].
    destruct (decide (k = word)) as [->|Hne]; [by intros [= <-]|].
    destruct (length (entries c) <? maxsize)%nat; intros Hk.
    + exact (Hc _ _ Hk).
    + exact (Hc _ _ (cache_lookup_removelast _ _ _ Hk)).
Qed.

Lemma classify_coherent (resume_kw ma mi : gset pystr) (word : pystr) (c : lru) :
  cache_coherent wordnet_synsets c →
  ∃ c', classify wordnet_synsets resume_kw (ma, mi) word c
          = (Return (if decide (is_match wordnet_synsets resume_kw word)
                     then (ma ∪ {[ word ]}, mi) else (ma, mi ∪ {[ word ]})), c')
        ∧ cache_coherent wordnet_synsets c'.
Proof.
  intros Hc. unfold classify, is_match.
  destruct (decide (word ∈ resume_kw)) as [Hin|Hin].
  - exists c. split; [|done]. by rewrite decide_True by (by left).
  - destruct (get_synonyms_coherent word c Hc) as (c' & Hs & Hc').
    rewrite (ST_bind_return _ _ _ _ _ Hs). exists c'. split; [|done].
    destruct (decide (synonyms wordnet_synsets word ∩ resume_kw ≠ ∅)) as [Hs'|Hs'].
    + by rewrite decide_True by (by right).
    + by rewrite decide_False by (intros [?|?]; done).
Qed.

Lemma classify_loop_coherent (resume_kw : gset pystr) (l : list pystr) :
  ∀ (ma mi : gset pystr) (c : lru),
  cache_coherent wordnet_synsets c →
  ∃ c',
    foldM (classify wordnet_synsets resume_kw) (ma, mi) l c
      = (Return
           (ma ∪ list_to_set (filter (is_match wordnet_synsets resume_kw) l),
            mi ∪ list_to_set
                   (filter (λ w, ¬ is_match wordnet_synsets resume_kw w) l)),
         c')
    ∧ cache_coherent wordnet_synsets c'.
Proof.
  induction l as [|w l IH]; intros ma mi c Hc; cbn [foldM].
  - exists c. split; [|done]. rewrite !filter_nil. cbn.
    by rewrite !(right_id_L ∅ (∪)).
  - destruct (classify_coherent resume_kw ma mi w c Hc) as (c1 & Hstep & Hc1).
    rewrite (ST_bind_return _ _ _ _ _ Hstep).
    destruct (decide (is_match wordnet_synsets resume_kw w)) as [Hm|Hm].
    + destruct (IH (ma ∪ {[ w ]}) mi c1 Hc1) as (c' & Hf & Hc').
      exists c'. split; [|done]. rewrite Hf.
      rewrite filter_cons_True by done.
      rewrite filter_cons_False by (intros Hn; by apply Hn).
      rewrite list_to_set_cons. by rewrite (assoc_L (∪)).
    + destruct (IH ma (mi ∪ {[ w ]}) c1 Hc1) as (c' & Hf & Hc').
      exists c'. split; [|done]. rewrite Hf.
      rewrite filter_cons_False by done.
      rewrite filter_cons_True by done.
      rewrite list_to_set_cons. by rewrite (assoc_L (∪)).
Qed.

(** The order in which the loop visits the keywords does not show in the
    two sets it builds. *)
Lemma classify_loop_order (resume_kw : gset pystr) (l l' : list pystr)
    (c c' : lru) :
  l ≡ₚ l' →
  cache_coherent wordnet_synsets c → cache_coherent wordnet_synsets c' →
  fst (foldM (classify wordnet_synsets resume_kw) (∅, ∅) l c)
  = fst (foldM (classify wordnet_synsets resume_kw) (∅, ∅) l' c').
Proof.
  intros Hp Hc Hc'.
  destruct (classify_loop_coherent resume_kw l ∅ ∅ c Hc) as (c1 & -> & _).
  destruct (classify_loop_coherent resume_kw l' ∅ ∅ c' Hc') as (c2 & -> & _).
  cbn [fst]. do 2 f_equal; f_equal; apply set_eq; intros w;
    rewrite !elem_of_list_to_set, !list_elem_of_filter; by rewrite Hp.
Qed.

(** On a coherent cache the result of [calculate_ats] is a function of
    the two keyword sets. *)
Lemma calculate_ats_score (resume_text jd_text : pystr) (c : lru) :
  cache_coherent wordnet_synsets c →
  fst (calculate_ats wordnet_synsets resume_text jd_text c)
    = score_of_keywords wordnet_synsets
        (extract_keywords resume_text) (extract_keywords jd_text)
  ∧ cache_coherent wordnet_synsets
      (snd (calculate_ats wordnet_synsets resume_text jd_text c)).
Proof.
  intros Hc. unfold calculate_ats, score_of_keywords.
  destruct (classify_loop_coherent (extract_keywords resume_text)
              (elements (extract_keywords jd_text)) ∅ ∅ c Hc)
    as (c' & Hloop & Hc').
  rewrite (ST_bind_return _ _ _ _ _ Hloop).
  rewrite !(left_id_L ∅ (∪)).
  unfold lift. rewrite ST_bind_eq.
  by destruct (ats_score _ _).
Qed.

End CoherentCache.

(** *** ASCII text *)

Section AsciiText.
Context {U : PyUnicode}.

Lemma ascii_lower_ascii c :
  Char.is_ascii c = true → Char.is_ascii (Char.ascii_lower c) = true.
Proof.
  unfold Char.ascii_lower, Char.is_upper, Char.is_ascii. intros Hc.
  destruct ((65 <=? c) && (c <=? 90)) eqn:Hu; [|exact Hc].
  apply andb_true_iff in Hu as [_ Hu]. apply N.leb_le in Hu.
  apply N.ltb_lt. lia.
Qed.

Lemma clean_text_ascii (t : pystr) :
  Forall (λ c, Char.is_ascii c = true) t →
  clean_text t = clean_text (U := ascii_unicode) t
  ∧ Forall (λ c, Char.is_ascii c = true) (clean_text t).
Proof.
  intros Ht. unfold clean_text. rewrite (str_lower_ascii t Ht). split; [done|].
  unfold sub_non_clean. induction Ht as [|c t Hc _ IH]; cbn; [constructor|].
  constructor; [|exact IH].
  destruct (Char.is_clean _); [by apply ascii_lower_ascii | reflexivity].
Qed.

Lemma findall_from_ascii (s run : pystr) :
  Forall (λ c, Char.is_ascii c = true) s →
  findall_from run s = findall_from (U := ascii_unicode) run s.
Proof.
  intros Hs. revert run. induction Hs as [|c s Hc _ IH]; intros run; [done|].
  cbn. unfold is_word. cbn [uni_isalnum ascii_unicode].
  rewrite (uni_isalnum_ascii c Hc), Hc. cbn [andb].
  by rewrite !IH.
Qed.

(** On ASCII text the keywords do not depend on the Unicode tables. *)
Lemma extract_keywords_ascii (t : pystr) :
  Forall (λ c, Char.is_ascii c = true) t →
  extract_keywords t = extract_keywords (U := ascii_unicode) t.
Proof.
  intros Ht. unfold extract_keywords, findall_words.
  destruct (clean_text_ascii t Ht) as [Hc Ha].
  by rewrite (findall_from_ascii _ _ Ha), Hc.
Qed.

End AsciiText.

Lemma Forall_bool_decide {A} (P : A → bool) (l : list A) :
  forallb P l = true → Forall (λ x, P x = true) l.
Proof.
  induction l as [|x l IH]; cbn; [constructor|].
  intros [Hx Hl]%andb_true_iff. constructor; auto.
Qed.

Lemma filter_ext_elem_of {A} (P Q : A → Prop)
    `{∀ x, Decision (P x)} `{∀ x, Decision (Q x)} (l : list A) :
  (∀ x, x ∈ l → P x ↔ Q x) → filter P l = filter Q l.
Proof.
  induction l as [|x l IH]; intros HPQ; [done|].
  rewrite !filter_cons.
  rewrite IH by (intros y Hy; apply HPQ; by right).
  pose proof (HPQ x ltac:(by left)) as Hx.
  destruct (decide (P x)), (decide (Q x)); tauto || done.
Qed.

(** The result depends on the lexical database only through the synonyms
    of the job description's keywords. *)
Lemma score_of_keywords_ext {U : PyUnicode}
    (wn1 wn2 : pystr → list (list pystr)) (resume_kw jd_kw : gset pystr) :
  (∀ w, w ∈ jd_kw → w ∉ resume_kw → synonyms wn1 w = synonyms wn2 w) →
  score_of_keywords wn1 resume_kw jd_kw = score_of_keywords wn2 resume_kw jd_kw.
Proof.
  intros Hext. unfold score_of_keywords.
  assert (Hm : ∀ w, w ∈ elements jd_kw →
            is_match wn1 resume_kw w ↔ is_match wn2 resume_kw w).
  { intros w Hw%elem_of_elements. unfold is_match.
    destruct (decide (w ∈ resume_kw)); [tauto|]. by rewrite Hext. }
  assert (Hf1 : filter (is_match wn1 resume_kw) (elements jd_kw)
              = filter (is_match wn2 resume_kw) (elements jd_kw))
    by (by apply filter_ext_elem_of).
  assert (Hf2 : filter (λ w, ¬ is_match wn1 resume_kw w) (elements jd_kw)
              = filter (λ w, ¬ is_match wn2 resume_kw w) (elements jd_kw)).
  { apply filter_ext_elem_of. intros w Hw. by rewrite (Hm w Hw). }
  by rewrite Hf1, Hf2.
Qed.

(** The two keyword sets of the sample, and the score on them. *)
Lemma extract_keywords_jd_fifty :
  extract_keywords (U := ascii_unicode) jd_fifty = kw_fifty.
Proof. vm_compute. reflexivity. Qed.

Lemma extract_keywords_resume_twenty_nine :
  extract_keywords (U := ascii_unicode) resume_twenty_nine = kw_twenty_nine.
Proof. vm_compute. reflexivity. Qed.

Lemma kw_fifty_not_matched :
  kw_fifty ∖ kw_twenty_nine = list_to_set missing_twenty_one.
Proof. vm_compute. reflexivity. Qed.

Lemma kw_sizes : size kw_twenty_nine = 29%nat ∧ size kw_fifty = 50%nat.
Proof. split; vm_compute; reflexivity. Qed.

Lemma score_29_of_50 `{PyUnicode} :
  score_of_keywords no_wordnet kw_twenty_nine kw_fifty
  = Return (57%Z, 57%Z, kw_twenty_nine, list_to_set missing_twenty_one).
Proof. vm_compute. reflexivity. Qed.

(** C1, at the failing input: with fifty keywords in the job description,
    twenty-nine of them in the resume and no synonyms for the other
    twenty-one, [calculate_ats] returns the ATS score 57, while
    [floor(100 * 29 / 50)] is 58: the quotient [29 / 50] and its product
    with 100 are rounded to binary64 before the truncation. *)
Theorem ats_score_29_of_50 `{PyUnicode}
    (wordnet_synsets : pystr → list (list pystr)) :
  Forall (λ w, wordnet_synsets w = []) missing_twenty_one →
  fst (calculate_ats wordnet_synsets resume_twenty_nine jd_fifty lru_empty)
    = Return (57%Z, 57%Z, list_to_set matched_twenty_nine,
              list_to_set missing_twenty_one)
  ∧ size (list_to_set matched_twenty_nine : gset pystr) = 29%nat
  ∧ size (extract_keywords jd_fifty) = 50%nat
  ∧ (100 * 29 / 50 = 58)%Z.
Proof.
  intros Hwn.
  rewrite (proj1 (calculate_ats_score wordnet_synsets _ _ lru_empty
                    (cache_coherent_empty wordnet_synsets))).
  rewrite (extract_keywords_ascii resume_twenty_nine),
    (extract_keywords_ascii jd_fifty) by (by apply Forall_bool_decide).
  rewrite extract_keywords_jd_fifty, extract_keywords_resume_twenty_nine.
  rewrite (score_of_keywords_ext wordnet_synsets no_wordnet).
  - split; [apply score_29_of_50|]. split; [apply kw_sizes|].
    split; [apply kw_sizes|]. reflexivity.
  - intros w Hjd Hres.
    assert (Hin : w ∈ kw_fifty ∖ kw_twenty_nine) 
      by (apply elem_of_difference; split; assumption).
    rewrite kw_fifty_not_matched in Hin. apply elem_of_list_to_set in Hin.
    rewrite Forall_forall in Hwn. unfold synonyms.
    by rewrite (Hwn w Hin).
Qed.

Lemma ats_score_29_of_50_witness :
  fst (calculate_ats no_wordnet resume_twenty_nine jd_fifty lru_empty)
    = Return (57%Z, 57%Z, list_to_set matched_twenty_nine,
              list_to_set missing_twenty_one)
  ∧ size (list_to_set matched_twenty_nine : gset pystr) = 29%nat
  ∧ size (extract_keywords jd_fifty) = 50%nat
  ∧ (100 * 29 / 50 = 58)%Z.
Proof.
  apply (ats_score_29_of_50 no_wordnet).
  apply Forall_forall. reflexivity.
Defined.

(** C2: the weighted score is [min(ats + 2 * |matched ∩ priority|, 100)],
    the ATS score lies in [0, 100], and the weighted score is at least the
    ATS score and at most 100, for every pair of texts. *)
Theorem weighted_score_capped `{PyUnicode}
    (wordnet_synsets : pystr → list (list pystr))
    (resume_text jd_text : pystr) (c : lru) :
  ∃ ats weighted matched missing,
    fst (calculate_ats wordnet_synsets resume_text jd_text c)
      = Return (ats, weighted, matched, missing)
    ∧ weighted = Z.min (ats + 2 * Z.of_nat (size (matched ∩ priority))) 100
    ∧ (0 ≤ ats ≤ 100)%Z
    ∧ (ats ≤ weighted)%Z
    ∧ (weighted ≤ 100)%Z.
Proof.
  destruct (calculate_ats_returns wordnet_synsets resume_text jd_text c)
    as (ats & ma & mi & c' & Hr & _ & Hb & _).
  eexists ats, _, ma, mi. rewrite Hr. split; [reflexivity|].
  split; [f_equal; lia|]. split; [exact Hb|]. lia.
Qed.

(** C3: the matched and the missing set partition the keyword set of the
    job description: their union is [extract_keywords(jd_text)] and they
    are disjoint, for every pair of texts. *)
Theorem matched_missing_partition `{PyUnicode}
    (wordnet_synsets : pystr → list (list pystr))
    (resume_text jd_text : pystr) (c : lru) :
  ∃ ats weighted matched missing,
    fst (calculate_ats wordnet_synsets resume_text jd_text c)
      = Return (ats, weighted, matched, missing)
    ∧ matched ∪ missing = extract_keywords jd_text
    ∧ matched ∩ missing = ∅.
Proof.
  destruct (calculate_ats_returns wordnet_synsets resume_text jd_text c)
    as (ats & ma & mi & c' & Hr & _ & _ & Hu & Hd).
  eexists ats, _, ma, mi. rewrite Hr. by split.
Qed.

(** C10: [calculate_ats] depends on each text only through its keyword
    set: texts with the same keywords give the same four outputs, in the
    resume argument and in the job-description argument; so do two resumes
    whose word lists differ only in order and repetition.  The cache that
    [get_synonyms] keeps between the calls is any cache it can have built. *)
Theorem calculate_ats_keywords_only `{PyUnicode}
    (wordnet_synsets : pystr → list (list pystr)) (c1 c2 : lru) :
  cache_coherent wordnet_synsets c1 →
  cache_coherent wordnet_synsets c2 →
  (∀ r1 r2 j : pystr,
     extract_keywords r1 = extract_keywords r2 →
     fst (calculate_ats wordnet_synsets r1 j c1)
       = fst (calculate_ats wordnet_synsets r2 j c2))
  ∧ (∀ r j1 j2 : pystr,
     extract_keywords j1 = extract_keywords j2 →
     fst (calculate_ats wordnet_synsets r j1 c1)
       = fst (calculate_ats wordnet_synsets r j2 c2))
  ∧ (∀ r1 r2 j : pystr,
     (∀ w, w ∈ findall_words (clean_text r1) ↔ w ∈ findall_words (clean_text r2)) →
     fst (calculate_ats wordnet_synsets r1 j c1)
       = fst (calculate_ats wordnet_synsets r2 j c2)).
Proof.
  intros Hc1 Hc2.
  assert (Hres : ∀ r1 r2 j : pystr,
     extract_keywords r1 = extract_keywords r2 →
     fst (calculate_ats wordnet_synsets r1 j c1)
       = fst (calculate_ats wordnet_synsets r2 j c2)).
  { intros r1 r2 j Heq.
    rewrite (proj1 (calculate_ats_score wordnet_synsets r1 j c1 Hc1)).
    rewrite (proj1 (calculate_ats_score wordnet_synsets r2 j c2 Hc2)).
    by rewrite Heq. }
  split; [exact Hres|]. split.
  - intros r j1 j2 Heq.
    rewrite (proj1 (calculate_ats_score wordnet_synsets r j1 c1 Hc1)).
    rewrite (proj1 (calculate_ats_score wordnet_synsets r j2 c2 Hc2)).
    by rewrite Heq.
  - intros r1 r2 j Hw. apply Hres. apply set_eq. intros w.
    rewrite !elem_of_extract_keywords, Hw. done.
Qed.

(** ** The synonym cache *)

Section CacheFacts.
Context {U : PyUnicode}.
Variable wordnet_synsets : pystr → list (list pystr).

Lemma cache_lookup_remove_length (w : pystr) (l : list (pystr * gset pystr)) :
  is_Some (cache_lookup w l) → S (length (cache_remove w l)) = length l.
Proof.
  induction l as [|[k v] l IH]; cbn; [by intros [? ?]|].
  destruct (decide (w = k)); [done|]. intros Hs. cbn. by rewrite IH.
Qed.

Lemma length_removelast_S {A} (l : list A) :
  l ≠ [] → S (length (removelast l)) = length l.
Proof.
  induction l as [|x l IH]; [done|]. intros _.
  destruct l as [|y l]; [done|]. cbn [removelast length].
  f_equal. by apply IH.
Qed.

(** A hit: the stored set is returned and the body is not run. *)
Lemma get_synonyms_hit (word : pystr) (syns : gset pystr) (c : lru) :
  cache_lookup word (entries c) = Some syns →
  fst (get_synonyms wordnet_synsets word c) = Return syns
  ∧ misses (snd (get_synonyms wordnet_synsets word c)) = misses c
  ∧ hits (snd (get_synonyms wordnet_synsets word c)) = S (hits c).
Proof. intros Hl. unfold get_synonyms. by rewrite Hl. Qed.

(** After a call the word is the most recent entry. *)
Lemma get_synonyms_cached (word : pystr) (c : lru) :
  ∃ syns, fst (get_synonyms wordnet_synsets word c) = Return syns
        ∧ cache_lookup word (entries (snd (get_synonyms wordnet_synsets word c)))
          = Some syns.
Proof.
  unfold get_synonyms.
  destruct (cache_lookup word (entries c)) as [syns|]; eexists; cbn;
    (split; [reflexivity|]); by rewrite decide_True.
Qed.

Lemma get_synonyms_length (word : pystr) (c : lru) :
  (length (entries c) ≤ maxsize)%nat →
  (length (entries (snd (get_synonyms wordnet_synsets word c))) ≤ maxsize)%nat.
Proof.
  intros Hlen. unfold get_synonyms.
  destruct (cache_lookup word (entries c)) as [syns|] eqn:Hl; cbn [snd entries length].
  - rewrite cache_lookup_remove_length by (by rewrite Hl). exact Hlen.
  - destruct (Nat.ltb_spec (length (entries c)) maxsize) as [Hlt|Hge]; [lia|].
    rewrite length_removelast_S; [exact Hlen|].
    intros Hnil. rewrite Hnil in Hge. unfold maxsize in Hge. cbn in Hge. lia.
Qed.

(** Below the bound nothing is dropped. *)
Lemma get_synonyms_keeps (word k : pystr) (c : lru) :
  (length (entries c) < maxsize)%nat →
  is_Some (cache_lookup k (entries c)) →
  is_Some (cache_lookup k (entries (snd (get_synonyms wordnet_synsets word c)))).
Proof.
  intros Hlen Hk. unfold get_synonyms.
  destruct (cache_lookup word (entries c)) as [syns|] eqn:Hl; cbn [snd entries cache_lookup].
  - destruct (decide (k = word)) as [->|Hne]; [done|].
    by rewrite cache_lookup_remove_ne.
  - destruct (decide (k = word)) as [->|Hne]; [done|].
    destruct (Nat.ltb_spec (length (entries c)) maxsize) as [|Hge]; [done|lia].
Qed.

End CacheFacts.

Section LruOrder.
Context {U : PyUnicode}.
Variable wordnet_synsets : pystr → list (list pystr).

Lemma cache_lookup_is_Some (k : pystr) (l : list (pystr * gset pystr)) :
  is_Some (cache_lookup k l) ↔ k ∈ (l.*1).
Proof.
  induction l as [|[k' v] l IH]; cbn.
  - split; [by intros [? ?] | by intros ?%elem_of_nil].
  - rewrite elem_of_cons. destruct (decide (k = k')) as [->|Hne].
    + split; [by left | by eexists].
    + rewrite IH. split; [by right | by intros [?|?]].
Qed.

Lemma filter_ne_id (w : pystr) (l : list pystr) :
  w ∉ l → filter (λ k, k ≠ w) l = l.
Proof.
  induction l as [|x l IH]; [done|].
  intros [Hx Hl]%not_elem_of_cons.
  rewrite filter_cons_True by (by intros ->). by rewrite IH.
Qed.

Lemma cache_remove_filter (k : pystr) (l : list (pystr * gset pystr)) :
  NoDup (l.*1) → (cache_remove k l).*1 = filter (λ k', k' ≠ k) (l.*1).
Proof.
  induction l as [|[k' v] l IH]; [done|].
  rewrite fmap_cons. cbn [fst cache_remove].
  intros [Hk' Hnd]%NoDup_cons. destruct (decide (k = k')) as [->|Hne].
  - rewrite filter_cons_False by (by intros ?). by rewrite filter_ne_id.
  - rewrite filter_cons_True by (by intros ->).
    rewrite fmap_cons. cbn [fst]. by rewrite IH.
Qed.

Lemma removelast_take {A} (l : list A) :
  removelast l = take (length l - 1) l.
Proof.
  induction l as [|x l IH]; [done|]. cbn [removelast].
  destruct l as [|y l]; [done|]. rewrite IH. cbn [length].
  by rewrite !Nat.sub_succ, !Nat.sub_0_r.
Qed.

Lemma take_filter_take (w : pystr) (n : nat) (l : list pystr) :
  NoDup l →
  take n (filter (λ k, k ≠ w) (take (S n) l)) = take n (filter (λ k, k ≠ w) l).
Proof.
  revert n. induction l as [|x l IH]; intros n; [done|].
  intros [Hx Hnd]%NoDup_cons. rewrite firstn_cons.
  destruct (decide (x = w)) as [->|Hne].
  - rewrite !filter_cons_False by (by intros ?).
    rewrite !filter_ne_id; [by rewrite take_take, Nat.min_id|done|].
    intros Hin. apply Hx. by apply (subseteq_take n l).
  - rewrite !filter_cons_True by done.
    destruct n as [|n]; [done|]. rewrite !firstn_cons. by rewrite IH.
Qed.

Lemma NoDup_first_occurrences (l : list pystr) : NoDup (first_occurrences l).
Proof.
  induction l as [|w l IH]; cbn [first_occurrences]; [constructor|].
  apply NoDup_cons. split; [|by apply NoDup_filter].
  rewrite list_elem_of_filter. by intros [? _].
Qed.

Lemma recently_used_snoc (calls : list pystr) (w : pystr) :
  recently_used (calls ++ [w])
  = w :: filter (λ k, k ≠ w) (recently_used calls).
Proof. unfold recently_used. by rewrite reverse_snoc. Qed.

(** One call moves its word to the front of the order of use and cuts
    the order after [maxsize] words. *)
Lemma get_synonyms_keys (word : pystr) (c : lru) :
  NoDup ((entries c).*1) → (length (entries c) ≤ maxsize)%nat →
  (entries (snd (get_synonyms wordnet_synsets word c))).*1
  = take maxsize (word :: filter (λ k, k ≠ word) ((entries c).*1)).
Proof.
  intros Hnd Hlen. unfold get_synonyms.
  destruct (cache_lookup word (entries c)) as [syns|] eqn:Hl;
    cbn [snd entries]; rewrite fmap_cons; cbn [fst].
  - rewrite <- cache_remove_filter by done.
    rewrite take_ge; [done|]. cbn [length]. rewrite length_fmap.
    rewrite (cache_lookup_remove_length word (entries c)) by (by eexists).
    exact Hlen.
  - assert (Hw : word ∉ (entries c).*1)
      by (rewrite <- cache_lookup_is_Some, Hl; by intros [? ?]).
    rewrite filter_ne_id by done.
    destruct (Nat.ltb_spec (length (entries c)) maxsize) as [Hlt|Hge].
    + rewrite take_ge; [done|]. cbn [length]. rewrite length_fmap. exact Hlt.
    + assert (Hm : maxsize = S (length (entries c) - 1))
        by (unfold maxsize in *; lia).
      rewrite Hm, firstn_cons. f_equal.
      rewrite removelast_take. by rewrite fmap_take.
Qed.

(** After any calls on a fresh cache the cache holds the [maxsize] most
    recently used words, the most recent first. *)
Lemma lookup_all_keys (calls : list pystr) :
  (entries (lookup_all wordnet_synsets calls lru_empty)).*1
  = take maxsize (recently_used calls).
Proof.
  induction calls as [|w calls IH] using rev_ind; [done|].
  unfold lookup_all in *. rewrite foldl_app. cbn [foldl].
  set (c := foldl _ lru_empty calls) in *.
  rewrite get_synonyms_keys.
  - rewrite IH, recently_used_snoc.
    assert (Hm : maxsize = S 499%nat) by reflexivity.
    rewrite Hm, !firstn_cons. f_equal.
    apply take_filter_take, NoDup_first_occurrences.
  - rewrite IH.
    eapply sublist_NoDup;
      first [apply sublist_take | apply NoDup_first_occurrences].
  - rewrite <- (length_fmap fst), IH, length_take. lia.
Qed.

End LruOrder.

(** C5, as the code has it: [get_synonyms] is memoised through a
    least-recently-used cache of at most 500 entries.  A call for a cached
    word returns the stored set without running the body again; a call
    right after a call for the same word is such a hit; on a coherent
    cache the result is what the body computes; the cache never grows
    past 500 entries; below 500 entries no cached word is dropped; a new
    word that meets a full cache takes the place of the last entry.
    Every call, a hit as well as a miss, makes its word the most recent
    one and leaves the other words in their order of use, so the last
    entry is the least recently used one: after any calls on a fresh
    cache the cached words are the 500 most recently used, the most
    recent first, and a word is cached exactly when it is one of them. *)
Theorem get_synonyms_lru_memoized `{PyUnicode}
    (wordnet_synsets : pystr → list (list pystr)) (word : pystr) (c : lru) :
  let r := get_synonyms wordnet_synsets word c in
  (∀ syns, cache_lookup word (entries c) = Some syns →
     fst r = Return syns ∧ misses (snd r) = misses c)
  ∧ (fst (get_synonyms wordnet_synsets word (snd r)) = fst r
     ∧ misses (snd (get_synonyms wordnet_synsets word (snd r))) = misses (snd r))
  ∧ (cache_coherent wordnet_synsets c →
     fst r = Return (synonyms wordnet_synsets word))
  ∧ ((length (entries c) ≤ maxsize)%nat →
     (length (entries (snd r)) ≤ maxsize)%nat)
  ∧ ((length (entries c) < maxsize)%nat →
     ∀ k, is_Some (cache_lookup k (entries c)) →
          is_Some (cache_lookup k (entries (snd r))))
  ∧ ((maxsize ≤ length (entries c))%nat →
     cache_lookup word (entries c) = None →
     entries (snd r)
     = (word, synonyms wordnet_synsets word) :: removelast (entries c))
  ∧ (NoDup ((entries c).*1) → (length (entries c) ≤ maxsize)%nat →
     (entries (snd r)).*1
     = take maxsize (word :: filter (λ k, k ≠ word) ((entries c).*1)))
  ∧ (∀ calls,
       let cache := lookup_all wordnet_synsets calls lru_empty in
       (entries cache).*1 = take maxsize (recently_used calls)
       ∧ ∀ w, is_Some (cache_lookup w (entries cache))
              ↔ w ∈ take maxsize (recently_used calls)).
Proof.
  cbn zeta. split; [|split; [|split; [|split; [|split; [|split; [|split]]]]]].
  - intros syns Hl.
    destruct (get_synonyms_hit wordnet_synsets word syns c Hl) as (? & ? & _).
    by split.
  - destruct (get_synonyms_cached wordnet_synsets word c) as (syns & Hr & Hl).
    destruct (get_synonyms_hit wordnet_synsets word syns _ Hl) as (Hr' & Hm & _).
    split; [by rewrite Hr, Hr' | exact Hm].
  - intros Hc.
    destruct (get_synonyms_coherent wordnet_synsets word c Hc) as (c' & Hr & _).
    by rewrite Hr.
  - apply get_synonyms_length.
  - intros Hlen k. by apply get_synonyms_keeps.
  - intros Hfull Hl. unfold get_synonyms. rewrite Hl. cbn [snd entries].
    by destruct (Nat.ltb_spec (length (entries c)) maxsize) as [Hlt|_]; [lia|].
  - apply get_synonyms_keys.
  - intros calls. split; [apply lookup_all_keys|].
    intros w. by rewrite cache_lookup_is_Some, lookup_all_keys.
Qed.

Lemma get_synonyms_lru_memoized_witness :
  let c := lookup_all no_wordnet [py "python"] lru_empty in
  let r := get_synonyms no_wordnet (py "python") c in
  (fst r = Return ∅ ∧ misses (snd r) = misses c)
  ∧ fst r = Return (synonyms no_wordnet (py "python"))
  ∧ (length (entries (snd r)) ≤ maxsize)%nat
  ∧ is_Some (cache_lookup (py "python") (entries (snd r)))
  ∧ (entries (lookup_all no_wordnet [py "python"; py "sql"; py "python"]
                lru_empty)).*1
    = take maxsize (recently_used [py "python"; py "sql"; py "python"]).
Proof.
  cbn zeta.
  destruct (get_synonyms_lru_memoized no_wordnet (py "python")
              (lookup_all no_wordnet [py "python"] lru_empty))
    as (Hhit & _ & Hco & Hlen & Hkeep & _ & _ & Hlru).
  split; [apply Hhit; reflexivity|].
  split; [apply Hco; intros k v; cbn; case_decide; [|done]; by intros [= <-]|].
  split; [apply Hlen; cbn; unfold maxsize; lia|].
  split; [apply Hkeep; [cbn; unfold maxsize; lia|]; by eexists|].
  exact (proj1 (Hlru [py "python"; py "sql"; py "python"])).
Defined.

(** C5, the counterexample: the word numbered 0 is looked up, then five
    hundred other words; its entry is gone from the cache, which holds 500
    entries, and the next call for it runs the body again (the miss
    counter goes from 501 to 502). *)
Lemma lru_evicts :
  let words := numbered <$> seq 0 501 in
  let c := lookup_all no_wordnet words lru_empty in
  numbered 0 ∈ words
  ∧ cache_lookup (numbered 0) (entries c) = None
  ∧ length (entries c) = 500%nat
  ∧ misses c = 501%nat
  ∧ misses (snd (get_synonyms no_wordnet (numbered 0) c)) = 502%nat.
Proof.
  vm_compute. split; [left|]. repeat split.
Qed.

(** The word numbered 0 is looked up, then 499 other words, then the
    word numbered 0 again and a new word.  The hit has made the word
    numbered 0 the most recent one, so the new word takes the place of
    the word numbered 1: the word numbered 0 is still cached. *)
Example lru_hit_refreshes :
  let calls := (numbered <$> seq 0 500) ++ [numbered 0; numbered 500] in
  let c := lookup_all no_wordnet calls lru_empty in
  is_Some (cache_lookup (numbered 0) (entries c))
  ∧ cache_lookup (numbered 1) (entries c) = None
  ∧ length (entries c) = 500%nat
  ∧ hits c = 1%nat
  ∧ misses c = 501%nat.
Proof.
  vm_compute. split; [by eexists|]. repeat split.
Qed.

(** C6: [extract_keywords(clean_text(t)) == extract_keywords(t)] for every
    string [t]: normalising first does not change the keyword set. *)
Theorem extract_keywords_clean_text `{PyUnicode} (t : pystr) :
  extract_keywords (clean_text t) = extract_keywords t.
Proof.
  unfold extract_keywords. by rewrite clean_text_idempotent.
Qed.

(** C7: every member of [extract_keywords(t)] matches [^[a-z0-9]+$] and is
    none of the thirteen stopwords, and the empty string yields the empty
    set. *)
Theorem extract_keywords_members `{PyUnicode} :
  (∀ t w : pystr, w ∈ extract_keywords t →
     matches_lower_alnum w ∧
     w ∉ (py <$> ["and"; "or"; "the"; "a"; "an"; "in"; "on"; "with"; "for";
                  "to"; "of"; "is"; "are"]%string))
  ∧ extract_keywords [] = ∅.
Proof.
  split.
  - intros t w Hw. apply elem_of_extract_keywords in Hw as [Hw Hstop]. split.
    + pose proof (findall_clean_text t) as Hall.
      rewrite Forall_forall in Hall. by apply Hall.
    + intros Hin. apply Hstop. unfold stopwords.
      by apply elem_of_list_to_set.
  - unfold extract_keywords, clean_text.
    by rewrite (str_lower_clean [] (Forall_nil_2 _)).
Qed.

Lemma extract_keywords_members_witness :
  py "python" ∈ extract_keywords (py "Python and SQL, the basics")
  ∧ matches_lower_alnum (py "python")
  ∧ py "python" ∉ (py <$> ["and"; "or"; "the"; "a"; "an"; "in"; "on"; "with";
                           "for"; "to"; "of"; "is"; "are"]%string).
Proof.
  assert (Hin : py "python" ∈ extract_keywords (py "Python and SQL, the basics"))
    by (vm_compute; reflexivity).
  split; [exact Hin|].
  exact (proj1 extract_keywords_members _ _ Hin).
Defined.

(** ** Files and the highlighter *)

Section DocumentFacts.
Context {U : PyUnicode}.
Variable Layout : Type.
Variable coord : Type.
Variable fitz_open : list N → result (list (page Layout coord)).
Variable page_get_text : Layout → result pystr.
Variable search_for : Layout → pystr → result (list (rect coord)).
Variable get_text_words :
  Layout → result (list (coord * coord * coord * coord * pystr)).
Variable annot_error : Layout → rect coord → option exn.
Variable pdf_write : list (page Layout coord) → result (list N).
Variable docx2txt_process : list N → result pystr.
Variable docx2txt_tell : list N → nat.

Local Abbreviation text_from_stream :=
  (get_text_from_stream Layout coord fitz_open page_get_text
     docx2txt_process docx2txt_tell).

Lemma keeps_file_ret {A} (a : A) : keeps_file (mret a).
Proof. done. Qed.

Lemma keeps_file_lift {A} (r : result A) : keeps_file (lift r).
Proof. done. Qed.

Lemma keeps_file_seek (n : nat) : keeps_file (seek n).
Proof. done. Qed.

Lemma keeps_file_read : keeps_file read.
Proof. done. Qed.

Lemma keeps_file_bind {A B} (m : ST upload A) (k : A → ST upload B) :
  keeps_file m → (∀ a, keeps_file (k a)) → keeps_file (m ≫= k).
Proof.
  intros Hm Hk f. rewrite ST_bind_eq. specialize (Hm f).
  destruct (m f) as [[a|e] f']; cbn in Hm; [|done].
  destruct (Hk a f') as [Hn Hc]. by rewrite Hn, Hc.
Qed.

Lemma keeps_file_foldM {A B} (k : A → B → ST upload A) (l : list B) :
  (∀ a b, keeps_file (k a b)) → ∀ a, keeps_file (foldM k a l).
Proof.
  intros Hk. induction l as [|b l IH]; intros a; cbn [foldM].
  - apply keeps_file_ret.
  - apply keeps_file_bind; [apply Hk | apply IH].
Qed.

(** The stream after [get_text_from_stream]: name and content as before;
    at position 0 when the call returns. *)
Lemma get_text_from_stream_rewinds (file : upload) :
  name (snd (text_from_stream file)) = name file
  ∧ content (snd (text_from_stream file)) = content file
  ∧ (∀ text, fst (text_from_stream file) = Return text →
       position (snd (text_from_stream file)) = 0%nat).
Proof.
  unfold get_text_from_stream.
  rewrite ST_bind_eq. cbn [seek].
  set (file0 := Upload (name file) (content file) 0).
  set (body := if decide (file_type file = py "pdf") then _ else _).
  assert (Hbody : keeps_file body).
  { subst body. repeat case_decide.
    - apply keeps_file_bind; [apply keeps_file_read|]. intros bytes.
      apply keeps_file_bind; [apply keeps_file_lift|]. intros pdf.
      apply keeps_file_foldM. intros text pg.
      apply keeps_file_bind; [apply keeps_file_lift|]. intros t.
      apply keeps_file_ret.
    - done.
    - apply keeps_file_ret. }
  rewrite ST_bind_eq. destruct (Hbody file0) as [Hn Hc].
  destruct (body file0) as [[text|e] f']; cbn in *; by rewrite ?Hn, ?Hc.
Qed.

Lemma get_text_from_stream_other (file : upload) :
  file_type file ≠ py "pdf" → file_type file ≠ py "docx" →
  text_from_stream file
  = (Return [], Upload (name file) (content file) 0).
Proof.
  intros Hpdf Hdocx. unfold get_text_from_stream. rewrite ST_bind_eq. cbn [seek].
  by rewrite !decide_False by done.
Qed.

End DocumentFacts.

Section HighlightFacts.
Context {U : PyUnicode}.
Variable Layout : Type.
Variable coord : Type.
Variable search_for : Layout → pystr → result (list (rect coord)).
Variable get_text_words :
  Layout → result (list (coord * coord * coord * coord * pystr)).
Variable annot_error : Layout → rect coord → option exn.

Local Abbreviation add_annot := (add_highlight_annot Layout coord annot_error).
Local Abbreviation mark_kw :=
  (mark_keyword Layout coord search_for get_text_words annot_error).
Local Abbreviation highlight_kw :=
  (highlight_keyword Layout coord search_for get_text_words annot_error).
Local Abbreviation marks_of :=
  (marks Layout coord search_for get_text_words annot_error).
Local Abbreviation highlighted_by :=
  (highlighted Layout coord search_for get_text_words annot_error).

Lemma appends_ret {A} (x : A) :
  appends (mret x : ST (page Layout coord) A).
Proof. intros l. exists (Return x), []. intros a. by rewrite app_nil_r. Qed.

Lemma appends_read {A} (g : Layout → result A) :
  appends (λ p : page Layout coord, (g (layout p), p)).
Proof. intros l. exists (g l), []. intros a. by rewrite app_nil_r. Qed.

Lemma appends_add (r : rect coord) : appends (add_annot r).
Proof.
  intros l. unfold add_highlight_annot. cbn.
  destruct (annot_error l r) as [e|].
  - exists (Raise e), []. intros a. by rewrite app_nil_r.
  - by exists (Return ()), [r].
Qed.

Lemma appends_bind {A B} (m : ST (page Layout coord) A) (k : A → ST (page Layout coord) B) :
  appends m → (∀ x, appends (k x)) → appends (m ≫= k).
Proof.
  intros Hm Hk l. destruct (Hm l) as (r1 & add1 & H1).
  destruct r1 as [x|e].
  - destruct (Hk x l) as (r2 & add2 & H2). exists r2, (add1 ++ add2).
    intros a. by rewrite ST_bind_eq, H1, H2, (assoc_L (++)).
  - exists (Raise e), add1. intros a. by rewrite ST_bind_eq, H1.
Qed.

Lemma appends_forM_ {B} (k : B → ST (page Layout coord) unit) (l : list B) :
  (∀ b, appends (k b)) → appends (forM_ k l).
Proof.
  intros Hk. induction l as [|b l IH]; cbn [forM_].
  - apply appends_ret.
  - apply appends_bind; [apply Hk | intros _; apply IH].
Qed.

Lemma appends_mark_keyword (kw : pystr) : appends (mark_kw kw).
Proof.
  unfold mark_keyword.
  apply appends_bind; [apply (appends_read (λ l, search_for l kw))|]. intros found.
  apply appends_bind; [apply appends_forM_, appends_add|]. intros _.
  apply appends_bind; [apply (appends_read get_text_words)|]. intros words.
  apply appends_forM_. intros [[[[x0 y0] x1] y1] word].
  case_decide; [apply appends_add | apply appends_ret].
Qed.

(** The [try] statement never raises; whatever was annotated stays. *)
Lemma highlight_keyword_spec (kw : pystr) (l : Layout) (a : list (rect coord)) :
  highlight_kw kw (Page l a) = (Return (), Page l (a ++ marks_of l kw)).
Proof.
  unfold highlight_keyword, try_except, marks.
  destruct (appends_mark_keyword kw l) as (r & added & Hm).
  rewrite (Hm a), (Hm []). cbn. by destruct r as [[]|e].
Qed.

Lemma forM_highlight_keyword (kws : list pystr) (l : Layout) :
  ∀ a, forM_ highlight_kw kws (Page l a)
       = (Return (), Page l (a ++ concat (marks_of l <$> kws))).
Proof.
  induction kws as [|kw kws IH]; intros a; cbn [forM_].
  - cbn. by rewrite app_nil_r.
  - rewrite ST_bind_eq, highlight_keyword_spec, IH. cbn.
    by rewrite (assoc_L (++)).
Qed.

Lemma for_pages_highlight (kws : list pystr) (pdf : list (page Layout coord)) :
  for_pages Layout coord (forM_ highlight_kw kws) pdf
  = (Return (), highlighted_by kws pdf).
Proof.
  induction pdf as [|[l a] pdf IH]; [done|].
  cbn [for_pages]. rewrite forM_highlight_keyword, IH. done.
Qed.

Lemma forM_add_no_error (l : Layout) (rs : list (rect coord)) :
  (∀ r, r ∈ rs → annot_error l r = None) →
  ∀ a, forM_ add_annot rs (Page l a) = (Return (), Page l (a ++ rs)).
Proof.
  induction rs as [|r rs IH]; intros Hok a; cbn [forM_].
  - cbn. by rewrite app_nil_r.
  - rewrite ST_bind_eq. unfold add_highlight_annot at 1. cbn.
    rewrite (Hok r) by (by left).
    rewrite IH by (intros r' Hr'; apply Hok; by right).
    by rewrite <- (assoc_L (++)).
Qed.

(** The regions that the search returned are marked when marking them
    does not fail, whatever happens in the word scan afterwards. *)
Lemma marks_found (l : Layout) (kw : pystr) (found : list (rect coord)) :
  search_for l kw = Return found →
  (∀ r, r ∈ found → annot_error l r = None) →
  found ⊆ marks_of l kw.
Proof.
  intros Hs Hok. unfold marks, mark_keyword.
  rewrite ST_bind_eq. cbn [layout]. rewrite Hs.
  rewrite ST_bind_eq, (forM_add_no_error l found Hok). cbn [app].
  set (rest := _ ≫= _).
  assert (Hrest : appends rest).
  { subst rest. apply appends_bind; [apply (appends_read get_text_words)|].
    intros words. apply appends_forM_. intros [[[[x0 y0] x1] y1] word].
    case_decide; [apply appends_add | apply appends_ret]. }
  destruct (Hrest l) as (r & added & Hr). rewrite Hr. cbn.
  intros x Hx. apply elem_of_app. by left.
Qed.

End HighlightFacts.

(** C9: when [get_text_from_file] returns, the stream it was given is at
    position 0, with its name and content as before, on the PDF path, the
    Word path and the path of any other extension; with no file there is
    no stream and the empty text is returned. *)
Theorem get_text_from_file_rewinds `{PyUnicode} (Layout coord : Type)
    (fitz_open : list N → result (list (page Layout coord)))
    (page_get_text : Layout → result pystr)
    (docx2txt_process : list N → result pystr) (docx2txt_tell : list N → nat)
    (file file' : option upload) (text : pystr) :
  get_text_from_file Layout coord fitz_open page_get_text
    docx2txt_process docx2txt_tell file = (Return text, file') →
  file' = rewound file.
Proof.
  unfold get_text_from_file, rewound. destruct file as [f|]; [|by intros [= _ <-]].
  destruct (get_text_from_stream_rewinds Layout coord fitz_open page_get_text
              docx2txt_process docx2txt_tell f) as (Hn & Hc & Hp).
  destruct (get_text_from_stream _ _ _ _ _ _ f) as [r f1].
  intros [= -> <-]. cbn in *. specialize (Hp text eq_refl).
  destruct f1 as [n c p]. cbn in *. by subst.
Qed.

Lemma get_text_from_file_rewinds_witness :
  get_text_from_file Stub.Layout Stub.coord Stub.fitz_open Stub.page_get_text
    Stub.docx2txt_process Stub.docx2txt_tell (Some resume_pdf)
  = (Return (py "Python SQL" ++ [10] ++ py "python boom" ++ [10]),
     Some (Upload (py "resume.PDF")
             (py "Python SQL" ++ [12] ++ py "python boom") 0))
  ∧ Some (Upload (py "resume.PDF")
            (py "Python SQL" ++ [12] ++ py "python boom") 0)
    = rewound (Some resume_pdf).
Proof.
  assert (Hrun :
    get_text_from_file Stub.Layout Stub.coord Stub.fitz_open Stub.page_get_text
      Stub.docx2txt_process Stub.docx2txt_tell (Some resume_pdf)
    = (Return (py "Python SQL" ++ [10] ++ py "python boom" ++ [10]),
       Some (Upload (py "resume.PDF")
               (py "Python SQL" ++ [12] ++ py "python boom") 0)))
    by (vm_compute; reflexivity).
  split; [exact Hrun|].
  exact (get_text_from_file_rewinds _ _ _ _ _ _ _ _ _ Hrun).
Defined.

(** C4, as the code has it: for a file whose lower-cased extension is
    neither [pdf] nor [docx], [get_text_from_file] raises nothing; it
    returns the empty text and leaves the stream at position 0. *)
Theorem get_text_from_file_other_extension `{PyUnicode} (Layout coord : Type)
    (fitz_open : list N → result (list (page Layout coord)))
    (page_get_text : Layout → result pystr)
    (docx2txt_process : list N → result pystr) (docx2txt_tell : list N → nat)
    (file : upload) :
  file_type file ≠ py "pdf" → file_type file ≠ py "docx" →
  get_text_from_file Layout coord fitz_open page_get_text
    docx2txt_process docx2txt_tell (Some file)
  = (Return [], rewound (Some file)).
Proof.
  intros Hpdf Hdocx. unfold get_text_from_file.
  by rewrite get_text_from_stream_other.
Qed.

Lemma get_text_from_file_other_extension_witness :
  file_type notes_txt ≠ py "pdf" ∧ file_type notes_txt ≠ py "docx"
  ∧ get_text_from_file Stub.Layout Stub.coord Stub.fitz_open
      Stub.page_get_text Stub.docx2txt_process Stub.docx2txt_tell
      (Some notes_txt)
    = (Return [], rewound (Some notes_txt)).
Proof.
  assert (Hpdf : file_type notes_txt ≠ py "pdf") by (vm_compute; discriminate).
  assert (Hdocx : file_type notes_txt ≠ py "docx") by (vm_compute; discriminate).
  split; [exact Hpdf|]. split; [exact Hdocx|].
  exact (get_text_from_file_other_extension _ _ _ _ _ _ notes_txt Hpdf Hdocx).
Defined.

(** C4, the counterexample: [notes.txt] has the extension [txt], outside
    [{pdf, docx}], and [get_text_from_file] returns the empty string for
    it; no exception is raised. *)
Lemma get_text_from_file_txt_returns :
  file_type notes_txt = py "txt"
  ∧ fst (get_text_from_file Stub.Layout Stub.coord Stub.fitz_open
           Stub.page_get_text Stub.docx2txt_process Stub.docx2txt_tell
           (Some notes_txt)) = Return []
  ∧ ∀ e, fst (get_text_from_file Stub.Layout Stub.coord Stub.fitz_open
                Stub.page_get_text Stub.docx2txt_process Stub.docx2txt_tell
                (Some notes_txt)) ≠ Raise e.
Proof.
  split; [vm_compute; reflexivity|]. split; [vm_compute; reflexivity|].
  intros e. vm_compute. discriminate.
Qed.

(** C8: in [highlight_pdf_keywords] no exception leaves the [try] of a
    keyword on a page.  Once the document is open the two loops run to
    the end for every page and every keyword, each keyword leaving on each
    page what its own statements annotated; the function returns what
    [pdf.write()] gives for that document; and the regions found for a
    keyword are on its page in the result whenever marking them does not
    fail, whatever fails for other keywords or on other pages. *)
Theorem highlight_failures_contained `{PyUnicode} (Layout coord : Type)
    (fitz_open : list N → result (list (page Layout coord)))
    (search_for : Layout → pystr → result (list (rect coord)))
    (get_text_words :
       Layout → result (list (coord * coord * coord * coord * pystr)))
    (annot_error : Layout → rect coord → option exn)
    (pdf_write : list (page Layout coord) → result (list N))
    (keywords : list pystr) (file : upload) (pdf : list (page Layout coord)) :
  fitz_open (content file) = Return pdf →
  let pdf' := highlighted Layout coord search_for get_text_words annot_error
                keywords pdf in
  for_pages Layout coord
    (forM_ (highlight_keyword Layout coord search_for get_text_words
              annot_error) keywords) pdf
    = (Return (), pdf')
  ∧ fst (highlight_pdf_keywords Layout coord fitz_open search_for
           get_text_words annot_error pdf_write keywords file)
    = pdf_write pdf'
  ∧ length pdf' = length pdf
  ∧ (∀ i p kw found,
       pdf !! i = Some p → kw ∈ keywords →
       search_for (layout p) kw = Return found →
       (∀ r, r ∈ found → annot_error (layout p) r = None) →
       ∃ p', pdf' !! i = Some p' ∧ layout p' = layout p ∧ found ⊆ annots p').
Proof.
  intros Hopen pdf'. subst pdf'.
  pose proof (for_pages_highlight Layout coord search_for get_text_words
                annot_error keywords pdf) as Hloops.
  split; [exact Hloops|]. split; [|split].
  - unfold highlight_pdf_keywords. rewrite ST_bind_eq. cbn [seek].
    rewrite ST_bind_eq. unfold read. cbn [position content name].
    rewrite drop_0, ST_bind_eq. unfold lift at 1. rewrite Hopen, Hloops.
    rewrite ST_bind_eq. unfold lift. by destruct (pdf_write _).
  - unfold highlighted. by rewrite length_fmap.
  - intros i p kw found Hi Hkw Hs Hok. unfold highlighted.
    rewrite list_lookup_fmap, Hi. cbn. eexists; split; [reflexivity|].
    split; [done|]. cbn.
    pose proof (marks_found Layout coord search_for get_text_words annot_error
                  (layout p) kw found Hs Hok) as Hm.
    intros r Hr. apply elem_of_app. right.
    apply list_elem_of_In, in_concat. exists (marks Layout coord search_for
      get_text_words annot_error (layout p) kw).
    split; [|by apply list_elem_of_In, Hm].
    apply list_elem_of_In, list_elem_of_fmap. by exists kw.
Qed.

Lemma highlight_failures_contained_witness :
  Stub.fitz_open (content resume_pdf)
    = Return [Page (py "Python SQL") []; Page (py "python boom") []]
  ∧ Stub.search_for (py "python boom") (py "boom") = Raise (LibraryError 1)
  ∧ fst (highlight_pdf_keywords Stub.Layout Stub.coord Stub.fitz_open
           Stub.search_for Stub.get_text_words Stub.annot_error Stub.pdf_write
           [py "boom"; py "python"] resume_pdf)
    = Return [1; 2].
Proof.
  assert (Hopen : Stub.fitz_open (content resume_pdf)
    = Return [Page (py "Python SQL") []; Page (py "python boom") []])
    by (vm_compute; reflexivity).
  split; [exact Hopen|]. split; [vm_compute; reflexivity|].
  destruct (highlight_failures_contained Stub.Layout Stub.coord Stub.fitz_open
              Stub.search_for Stub.get_text_words Stub.annot_error
              Stub.pdf_write [py "boom"; py "python"] resume_pdf _ Hopen)
    as (_ & Hret & _).
  rewrite Hret. vm_compute. reflexivity.
Defined.

Lemma calculate_ats_keywords_only_witness :
  cache_coherent no_wordnet lru_empty
  ∧ extract_keywords (py "SQL, python; Python and sql")
    = extract_keywords (py "Python SQL")
  ∧ fst (calculate_ats no_wordnet (py "SQL, python; Python and sql")
           (py "Python SQL AWS") lru_empty)
    = fst (calculate_ats no_wordnet (py "Python SQL")
             (py "Python SQL AWS") lru_empty).
Proof.
  assert (Hkw : extract_keywords (py "SQL, python; Python and sql")
                = extract_keywords (py "Python SQL"))
    by (vm_compute; reflexivity).
  split; [apply cache_coherent_empty|]. split; [exact Hkw|].
  exact (proj1 (calculate_ats_keywords_only no_wordnet lru_empty lru_empty
                  (cache_coherent_empty no_wordnet)
                  (cache_coherent_empty no_wordnet)) _ _ _ Hkw).
Defined.

(** * Further properties *)

(** ** Normalisation *)

(** X1: the text that [clean_text] returns has only characters of
    [a-z0-9] and whitespace, is as long as the lower-cased input, and is
    left as it is by a second [clean_text]. *)
Theorem clean_text_normal_form `{PyUnicode} (t : pystr) :
  Forall (λ c, Char.is_clean c = true) (clean_text t)
  ∧ length (clean_text t) = length (str_lower t)
  ∧ clean_text (clean_text t) = clean_text t.
Proof.
  split; [apply clean_text_clean|]. split; [|apply clean_text_idempotent].
  unfold clean_text, sub_non_clean. by rewrite length_fmap.
Qed.

Section AsciiKeywords.
Context {U : PyUnicode}.

Lemma clean_text_ascii_lower (t : pystr) :
  Forall (λ c, Char.is_ascii c = true) t →
  clean_text t = sub_non_clean (Char.ascii_lower <$> t).
Proof. intros Ht. unfold clean_text. by rewrite (str_lower_ascii t Ht). Qed.

Lemma findall_from_sep (s1 s2 run : pystr) (c : N) :
  is_word c = false →
  findall_from run (s1 ++ c :: s2) = findall_from run s1 ++ findall_from [] s2.
Proof.
  intros Hc. revert run. induction s1 as [|x s1 IH]; intros run; cbn.
  - rewrite Hc. by destruct run.
  - destruct (is_word x); [apply IH|].
    destruct run; by rewrite IH.
Qed.

(** A cleaned ASCII character that is no letter and no digit is not a
    word character. *)
Lemma cleaned_separator (c : N) :
  Char.is_ascii c = true → Char.ascii_isalnum c = false →
  is_word (if Char.is_clean (Char.ascii_lower c)
           then Char.ascii_lower c else 32) = false.
Proof.
  intros Ha Hn. unfold is_word.
  destruct (Char.is_clean (Char.ascii_lower c)) eqn:Hcl.
  - assert (Hup : Char.is_upper c = false).
    { unfold Char.ascii_isalnum in Hn.
      apply orb_false_iff in Hn as [Hn _]. by apply orb_false_iff in Hn as [_ ?]. }
    unfold Char.ascii_lower in *. rewrite Hup in *.
    unfold Char.is_clean, Char.is_lower_alnum in Hcl.
    unfold Char.ascii_isalnum in Hn.
    apply orb_false_iff in Hn as [Hn Hd]. apply orb_false_iff in Hn as [Hl _].
    rewrite Hl, Hd in Hcl. cbn in Hcl.
    rewrite (uni_isalnum_space c Hcl). cbn.
    apply N.eqb_neq. intros ->. discriminate Hcl.
  - rewrite (uni_isalnum_ascii 32 eq_refl). reflexivity.
Qed.

End AsciiKeywords.

(** X2: ASCII texts that differ only in the case of their letters have
    the same keywords. *)
Theorem extract_keywords_ignores_case `{PyUnicode} (t1 t2 : pystr) :
  Forall (λ c, Char.is_ascii c = true) t1 →
  Forall (λ c, Char.is_ascii c = true) t2 →
  Char.ascii_lower <$> t1 = Char.ascii_lower <$> t2 →
  extract_keywords t1 = extract_keywords t2.
Proof.
  intros H1 H2 Heq. unfold extract_keywords.
  by rewrite (clean_text_ascii_lower t1 H1), (clean_text_ascii_lower t2 H2), Heq.
Qed.

Lemma extract_keywords_ignores_case_witness :
  extract_keywords (py "PYTHON and sql") = extract_keywords (py "Python AND SQL").
Proof.
  apply extract_keywords_ignores_case;
    [by apply Forall_bool_decide | by apply Forall_bool_decide | reflexivity].
Defined.

(** X3: in ASCII text every character that is no letter and no digit
    separates words, the underscore included: the keywords of two texts
    joined by such a character are the keywords of the one and of the
    other. *)
Theorem extract_keywords_join `{PyUnicode} (a b : pystr) (sep : N) :
  Forall (λ c, Char.is_ascii c = true) a →
  Forall (λ c, Char.is_ascii c = true) b →
  Char.is_ascii sep = true → Char.ascii_isalnum sep = false →
  extract_keywords (a ++ sep :: b) = extract_keywords a ∪ extract_keywords b.
Proof.
  intros Ha Hb Hs Hn. unfold extract_keywords, findall_words.
  rewrite (clean_text_ascii_lower a Ha), (clean_text_ascii_lower b Hb).
  rewrite (clean_text_ascii_lower (a ++ sep :: b))
    by (apply Forall_app; split; [done|by constructor]).
  unfold sub_non_clean. rewrite !fmap_app, !fmap_cons.
  rewrite findall_from_sep by (by apply cleaned_separator).
  by rewrite filter_app, list_to_set_app_L.
Qed.

Lemma extract_keywords_join_witness :
  extract_keywords (py "machine" ++ 95 :: py "Learning")
  = extract_keywords (py "machine") ∪ extract_keywords (py "Learning").
Proof.
  apply extract_keywords_join;
    [by apply Forall_bool_decide | by apply Forall_bool_decide
    | reflexivity | reflexivity].
Defined.

(** ** Edge cases of the score *)

Section FloatEdge.
Local Open Scope Z_scope.

(** A positive integer divided by itself is the float 1.0. *)
Lemma SFdiv_self (p : positive) :
  SFdiv Float.prec Float.emax (S754_finite false p 0) (S754_finite false p 0)
  = S754_finite false (2 ^ 52) (-52).
Proof.
  unfold SFdiv, SFdiv_core_binary. cbn [Zdigits2].
  replace (Z.pos (digits2_pos p) + 0 - (Z.pos (digits2_pos p) + 0)) with 0 by lia.
  change (Z.min (fexp Float.prec Float.emax 0) (0 - 0)) with (-53).
  change (0 - 0 - -53) with 53.
  cbv beta iota zeta.
  assert (Hdiv : Z.div_eucl (Z.shiftl (Z.pos p) 53) (Z.pos p) = (2 ^ 53, 0)).
  { rewrite Z.shiftl_mul_pow2 by lia.
    pose proof (Z_div_mod (Z.pos p * 2 ^ 53) (Z.pos p) eq_refl) as Hdm.
    destruct (Z.div_eucl (Z.pos p * 2 ^ 53) (Z.pos p)) as [q r].
    destruct Hdm as [Hq Hr].
    assert (q = 2 ^ 53) by nia. assert (r = 0) by nia. by subst. }
  rewrite Hdiv. unfold new_location, new_location_even, new_location_odd.
  cbn [Z.eqb]. destruct (Z.even (Z.pos p)); reflexivity.
Qed.

Lemma percent_of_one :
  Float.to_int (Float.mul (S754_finite false (2 ^ 52) (-52)) (Float.of_int 100))
  = Return 100.
Proof. vm_compute. reflexivity. Qed.

Lemma percent_of_zero :
  Float.to_int (Float.mul (S754_zero false) (Float.of_int 100)) = Return 0.
Proof. vm_compute. reflexivity. Qed.

End FloatEdge.

Lemma ats_score_none {U : PyUnicode} (jd_kw : gset pystr) :
  ats_score ∅ jd_kw = Return 0%Z.
Proof.
  unfold ats_score. destruct (decide (jd_kw = ∅)); [done|].
  rewrite size_empty. unfold Float.int_truediv.
  assert (Hpos : size jd_kw ≠ 0%nat) by (by intros ?%size_empty_inv%leibniz_equiv).
  destruct (Z.eqb_spec (Z.of_nat (size jd_kw)) 0) as [|_]; [lia|].
  destruct (Z.of_nat (size jd_kw)) as [|pn|pn] eqn:En; [lia| |lia].
  cbn [Z.of_nat Float.exact SFdiv xorb]. apply percent_of_zero.
Qed.

Lemma ats_score_all {U : PyUnicode} (jd_kw : gset pystr) :
  jd_kw ≠ ∅ → ats_score jd_kw jd_kw = Return 100%Z.
Proof.
  intros Hne. unfold ats_score. rewrite decide_False by done.
  unfold Float.int_truediv.
  assert (Hpos : size jd_kw ≠ 0%nat) by (by intros ?%size_empty_inv%leibniz_equiv).
  destruct (Z.eqb_spec (Z.of_nat (size jd_kw)) 0) as [|_]; [lia|].
  destruct (Z.of_nat (size jd_kw)) as [|pn|pn] eqn:En; [lia| |lia].
  cbn [Float.exact]. rewrite SFdiv_self. apply percent_of_one.
Qed.

(** X4: a job description without keywords (empty, or stopwords and
    punctuation only) scores 0 and 0 with both sets empty; nothing is
    divided and the synonym cache is not touched. *)
Theorem calculate_ats_empty_jd `{PyUnicode}
    (wordnet_synsets : pystr → list (list pystr))
    (resume_text jd_text : pystr) (c : lru) :
  extract_keywords jd_text = ∅ →
  calculate_ats wordnet_synsets resume_text jd_text c
  = (Return (0%Z, 0%Z, ∅, ∅), c).
Proof.
  intros Hjd. unfold calculate_ats. rewrite Hjd, elements_empty. cbn [foldM].
  rewrite ST_bind_eq. cbn. rewrite ST_bind_eq. unfold lift.
  by rewrite ats_score_empty.
Qed.

Lemma calculate_ats_empty_jd_witness :
  extract_keywords (py "and the, of!") = ∅
  ∧ calculate_ats no_wordnet (py "Python SQL") (py "and the, of!") lru_empty
    = (Return (0%Z, 0%Z, ∅, ∅), lru_empty).
Proof.
  assert (Hjd : extract_keywords (py "and the, of!") = ∅)
    by (vm_compute; reflexivity).
  split; [exact Hjd|].
  exact (calculate_ats_empty_jd no_wordnet _ _ lru_empty Hjd).
Defined.

Lemma classify_direct {U : PyUnicode}
    (wordnet_synsets : pystr → list (list pystr))
    (resume_kw ma mi : gset pystr) (w : pystr) (c : lru) :
  w ∈ resume_kw →
  classify wordnet_synsets resume_kw (ma, mi) w c
  = (Return (ma ∪ {[ w ]}, mi), c).
Proof. intros Hw. unfold classify. by rewrite decide_True. Qed.

Lemma classify_empty_resume {U : PyUnicode}
    (wordnet_synsets : pystr → list (list pystr))
    (ma mi : gset pystr) (w : pystr) (c : lru) :
  ∃ c', classify wordnet_synsets ∅ (ma, mi) w c
        = (Return (ma, mi ∪ {[ w ]}), c').
Proof.
  unfold classify. rewrite decide_False by set_solver.
  destruct (get_synonyms_returns wordnet_synsets w c) as (syns & c1 & Hs).
  rewrite ST_bind_eq, Hs. exists c1.
  by rewrite decide_False by (intros Hn; apply Hn; set_solver).
Qed.

(** The loop when no keyword of the job description can match. *)
Lemma classify_loop_empty_resume {U : PyUnicode}
    (wordnet_synsets : pystr → list (list pystr)) (l : list pystr) :
  ∀ (ma mi : gset pystr) (c : lru),
  ∃ c', foldM (classify wordnet_synsets ∅) (ma, mi) l c
        = (Return (ma, mi ∪ list_to_set l), c').
Proof.
  induction l as [|w l IH]; intros ma mi c; cbn [foldM].
  - exists c. cbn. by rewrite (right_id_L ∅ (∪)).
  - destruct (classify_empty_resume wordnet_synsets ma mi w c) as (c1 & Hs).
    rewrite (ST_bind_return _ _ _ _ _ Hs).
    destruct (IH ma (mi ∪ {[ w ]}) c1) as (c' & ->).
    exists c'. by rewrite list_to_set_cons, (assoc_L (∪)).
Qed.

(** X5: a resume without keywords matches nothing: the ATS and the
    weighted score are 0, the matched set is empty and every keyword of
    the job description is missing, whatever the lexical database and the
    cache hold. *)
Theorem calculate_ats_empty_resume `{PyUnicode}
    (wordnet_synsets : pystr → list (list pystr))
    (resume_text jd_text : pystr) (c : lru) :
  extract_keywords resume_text = ∅ →
  fst (calculate_ats wordnet_synsets resume_text jd_text c)
  = Return (0%Z, 0%Z, ∅, extract_keywords jd_text).
Proof.
  intros Hres. unfold calculate_ats. rewrite Hres.
  destruct (classify_loop_empty_resume wordnet_synsets
              (elements (extract_keywords jd_text)) ∅ ∅ c) as (c' & Hloop).
  rewrite (left_id_L ∅ (∪)), list_to_set_elements_L in Hloop.
  rewrite (ST_bind_return _ _ _ _ _ Hloop).
  rewrite ST_bind_eq. unfold lift. by rewrite ats_score_none.
Qed.

Lemma calculate_ats_empty_resume_witness :
  extract_keywords (py "...") = ∅
  ∧ fst (calculate_ats no_wordnet (py "...") (py "Python SQL") lru_empty)
    = Return (0%Z, 0%Z, ∅, extract_keywords (py "Python SQL")).
Proof.
  assert (Hres : extract_keywords (py "...") = ∅) by (vm_compute; reflexivity).
  split; [exact Hres|].
  exact (calculate_ats_empty_resume no_wordnet _ _ lru_empty Hres).
Defined.

(** The loop when every keyword is in the resume: no call of
    [get_synonyms]. *)
Lemma classify_loop_direct {U : PyUnicode}
    (wordnet_synsets : pystr → list (list pystr))
    (resume_kw : gset pystr) (l : list pystr) :
  (∀ w, w ∈ l → w ∈ resume_kw) →
  ∀ (ma mi : gset pystr) (c : lru),
  foldM (classify wordnet_synsets resume_kw) (ma, mi) l c
  = (Return (ma ∪ list_to_set l, mi), c).
Proof.
  induction l as [|w l IH]; intros Hin ma mi c; cbn [foldM].
  - cbn. by rewrite (right_id_L ∅ (∪)).
  - rewrite (ST_bind_return _ _ _ _ _
               (classify_direct wordnet_synsets resume_kw ma mi w c
                  (Hin w ltac:(by left)))).
    rewrite IH by (intros w' Hw'; apply Hin; by right).
    by rewrite list_to_set_cons, (assoc_L (∪)).
Qed.

(** X6: when the resume has every keyword of a job description that has
    at least one, both scores are 100, every keyword is matched, none is
    missing, and [get_synonyms] is not called: the cache is as before. *)
Theorem calculate_ats_full_match `{PyUnicode}
    (wordnet_synsets : pystr → list (list pystr))
    (resume_text jd_text : pystr) (c : lru) :
  extract_keywords jd_text ≠ ∅ →
  extract_keywords jd_text ⊆ extract_keywords resume_text →
  calculate_ats wordnet_synsets resume_text jd_text c
  = (Return (100%Z, 100%Z, extract_keywords jd_text, ∅), c).
Proof.
  intros Hne Hsub. unfold calculate_ats.
  assert (Hin : ∀ w, w ∈ elements (extract_keywords jd_text) →
                 w ∈ extract_keywords resume_text)
    by (intros w Hw%elem_of_elements; by apply Hsub).
  pose proof (classify_loop_direct wordnet_synsets _ _ Hin ∅ ∅ c) as Hloop.
  rewrite (left_id_L ∅ (∪)), list_to_set_elements_L in Hloop.
  rewrite (ST_bind_return _ _ _ _ _ Hloop).
  rewrite ST_bind_eq. unfold lift. rewrite ats_score_all by done.
  cbn [mret ST_ret]. by rewrite Z.min_r by lia.
Qed.

Lemma calculate_ats_full_match_witness :
  calculate_ats no_wordnet (py "I know SQL, Python and Rust") (py "Python SQL")
    lru_empty
  = (Return (100%Z, 100%Z, extract_keywords (py "Python SQL"), ∅), lru_empty).
Proof.
  apply calculate_ats_full_match.
  - vm_compute. discriminate.
  - apply (bool_decide_unpack _). vm_compute. exact I.
Defined.

(** ** Matching *)

Lemma classify_loop_direct_in {U : PyUnicode}
    (wordnet_synsets : pystr → list (list pystr))
    (resume_kw : gset pystr) (l : list pystr) :
  ∀ (ma mi : gset pystr) (c : lru),
  ∃ ma' mi' c',
    foldM (classify wordnet_synsets resume_kw) (ma, mi) l c
      = (Return (ma', mi'), c')
    ∧ ma ⊆ ma'
    ∧ (∀ w, w ∈ l → w ∈ resume_kw → w ∈ ma')
    ∧ (∀ w, w ∈ mi' → w ∈ mi ∨ w ∉ resume_kw).
Proof.
  induction l as [|w l IH]; intros ma mi c; cbn [foldM].
  - exists ma, mi, c. split; [done|]. split; [done|].
    split; [by intros w ?%not_elem_of_nil | by left].
  - unfold classify at 2.
    destruct (decide (w ∈ resume_kw)) as [Hw|Hw].
    + rewrite ST_bind_eq. cbn [mret ST_ret].
      destruct (IH (ma ∪ {[ w ]}) mi c) as (ma' & mi' & c' & Hf & Hsub & Hin & Hmi).
      exists ma', mi', c'. split; [done|]. split; [clear - Hsub; set_solver|].
      split; [|done].
      intros w' [->|Hw']%elem_of_cons Hr; [clear - Hsub; set_solver | by apply Hin].
    + destruct (get_synonyms_returns wordnet_synsets w c) as (syns & c1 & Hs).
      rewrite !ST_bind_eq, Hs.
      destruct (decide (syns ∩ resume_kw ≠ ∅)); cbn [mret ST_ret].
      * destruct (IH (ma ∪ {[ w ]}) mi c1) as (ma' & mi' & c' & Hf & Hsub & Hin & Hmi).
        exists ma', mi', c'. split; [done|]. split; [clear - Hsub; set_solver|].
        split; [|done].
        intros w' [->|Hw']%elem_of_cons Hr; [done | by apply Hin].
      * destruct (IH ma (mi ∪ {[ w ]}) c1) as (ma' & mi' & c' & Hf & Hsub & Hin & Hmi).
        exists ma', mi', c'. split; [done|]. split; [done|]. split.
        -- intros w' [->|Hw']%elem_of_cons Hr; [done | by apply Hin].
        -- intros w' Hw'. destruct (Hmi w' Hw') as [Hm|Hm]; [|by right].
           apply elem_of_union in Hm as [Hm|Hm]; [by left|].
           apply elem_of_singleton in Hm as ->. by right.
Qed.

(** X7: on every run of [calculate_ats] that returns, a keyword of the job
    description that is also a keyword of the resume is in the matched set
    and not in the missing set, whatever the lexical database returns and
    whatever the cache holds. *)
Theorem direct_matches_counted `{PyUnicode}
    (wordnet_synsets : pystr → list (list pystr))
    (resume_text jd_text : pystr) (c : lru)
    (ats weighted : Z) (matched missing : gset pystr) :
  fst (calculate_ats wordnet_synsets resume_text jd_text c)
    = Return (ats, weighted, matched, missing) →
  extract_keywords jd_text ∩ extract_keywords resume_text ⊆ matched
  ∧ missing ∩ extract_keywords resume_text = ∅.
Proof.
  intros Hrun.
  destruct (classify_loop_direct_in wordnet_synsets
              (extract_keywords resume_text)
              (elements (extract_keywords jd_text)) ∅ ∅ c)
    as (ma' & mi' & c'' & Hloop & _ & Hin & Hmi).
  revert Hrun. unfold calculate_ats.
  rewrite (ST_bind_return _ _ _ _ _ Hloop). unfold lift. rewrite ST_bind_eq.
  destruct (ats_score ma' (extract_keywords jd_text)) as [a|e]; [|done].
  cbn [mret ST_ret]. intros [= _ _ <- <-]. split.
  - intros w [Hj Hrs]%elem_of_intersection. apply Hin; [|done].
    by apply elem_of_elements.
  - apply set_eq. intros w. split; [|by intros ?%not_elem_of_empty].
    intros [Hm Hrs]%elem_of_intersection.
    destruct (Hmi w Hm) as [?%not_elem_of_empty|?]; done.
Qed.

Lemma direct_matches_counted_witness :
  fst (calculate_ats no_wordnet (py "I know Python and SQL")
         (py "Python SQL AWS") lru_empty)
  = Return (66%Z, 70%Z, list_to_set (py <$> ["python"; "sql"]%string),
            list_to_set (py <$> ["aws"]%string))
  ∧ extract_keywords (py "Python SQL AWS")
    ∩ extract_keywords (py "I know Python and SQL")
    ⊆ list_to_set (py <$> ["python"; "sql"]%string)
  ∧ (list_to_set (py <$> ["aws"]%string) : gset pystr)
    ∩ extract_keywords (py "I know Python and SQL") = ∅.
Proof.
  assert (Hrun :
    fst (calculate_ats no_wordnet (py "I know Python and SQL")
           (py "Python SQL AWS") lru_empty)
    = Return (66%Z, 70%Z, list_to_set (py <$> ["python"; "sql"]%string),
              list_to_set (py <$> ["aws"]%string)))
    by (vm_compute; reflexivity).
  split; [exact Hrun|].
  exact (direct_matches_counted no_wordnet _ _ lru_empty _ _ _ _ Hrun).
Defined.

(** X8: with the synonyms read off a coherent cache, a resume with more
    keywords matches at least the same keywords of the job description
    and misses at most the same. *)
Theorem more_keywords_more_matches `{PyUnicode}
    (wordnet_synsets : pystr → list (list pystr))
    (r1 r2 jd_text : pystr) (c1 c2 : lru) :
  cache_coherent wordnet_synsets c1 →
  cache_coherent wordnet_synsets c2 →
  extract_keywords r1 ⊆ extract_keywords r2 →
  ∃ ats1 weighted1 matched1 missing1 ats2 weighted2 matched2 missing2,
    fst (calculate_ats wordnet_synsets r1 jd_text c1)
      = Return (ats1, weighted1, matched1, missing1)
    ∧ fst (calculate_ats wordnet_synsets r2 jd_text c2)
      = Return (ats2, weighted2, matched2, missing2)
    ∧ matched1 ⊆ matched2
    ∧ missing2 ⊆ missing1.
Proof.
  intros Hc1 Hc2 Hsub.
  destruct (calculate_ats_returns wordnet_synsets r1 jd_text c1)
    as (a1 & ma1 & mi1 & c1' & Hr1 & _).
  destruct (calculate_ats_returns wordnet_synsets r2 jd_text c2)
    as (a2 & ma2 & mi2 & c2' & Hr2 & _).
  eexists a1, _, ma1, mi1, a2, _, ma2, mi2.
  rewrite Hr1, Hr2. split; [reflexivity|]. split; [reflexivity|].
  pose proof (proj1 (calculate_ats_score wordnet_synsets r1 jd_text c1 Hc1)) as Hs1.
  pose proof (proj1 (calculate_ats_score wordnet_synsets r2 jd_text c2 Hc2)) as Hs2.
  rewrite Hr1 in Hs1. rewrite Hr2 in Hs2. unfold score_of_keywords in Hs1, Hs2.
  destruct (ats_score _ _) in Hs1; [|done].
  destruct (ats_score _ _) in Hs2; [|done].
  cbn in Hs1, Hs2. injection Hs1 as _ _ -> ->. injection Hs2 as _ _ -> ->.
  assert (Hmono : ∀ w, is_match wordnet_synsets (extract_keywords r1) w →
                       is_match wordnet_synsets (extract_keywords r2) w).
  { intros w [Hw|Hw]; [left; by apply Hsub|right].
    intros Hempty. apply Hw. clear - Hsub Hempty. set_solver. }
  split; intros w; rewrite !elem_of_list_to_set, !list_elem_of_filter;
    intros [Hw Hin]; (split; [|done]); auto.
Qed.

Lemma more_keywords_more_matches_witness :
  ∃ ats1 weighted1 matched1 missing1 ats2 weighted2 matched2 missing2,
    fst (calculate_ats no_wordnet (py "Python") (py "Python SQL AWS") lru_empty)
      = Return (ats1, weighted1, matched1, missing1)
    ∧ fst (calculate_ats no_wordnet (py "Python and SQL") (py "Python SQL AWS")
             lru_empty)
      = Return (ats2, weighted2, matched2, missing2)
    ∧ matched1 ⊆ matched2
    ∧ missing2 ⊆ missing1.
Proof.
  apply more_keywords_more_matches;
    [apply cache_coherent_empty | apply cache_coherent_empty|].
  apply (bool_decide_unpack _). vm_compute. exact I.
Defined.

Lemma size_priority : size priority = 8%nat.
Proof. vm_compute. reflexivity. Qed.

(** X9: the weighted score is the ATS score plus a bonus of at most 16
    points, two for each of the eight priority terms that is matched, and
    equals the ATS score when no priority term is matched. *)
Theorem weighted_bonus_bounded `{PyUnicode}
    (wordnet_synsets : pystr → list (list pystr))
    (resume_text jd_text : pystr) (c : lru) :
  ∃ ats weighted matched missing,
    fst (calculate_ats wordnet_synsets resume_text jd_text c)
      = Return (ats, weighted, matched, missing)
    ∧ (ats ≤ weighted ≤ ats + 16)%Z
    ∧ (matched ∩ priority = ∅ → weighted = ats).
Proof.
  destruct (calculate_ats_returns wordnet_synsets resume_text jd_text c)
    as (ats & ma & mi & c' & Hr & _ & Hb & _).
  eexists ats, _, ma, mi. rewrite Hr. split; [reflexivity|].
  assert (Hsz : (size (ma ∩ priority) ≤ 8)%nat).
  { rewrite <- size_priority. apply subseteq_size. clear. set_solver. }
  split; [lia|]. intros ->. rewrite size_empty. lia.
Qed.

(** ** Synonyms and the cache *)

Section SynonymFacts.
Context {U : PyUnicode}.
Variable wordnet_synsets : pystr → list (list pystr).

Lemma elem_of_synonyms_inner (syn : list pystr) (acc : gset pystr) (w : pystr) :
  w ∈ foldl (λ syns name, syns ∪ {[ str_lower (replace_underscore name) ]})
        acc syn
  ↔ w ∈ acc ∨ ∃ name, name ∈ syn ∧ w = str_lower (replace_underscore name).
Proof.
  revert acc. induction syn as [|n syn IH]; intros acc; cbn [foldl].
  - split; [by left|]. intros [?|(? & ?%not_elem_of_nil & _)]; done.
  - rewrite IH, elem_of_union, elem_of_singleton. split.
    + intros [[?| ->]|(name & ? & ->)]; [by left| |].
      * right. exists n. split; [by left|done].
      * right. exists name. split; [by right|done].
    + intros [?|(name & [->|?]%elem_of_cons & ->)]; [by left; left|by left; right|].
      right. by exists name.
Qed.

(** The set that the body of [get_synonyms] builds: the lower-cased lemma
    names of all synsets of the word, underscores turned into spaces. *)
Lemma elem_of_synonyms (word w : pystr) :
  w ∈ synonyms wordnet_synsets word
  ↔ ∃ syn name, syn ∈ wordnet_synsets word ∧ name ∈ syn
                ∧ w = str_lower (replace_underscore name).
Proof.
  unfold synonyms.
  assert (Hgen : ∀ (l : list (list pystr)) (acc : gset pystr),
    w ∈ foldl (λ syns syn,
                 foldl (λ syns name,
                          syns ∪ {[ str_lower (replace_underscore name) ]})
                       syns syn) acc l
    ↔ w ∈ acc ∨ ∃ syn name, syn ∈ l ∧ name ∈ syn
                            ∧ w = str_lower (replace_underscore name)).
  { induction l as [|s l IH]; intros acc; cbn [foldl].
    - split; [by left|]. intros [?|(? & ? & ?%not_elem_of_nil & _)]; done.
    - rewrite IH, elem_of_synonyms_inner. split.
      + intros [[?|(name & ? & ->)]|(syn & name & ? & ? & ->)]; [by left| |].
        * right. exists s, name. split; [by left|done].
        * right. exists syn, name. split; [by right|done].
      + intros [?|(syn & name & [->|?]%elem_of_cons & ? & ->)];
          [by left; left| |].
        * left. right. by exists name.
        * right. by exists syn, name. }
  rewrite Hgen. split; [|by right].
  intros [?%not_elem_of_empty|?]; done.
Qed.

Lemma phrase_not_keyword (name t : pystr) (c : N) :
  Forall (λ c, Char.is_ascii c = true) name →
  c ∈ name → Char.ascii_isalnum c = false →
  str_lower (replace_underscore name) ∉ extract_keywords t.
Proof.
  intros Ha Hc Hn Hin.
  assert (Ha' : Forall (λ c, Char.is_ascii c = true) (replace_underscore name)).
  { unfold replace_underscore. apply Forall_fmap.
    eapply Forall_impl; [exact Ha|]. intros x Hx. cbn.
    by destruct (x =? 95). }
  rewrite (str_lower_ascii _ Ha') in Hin.
  apply elem_of_extract_keywords in Hin as [Hin _].
  pose proof (findall_clean_text t) as Hall. rewrite Forall_forall in Hall.
  destruct (Hall _ Hin) as [_ Halnum]. rewrite Forall_forall in Halnum.
  set (c' := if c =? 95 then 32 else c).
  assert (Hc' : Char.ascii_isalnum c' = false)
    by (subst c'; by destruct (c =? 95)).
  assert (Hlow : Char.ascii_lower c' = c').
  { unfold Char.ascii_lower. unfold Char.ascii_isalnum in Hc'.
    apply orb_false_iff in Hc' as [Hc' _].
    apply orb_false_iff in Hc' as [_ Hup]. by rewrite Hup. }
  assert (Hmem : c' ∈ Char.ascii_lower <$> replace_underscore name).
  { rewrite <- Hlow. apply list_elem_of_fmap_2. unfold replace_underscore.
    by apply (list_elem_of_fmap_2 (λ c, if c =? 95 then 32 else c)). }
  specialize (Halnum c' Hmem). unfold Char.ascii_isalnum in Hc'.
  unfold Char.is_lower_alnum in Halnum.
  apply orb_false_iff in Hc' as [Hc' Hd]. apply orb_false_iff in Hc' as [Hl _].
  by rewrite Hl, Hd in Halnum.
Qed.

End SynonymFacts.

(** X10: a lemma name with an ASCII character that is no letter and no
    digit (the underscore of a phrase, a hyphen, a period) gives a synonym
    that is no keyword of any text; a word all of whose lemma names are
    such has no synonym match with any resume. *)
Theorem phrase_synonyms_never_match `{PyUnicode}
    (wordnet_synsets : pystr → list (list pystr)) (word t : pystr) :
  (∀ syn name, syn ∈ wordnet_synsets word → name ∈ syn →
     Forall (λ c, Char.is_ascii c = true) name
     ∧ ∃ c, c ∈ name ∧ Char.ascii_isalnum c = false) →
  synonyms wordnet_synsets word ∩ extract_keywords t = ∅.
Proof.
  intros Hnames. apply set_eq. intros w.
  split; [|by intros ?%not_elem_of_empty].
  intros [Hs Hk]%elem_of_intersection.
  apply elem_of_synonyms in Hs as (syn & name & Hsyn & Hname & ->).
  destruct (Hnames syn name Hsyn Hname) as (Ha & c & Hc & Hn).
  by destruct (phrase_not_keyword name t c Ha Hc Hn).
Qed.

Lemma phrase_synonyms_never_match_witness :
  synonyms phrase_wordnet (py "ml")
    ∩ extract_keywords (py "machine learning e mail ph d") = ∅.
Proof.
  apply phrase_synonyms_never_match. intros syn name Hsyn Hname.
  unfold phrase_wordnet in Hsyn.
  repeat (apply elem_of_cons in Hsyn as [->|Hsyn]);
    [| |by apply not_elem_of_nil in Hsyn].
  - repeat (apply elem_of_cons in Hname as [->|Hname]);
      [| |by apply not_elem_of_nil in Hname].
    + split; [by apply Forall_bool_decide|]. exists 95.
      split; [|reflexivity]. vm_compute. do 7 right. left.
    + split; [by apply Forall_bool_decide|]. exists 45.
      split; [|reflexivity]. vm_compute. right. left.
  - repeat (apply elem_of_cons in Hname as [->|Hname]);
      [|by apply not_elem_of_nil in Hname].
    split; [by apply Forall_bool_decide|]. exists 46.
    split; [|reflexivity]. vm_compute. do 2 right. left.
Defined.

Section CacheInvariant.
Context {U : PyUnicode}.
Variable wordnet_synsets : pystr → list (list pystr).

Lemma cache_lookup_None (k : pystr) (l : list (pystr * gset pystr)) :
  cache_lookup k l = None ↔ k ∉ (l.*1).
Proof.
  induction l as [|[k' v] l IH]; cbn; [by split; [intros _ ?%not_elem_of_nil|]|].
  rewrite not_elem_of_cons. destruct (decide (k = k')) as [->|Hne].
  - split; [done|]. by intros [? _].
  - rewrite IH. tauto.
Qed.

Lemma cache_remove_keys (k : pystr) (l : list (pystr * gset pystr)) :
  NoDup (l.*1) →
  NoDup ((cache_remove k l).*1)
  ∧ (k ∉ (cache_remove k l).*1)
  ∧ ((cache_remove k l).*1 ⊆ l.*1).
Proof.
  induction l as [|[k' v] l IH]; cbn; [by split; [|split; [apply not_elem_of_nil|]]|].
  intros [Hk' Hnd]%NoDup_cons. destruct (decide (k = k')) as [->|Hne].
  - split; [done|]. split; [done|]. intros x Hx. by right.
  - destruct (IH Hnd) as (Hnd' & Hk & Hsub). cbn. split; [|split].
    + apply NoDup_cons. split; [|done]. intros Hin. by apply Hk', Hsub.
    + by apply not_elem_of_cons.
    + intros x [->|Hx]%elem_of_cons; [by left|]. right. by apply Hsub.
Qed.

Lemma removelast_keys (l : list (pystr * gset pystr)) :
  NoDup (l.*1) → NoDup ((removelast l).*1) ∧ ((removelast l).*1) ⊆ (l.*1).
Proof.
  induction l as [|[k v] l IH]; cbn [removelast]; [done|].
  destruct l as [|e l]; [by split; [constructor|intros ? ?%not_elem_of_nil]|].
  rewrite !fmap_cons. cbn [fst].
  intros [Hk Hnd]%NoDup_cons. destruct (IH Hnd) as [Hnd' Hsub].
  split.
  - apply NoDup_cons. split; [|done]. intros Hin. by apply Hk, Hsub.
  - intros x [->|Hx]%elem_of_cons; [by left|]. right. by apply Hsub.
Qed.

(** Every call keeps the cache in order and is counted once, as a hit or
    as a miss. *)
Lemma get_synonyms_cache_ok (word : pystr) (c : lru) :
  cache_ok wordnet_synsets c →
  cache_ok wordnet_synsets (snd (get_synonyms wordnet_synsets word c))
  ∧ (hits (snd (get_synonyms wordnet_synsets word c))
     + misses (snd (get_synonyms wordnet_synsets word c))
     = S (hits c + misses c))%nat.
Proof.
  intros (Hnd & Hlen & Hco). split; [split; [|split]|].
  - unfold get_synonyms.
    destruct (cache_lookup word (entries c)) as [syns|] eqn:Hl;
      cbn [snd entries]; rewrite fmap_cons; cbn [fst].
    + destruct (cache_remove_keys word (entries c) Hnd) as (? & ? & _).
      by apply NoDup_cons.
    + apply cache_lookup_None in Hl. apply NoDup_cons.
      destruct (length (entries c) <? maxsize)%nat; [done|].
      destruct (removelast_keys (entries c) Hnd) as [? Hsub].
      split; [|done]. intros Hin. by apply Hl, Hsub.
  - by apply get_synonyms_length.
  - destruct (get_synonyms_coherent wordnet_synsets word c Hco)
      as (c' & Hr & Hco').
    by rewrite Hr.
  - unfold get_synonyms.
    destruct (cache_lookup word (entries c)); cbn [snd hits misses]; lia.
Qed.

Lemma lookup_all_cache_ok (words : list pystr) :
  ∀ c, cache_ok wordnet_synsets c →
  cache_ok wordnet_synsets (lookup_all wordnet_synsets words c)
  ∧ (hits (lookup_all wordnet_synsets words c)
     + misses (lookup_all wordnet_synsets words c)
     = hits c + misses c + length words)%nat.
Proof.
  unfold lookup_all.
  induction words as [|w words IH]; intros c Hc; cbn [foldl length]; [by split; [|lia]|].
  destruct (get_synonyms_cache_ok w c Hc) as [Hc1 Hn1].
  destruct (IH _ Hc1) as [Hc2 Hn2]. split; [done|]. lia.
Qed.

Lemma cache_ok_empty : cache_ok wordnet_synsets lru_empty.
Proof.
  split; [constructor|]. split; [cbn; unfold maxsize; lia|].
  apply cache_coherent_empty.
Qed.

End CacheInvariant.

(** X11: after any sequence of calls of [get_synonyms] on a fresh cache,
    the cache holds no word twice, at most 500 entries, and for each word
    the set that the database gives; and the hit and miss counters add up
    to the number of calls. *)
Theorem lru_cache_invariant `{PyUnicode}
    (wordnet_synsets : pystr → list (list pystr)) (words : list pystr) :
  let c := lookup_all wordnet_synsets words lru_empty in
  NoDup ((entries c).*1)
  ∧ (length (entries c) ≤ 500)%nat
  ∧ (∀ k v, cache_lookup k (entries c) = Some v →
            v = synonyms wordnet_synsets k)
  ∧ (hits c + misses c = length words)%nat.
Proof.
  destruct (lookup_all_cache_ok wordnet_synsets words lru_empty
              (cache_ok_empty wordnet_synsets)) as [(Hnd & Hlen & Hco) Hn].
  cbn zeta. split; [done|]. split; [exact Hlen|]. split; [exact Hco|].
  exact Hn.
Qed.

Lemma classify_synonym {U : PyUnicode}
    (wordnet_synsets : pystr → list (list pystr))
    (resume_kw ma mi : gset pystr) (w : pystr) (c : lru) :
  w ∉ resume_kw →
  ∃ st, classify wordnet_synsets resume_kw (ma, mi) w c
        = (Return st, snd (get_synonyms wordnet_synsets w c)).
Proof.
  intros Hw. unfold classify. rewrite decide_False by done.
  destruct (get_synonyms_returns wordnet_synsets w c) as (syns & c1 & Hs).
  rewrite ST_bind_eq, Hs. cbn [snd].
  destruct (decide (syns ∩ resume_kw ≠ ∅)); by eexists.
Qed.

Section LookupOrder.
Context {U : PyUnicode}.
Variable wordnet_synsets : pystr → list (list pystr).

(** The loop leaves the cache as the calls of [get_synonyms] on the
    words that are no keywords of the resume leave it, in loop order. *)
Lemma classify_loop_lookups (resume_kw : gset pystr) (l : list pystr) :
  ∀ (st : gset pystr * gset pystr) (c : lru),
  snd (foldM (classify wordnet_synsets resume_kw) st l c)
  = lookup_all wordnet_synsets (filter (λ w, w ∉ resume_kw) l) c.
Proof.
  unfold lookup_all.
  induction l as [|w l IH]; intros [ma mi] c; cbn [foldM]; [done|].
  destruct (decide (w ∈ resume_kw)) as [Hw|Hw].
  - rewrite (ST_bind_return _ _ _ _ _
               (classify_direct wordnet_synsets resume_kw ma mi w c Hw)).
    rewrite filter_cons_False by (by intros ?). apply IH.
  - destruct (classify_synonym wordnet_synsets resume_kw ma mi w c Hw)
      as (st & Hs).
    rewrite (ST_bind_return _ _ _ _ _ Hs).
    rewrite filter_cons_True by done. cbn [foldl]. apply IH.
Qed.

Lemma calculate_ats_cache (resume_text jd_text : pystr) (c : lru) :
  snd (calculate_ats wordnet_synsets resume_text jd_text c)
  = lookup_all wordnet_synsets
      (filter (λ w, w ∉ extract_keywords resume_text)
         (elements (extract_keywords jd_text))) c.
Proof.
  rewrite <- (classify_loop_lookups (extract_keywords resume_text)
                (elements (extract_keywords jd_text)) (∅, ∅) c).
  unfold calculate_ats. rewrite ST_bind_eq.
  destruct (foldM _ _ _ c) as [[[ma' mi']|e] c1]; [|done].
  rewrite ST_bind_eq. unfold lift.
  by destruct (ats_score ma' (extract_keywords jd_text)).
Qed.

End LookupOrder.

(** X12: [calculate_ats] calls [get_synonyms] once for each keyword of the
    job description that is not a keyword of the resume, and for no other
    word: the cache afterwards, counters included, is the one that the
    calls of [get_synonyms] on these words, each once, in the order of the
    loop, leave; the cache stays in order and the counters go up by the
    number of these words. *)
Theorem calculate_ats_lookups `{PyUnicode}
    (wordnet_synsets : pystr → list (list pystr))
    (resume_text jd_text : pystr) (c : lru) :
  cache_ok wordnet_synsets c →
  let looked_up :=
    filter (λ w, w ∉ extract_keywords resume_text)
      (elements (extract_keywords jd_text)) in
  let c' := snd (calculate_ats wordnet_synsets resume_text jd_text c) in
  c' = lookup_all wordnet_synsets looked_up c
  ∧ NoDup looked_up
  ∧ (∀ w, w ∈ looked_up
          ↔ w ∈ extract_keywords jd_text ∧ w ∉ extract_keywords resume_text)
  ∧ cache_ok wordnet_synsets c'
  ∧ (hits c' + misses c'
     = hits c + misses c
       + size (extract_keywords jd_text ∖ extract_keywords resume_text))%nat.
Proof.
  intros Hc. cbn zeta. rewrite calculate_ats_cache.
  set (looked_up := filter _ (elements (extract_keywords jd_text))).
  assert (Hnd : NoDup looked_up) by apply NoDup_filter, NoDup_elements.
  assert (Hin : ∀ w, w ∈ looked_up
                     ↔ w ∈ extract_keywords jd_text
                       ∧ w ∉ extract_keywords resume_text).
  { intros w. unfold looked_up.
    rewrite list_elem_of_filter, elem_of_elements. tauto. }
  destruct (lookup_all_cache_ok wordnet_synsets looked_up c Hc) as [Hok Hn].
  split; [done|]. split; [done|]. split; [done|]. split; [done|].
  rewrite Hn. f_equal.
  rewrite <- (size_list_to_set (C := gset pystr)) by done.
  f_equal. apply set_eq. intros w.
  rewrite elem_of_list_to_set, Hin, elem_of_difference. tauto.
Qed.

Lemma calculate_ats_lookups_witness :
  let looked_up :=
    filter (λ w, w ∉ extract_keywords (py "Python"))
      (elements (extract_keywords (py "Python SQL AWS"))) in
  let c' := snd (calculate_ats no_wordnet (py "Python") (py "Python SQL AWS")
                   lru_empty) in
  c' = lookup_all no_wordnet looked_up lru_empty
  ∧ NoDup looked_up
  ∧ (∀ w, w ∈ looked_up
          ↔ w ∈ extract_keywords (py "Python SQL AWS")
            ∧ w ∉ extract_keywords (py "Python"))
  ∧ cache_ok no_wordnet c'
  ∧ (hits c' + misses c'
     = hits lru_empty + misses lru_empty
       + size (extract_keywords (py "Python SQL AWS")
               ∖ extract_keywords (py "Python")))%nat.
Proof.
  apply (calculate_ats_lookups no_wordnet (py "Python") (py "Python SQL AWS")
           lru_empty), cache_ok_empty.
Defined.

(** ** Files *)

Lemma split_from_no_sep (sep : N) (cur s : pystr) :
  sep ∉ s → split_from sep cur s = [rev cur ++ s].
Proof.
  revert cur. induction s as [|c s IH]; intros cur Hs; cbn.
  - by rewrite app_nil_r.
  - apply not_elem_of_cons in Hs as [Hc Hs].
    destruct (N.eqb_spec c sep) as [->|_]; [done|].
    rewrite IH by done. cbn. by rewrite <- (assoc_L (++)).
Qed.

Lemma split_from_nonempty (sep : N) (cur s : pystr) :
  split_from sep cur s ≠ [].
Proof.
  revert cur. induction s as [|c s IH]; intros cur; cbn; [done|].
  destruct (c =? sep); [done | apply IH].
Qed.

Lemma split_from_last (sep : N) (a b cur : pystr) :
  sep ∉ b → List.last (split_from sep cur (a ++ sep :: b)) [] = b.
Proof.
  intros Hb. revert cur. induction a as [|c a IH]; intros cur.
  - cbn [app split_from]. rewrite N.eqb_refl, split_from_no_sep by done.
    reflexivity.
  - cbn [app split_from]. destruct (c =? sep); [|apply IH].
    pose proof (split_from_nonempty sep [] (a ++ sep :: b)) as Hne.
    specialize (IH []).
    destruct (split_from sep [] (a ++ sep :: b)); [done | exact IH].
Qed.

Lemma file_type_after_period `{PyUnicode} (f : upload) (stem ext : pystr) :
  name f = stem ++ 46 :: ext → 46 ∉ ext → file_type f = str_lower ext.
Proof.
  unfold file_type, split. intros -> Hext. by rewrite split_from_last.
Qed.

(** X13: the type of a file is the part of its name after the last
    period, lower-cased; a name without a period is its own type, so a
    file named [pdf] is read as a PDF. *)
Theorem file_type_extension `{PyUnicode} (f : upload) :
  (∀ stem ext, name f = stem ++ 46 :: ext → 46 ∉ ext →
     file_type f = str_lower ext)
  ∧ (46 ∉ name f → file_type f = str_lower (name f)).
Proof.
  split.
  - apply file_type_after_period.
  - unfold file_type, split. intros Hn. by rewrite split_from_no_sep.
Qed.

Lemma file_type_extension_witness :
  file_type (Upload (py "cv.final.PDF") [] 0) = py "pdf"
  ∧ file_type (Upload (py "pdf") [] 0) = py "pdf".
Proof.
  destruct (file_type_extension (Upload (py "cv.final.PDF") [] 0)) as [Hext _].
  destruct (file_type_extension (Upload (py "pdf") [] 0)) as [_ Hno].
  split.
  - rewrite (Hext (py "cv.final") (py "PDF") eq_refl); [reflexivity|].
    vm_compute. intros Hin. repeat (inversion Hin as [|? ? ? Hin']; subst; clear Hin; rename Hin' into Hin).
  - rewrite Hno; [reflexivity|].
    vm_compute. intros Hin. repeat (inversion Hin as [|? ? ? Hin']; subst; clear Hin; rename Hin' into Hin).
Defined.

Section PdfText.
Context {U : PyUnicode}.
Variable Layout : Type.
Variable coord : Type.
Variable fitz_open : list N → result (list (page Layout coord)).
Variable page_get_text : Layout → result pystr.
Variable docx2txt_process : list N → result pystr.
Variable docx2txt_tell : list N → nat.

Local Abbreviation text_of_stream :=
  (get_text_from_stream Layout coord fitz_open page_get_text
     docx2txt_process docx2txt_tell).

Local Abbreviation add_page_text :=
  (λ (text : pystr) (pg : page Layout coord),
     t ← lift (page_get_text (layout pg)); mret (text ++ t ++ [10])
   : ST upload pystr).

Lemma page_loop_texts (pdf : list (page Layout coord)) (texts : list pystr) :
  Forall2 (λ pg t, page_get_text (layout pg) = Return t) pdf texts →
  ∀ (text : pystr) (f : upload),
  foldM add_page_text text pdf f
  = (Return (text ++ concat ((λ t, t ++ [10]) <$> texts)), f).
Proof.
  induction 1 as [|pg t pdf texts Ht _ IH]; intros text f; cbn [foldM].
  - cbn. by rewrite app_nil_r.
  - rewrite ST_bind_eq. unfold lift at 1. rewrite ST_bind_eq, Ht.
    cbn [mret ST_ret]. rewrite IH. cbn.
    by rewrite <- !(assoc_L (++)).
Qed.

Lemma page_loop_state (pdf : list (page Layout coord)) :
  ∀ (text : pystr) (f : upload), snd (foldM add_page_text text pdf f) = f.
Proof.
  induction pdf as [|pg pdf IH]; intros text f; cbn [foldM]; [done|].
  rewrite ST_bind_eq. unfold lift at 1. rewrite ST_bind_eq.
  destruct (page_get_text (layout pg)); [|done]. cbn [mret ST_ret]. apply IH.
Qed.

(** The PDF path, statement by statement. *)
Lemma pdf_stream_eq (f : upload) :
  file_type f = py "pdf" →
  let at_end := Upload (name f) (content f) (length (content f)) in
  text_of_stream f
  = match fitz_open (content f) with
    | Return pdf =>
        match foldM add_page_text [] pdf at_end with
        | (Return text, f') => (Return text, Upload (name f') (content f') 0)
        | (Raise e, f') => (Raise e, f')
        end
    | Raise e => (Raise e, at_end)
    end.
Proof.
  intros Hpdf. cbn zeta. unfold get_text_from_stream.
  rewrite ST_bind_eq. cbn [seek]. rewrite decide_True by done.
  rewrite ST_bind_eq. rewrite ST_bind_eq. unfold read.
  cbn [position content name]. rewrite drop_0, Nat.max_0_l.
  rewrite ST_bind_eq. unfold lift at 1.
  destruct (fitz_open (content f)) as [pdf|e]; [|done].
  destruct (foldM _ _ pdf _) as [[text|e] f']; [|done].
  by rewrite ST_bind_eq.
Qed.

Lemma pdf_stream_text (f : upload) (pdf : list (page Layout coord))
    (texts : list pystr) :
  file_type f = py "pdf" →
  fitz_open (content f) = Return pdf →
  Forall2 (λ pg t, page_get_text (layout pg) = Return t) pdf texts →
  text_of_stream f
  = (Return (concat ((λ t, t ++ [10]) <$> texts)),
     Upload (name f) (content f) 0).
Proof.
  intros Hpdf Hopen Htexts. rewrite (pdf_stream_eq f Hpdf). cbn zeta.
  by rewrite Hopen, (page_loop_texts pdf texts Htexts).
Qed.

Lemma pdf_stream_failure (f : upload) (e : exn) :
  file_type f = py "pdf" →
  fst (text_of_stream f) = Raise e →
  snd (text_of_stream f)
  = Upload (name f) (content f) (length (content f)).
Proof.
  intros Hpdf. rewrite (pdf_stream_eq f Hpdf). cbn zeta.
  destruct (fitz_open (content f)) as [pdf|e']; [|done].
  pose proof (page_loop_state pdf []
                (Upload (name f) (content f) (length (content f)))) as Hst.
  destruct (foldM _ _ pdf _) as [[text|e'] f']; [done|].
  cbn [snd] in *. by subst f'.
Qed.

End PdfText.

(** X14: for a PDF that opens and whose pages all give their text, the
    text returned is the page texts in page order, each followed by a
    newline, and the stream is back at position 0. *)
Theorem get_text_from_file_pdf_text `{PyUnicode} (Layout coord : Type)
    (fitz_open : list N → result (list (page Layout coord)))
    (page_get_text : Layout → result pystr)
    (docx2txt_process : list N → result pystr) (docx2txt_tell : list N → nat)
    (f : upload) (pdf : list (page Layout coord)) (texts : list pystr) :
  file_type f = py "pdf" →
  fitz_open (content f) = Return pdf →
  Forall2 (λ pg t, page_get_text (layout pg) = Return t) pdf texts →
  get_text_from_file Layout coord fitz_open page_get_text
    docx2txt_process docx2txt_tell (Some f)
  = (Return (concat ((λ t, t ++ [10]) <$> texts)), rewound (Some f)).
Proof.
  intros Hpdf Hopen Htexts. unfold get_text_from_file.
  by rewrite (pdf_stream_text Layout coord fitz_open page_get_text
                docx2txt_process docx2txt_tell f pdf texts Hpdf Hopen Htexts).
Qed.

Lemma get_text_from_file_pdf_text_witness :
  get_text_from_file Stub.Layout Stub.coord Stub.fitz_open Stub.page_get_text
    Stub.docx2txt_process Stub.docx2txt_tell (Some resume_pdf)
  = (Return (concat ((λ t, t ++ [10]) <$> [py "Python SQL"; py "python boom"])),
     rewound (Some resume_pdf)).
Proof.
  apply (get_text_from_file_pdf_text Stub.Layout Stub.coord Stub.fitz_open
           Stub.page_get_text Stub.docx2txt_process Stub.docx2txt_tell
           resume_pdf [Page (py "Python SQL") []; Page (py "python boom") []]).
  - vm_compute. reflexivity.
  - vm_compute. reflexivity.
  - repeat constructor.
Defined.

(** X15: when the PDF path raises (the document does not open, or a page
    does not give its text), the exception leaves [get_text_from_file]
    before the last [seek]: the stream stays at its end, not at
    position 0. *)
Theorem get_text_from_file_pdf_failure `{PyUnicode} (Layout coord : Type)
    (fitz_open : list N → result (list (page Layout coord)))
    (page_get_text : Layout → result pystr)
    (docx2txt_process : list N → result pystr) (docx2txt_tell : list N → nat)
    (f : upload) (e : exn) (file' : option upload) :
  file_type f = py "pdf" →
  get_text_from_file Layout coord fitz_open page_get_text
    docx2txt_process docx2txt_tell (Some f) = (Raise e, file') →
  file' = Some (Upload (name f) (content f) (length (content f))).
Proof.
  intros Hpdf. unfold get_text_from_file.
  pose proof (pdf_stream_failure Layout coord fitz_open page_get_text
                docx2txt_process docx2txt_tell f e Hpdf) as Hfail.
  destruct (get_text_from_stream _ _ _ _ _ _ f) as [r f1].
  intros [= -> <-]. cbn [fst snd] in Hfail. by rewrite (Hfail eq_refl).
Qed.

Lemma get_text_from_file_pdf_failure_witness :
  get_text_from_file Stub.Layout Stub.coord broken_fitz_open Stub.page_get_text
    Stub.docx2txt_process Stub.docx2txt_tell (Some resume_pdf)
  = (Raise (LibraryError 2),
     Some (Upload (name resume_pdf) (content resume_pdf) 22))
  ∧ Some (Upload (name resume_pdf) (content resume_pdf) 22)
    = Some (Upload (name resume_pdf) (content resume_pdf)
              (length (content resume_pdf))).
Proof.
  assert (Hrun :
    get_text_from_file Stub.Layout Stub.coord broken_fitz_open
      Stub.page_get_text Stub.docx2txt_process Stub.docx2txt_tell
      (Some resume_pdf)
    = (Raise (LibraryError 2),
       Some (Upload (name resume_pdf) (content resume_pdf) 22)))
    by (vm_compute; reflexivity).
  split; [exact Hrun|].
  apply (get_text_from_file_pdf_failure Stub.Layout Stub.coord broken_fitz_open
           Stub.page_get_text Stub.docx2txt_process Stub.docx2txt_tell
           resume_pdf (LibraryError 2)); [|exact Hrun].
  vm_compute. reflexivity.
Defined.

(** ** The highlighter *)

Section HighlightMore.
Context {U : PyUnicode}.
Variable Layout : Type.
Variable coord : Type.
Variable fitz_open : list N → result (list (page Layout coord)).
Variable search_for : Layout → pystr → result (list (rect coord)).
Variable get_text_words :
  Layout → result (list (coord * coord * coord * coord * pystr)).
Variable annot_error : Layout → rect coord → option exn.
Variable pdf_write : list (page Layout coord) → result (list N).

Local Abbreviation highlight :=
  (highlight_pdf_keywords Layout coord fitz_open search_for get_text_words
     annot_error pdf_write).
Local Abbreviation highlighted_of :=
  (highlighted Layout coord search_for get_text_words annot_error).
Local Abbreviation add_annotation :=
  (add_highlight_annot Layout coord annot_error).

(** [highlight_pdf_keywords], statement by statement. *)
Lemma highlight_pdf_keywords_eq (keywords : list pystr) (f : upload) :
  highlight keywords f
  = (match fitz_open (content f) with
     | Return pdf => pdf_write (highlighted_of keywords pdf)
     | Raise e => Raise e
     end,
     Upload (name f) (content f) (length (content f))).
Proof.
  unfold highlight_pdf_keywords. rewrite ST_bind_eq. cbn [seek].
  rewrite ST_bind_eq. unfold read. cbn [position content name].
  rewrite drop_0, Nat.max_0_l. rewrite ST_bind_eq. unfold lift at 1.
  destruct (fitz_open (content f)) as [pdf|e]; [|done].
  rewrite for_pages_highlight. rewrite ST_bind_eq. unfold lift.
  by destruct (pdf_write _).
Qed.

Lemma word_scan_no_error (kw : pystr) (l : Layout)
    (words : list (coord * coord * coord * coord * pystr)) :
  (∀ r, annot_error l r = None) →
  ∀ a, forM_ (λ inst,
                let '(x0, y0, x1, y1, word) := inst in
                if decide (str_lower word = str_lower kw)
                then add_annotation (x0, y0, x1, y1)
                else mret ())
         words (Page l a)
       = (Return (), Page l (a ++ word_rects kw words)).
Proof.
  intros Hok. unfold word_rects.
  induction words as [|[[[[x0 y0] x1] y1] word] words IH]; intros a; cbn [forM_].
  - cbn. by rewrite app_nil_r.
  - rewrite ST_bind_eq. cbn [snd].
    destruct (decide (str_lower word = str_lower kw)) as [Heq|Hne].
    + unfold add_highlight_annot at 1. cbn [layout annots]. rewrite Hok.
      rewrite IH, filter_cons_True by done. cbn.
      by rewrite <- (assoc_L (++)).
    + cbn [mret ST_ret]. by rewrite IH, filter_cons_False by done.
Qed.

Lemma mark_keyword_no_error (kw : pystr) (l : Layout)
    (found : list (rect coord))
    (words : list (coord * coord * coord * coord * pystr))
    (a : list (rect coord)) :
  search_for l kw = Return found →
  get_text_words l = Return words →
  (∀ r, annot_error l r = None) →
  mark_keyword Layout coord search_for get_text_words annot_error kw (Page l a)
  = (Return (), Page l (a ++ found ++ word_rects kw words)).
Proof.
  intros Hs Hw Hok. unfold mark_keyword.
  rewrite ST_bind_eq. cbn [layout]. rewrite Hs.
  rewrite ST_bind_eq, (forM_add_no_error Layout coord annot_error l found)
    by (intros; apply Hok).
  rewrite ST_bind_eq. cbn [layout]. rewrite Hw.
  rewrite (word_scan_no_error kw l words Hok).
  by rewrite <- (assoc_L (++)).
Qed.

End HighlightMore.

(** X16: [highlight_pdf_keywords] leaves the stream at its end, whether
    it returns or raises; it does not rewind after reading. *)
Theorem highlight_leaves_stream_at_end `{PyUnicode} (Layout coord : Type)
    (fitz_open : list N → result (list (page Layout coord)))
    (search_for : Layout → pystr → result (list (rect coord)))
    (get_text_words :
       Layout → result (list (coord * coord * coord * coord * pystr)))
    (annot_error : Layout → rect coord → option exn)
    (pdf_write : list (page Layout coord) → result (list N))
    (keywords : list pystr) (f : upload) :
  snd (highlight_pdf_keywords Layout coord fitz_open search_for get_text_words
         annot_error pdf_write keywords f)
  = Upload (name f) (content f) (length (content f)).
Proof. by rewrite highlight_pdf_keywords_eq. Qed.

(** X17: [highlight_pdf_keywords] rewinds before it reads, so its result
    depends on the bytes of the stream only: on the stream as
    [get_text_from_file] left it, after a return or after an exception,
    it gives what it gives on the stream as uploaded. *)
Theorem highlight_after_extraction `{PyUnicode} (Layout coord : Type)
    (fitz_open : list N → result (list (page Layout coord)))
    (page_get_text : Layout → result pystr)
    (search_for : Layout → pystr → result (list (rect coord)))
    (get_text_words :
       Layout → result (list (coord * coord * coord * coord * pystr)))
    (annot_error : Layout → rect coord → option exn)
    (pdf_write : list (page Layout coord) → result (list N))
    (docx2txt_process : list N → result pystr) (docx2txt_tell : list N → nat)
    (keywords : list pystr) (f f' : upload) (r : result pystr) :
  get_text_from_file Layout coord fitz_open page_get_text
    docx2txt_process docx2txt_tell (Some f) = (r, Some f') →
  fst (highlight_pdf_keywords Layout coord fitz_open search_for get_text_words
         annot_error pdf_write keywords f')
  = fst (highlight_pdf_keywords Layout coord fitz_open search_for
           get_text_words annot_error pdf_write keywords f).
Proof.
  unfold get_text_from_file.
  destruct (get_text_from_stream_rewinds Layout coord fitz_open page_get_text
              docx2txt_process docx2txt_tell f) as (_ & Hc & _).
  destruct (get_text_from_stream _ _ _ _ _ _ f) as [r1 f1].
  intros [= _ <-]. cbn [snd] in Hc.
  by rewrite !highlight_pdf_keywords_eq, Hc.
Qed.

Lemma highlight_after_extraction_witness :
  get_text_from_file Stub.Layout Stub.coord broken_fitz_open Stub.page_get_text
    Stub.docx2txt_process Stub.docx2txt_tell (Some resume_pdf)
  = (Raise (LibraryError 2),
     Some (Upload (name resume_pdf) (content resume_pdf) 22))
  ∧ fst (highlight_pdf_keywords Stub.Layout Stub.coord broken_fitz_open
           Stub.search_for Stub.get_text_words Stub.annot_error Stub.pdf_write
           [py "python"] (Upload (name resume_pdf) (content resume_pdf) 22))
    = fst (highlight_pdf_keywords Stub.Layout Stub.coord broken_fitz_open
             Stub.search_for Stub.get_text_words Stub.annot_error
             Stub.pdf_write [py "python"] resume_pdf).
Proof.
  assert (Hrun :
    get_text_from_file Stub.Layout Stub.coord broken_fitz_open
      Stub.page_get_text Stub.docx2txt_process Stub.docx2txt_tell
      (Some resume_pdf)
    = (Raise (LibraryError 2),
       Some (Upload (name resume_pdf) (content resume_pdf) 22)))
    by (vm_compute; reflexivity).
  split; [exact Hrun|].
  exact (highlight_after_extraction _ _ _ _ _ _ _ _ _ _ _ _ _ _ Hrun).
Defined.

(** X18: when nothing fails for a keyword on a page, the keyword leaves
    there one annotation for every region that the search returned and one
    more for every word that equals it up to case, in this order; a word
    that both passes find is annotated twice. *)
Theorem mark_keyword_both_passes `{PyUnicode} (Layout coord : Type)
    (search_for : Layout → pystr → result (list (rect coord)))
    (get_text_words :
       Layout → result (list (coord * coord * coord * coord * pystr)))
    (annot_error : Layout → rect coord → option exn)
    (kw : pystr) (l : Layout) (found : list (rect coord))
    (words : list (coord * coord * coord * coord * pystr))
    (a : list (rect coord)) :
  search_for l kw = Return found →
  get_text_words l = Return words →
  (∀ r, annot_error l r = None) →
  highlight_keyword Layout coord search_for get_text_words annot_error kw
    (Page l a)
  = (Return (), Page l (a ++ found ++ word_rects kw words))
  ∧ length (found ++ word_rects kw words)
    = (length found
       + length (filter (λ inst, str_lower inst.2 = str_lower kw) words))%nat.
Proof.
  intros Hs Hw Hok. split.
  - unfold highlight_keyword, try_except.
    by rewrite (mark_keyword_no_error Layout coord search_for get_text_words
                  annot_error kw l found words a Hs Hw Hok).
  - unfold word_rects. by rewrite length_app, length_fmap.
Qed.

Lemma mark_keyword_both_passes_witness :
  highlight_keyword Stub.Layout Stub.coord Stub.search_for Stub.get_text_words
    Stub.annot_error (py "python") (Page (py "python boom") [])
  = (Return (), Page (py "python boom")
                  ([] ++ [(0, 0, 1, 1)%Z]
                   ++ word_rects (py "python")
                        [(0, 0, 1, 1, py "python"); (1, 0, 2, 1, py "boom")]%Z))
  ∧ length ([(0, 0, 1, 1)%Z]
            ++ word_rects (py "python")
                 [(0, 0, 1, 1, py "python"); (1, 0, 2, 1, py "boom")]%Z)
    = (length [(0, 0, 1, 1)%Z]
       + length (filter (λ inst, str_lower inst.2 = str_lower (py "python"))
                   [(0, 0, 1, 1, py "python"); (1, 0, 2, 1, py "boom")]%Z))%nat.
Proof.
  apply (mark_keyword_both_passes Stub.Layout Stub.coord Stub.search_for
           Stub.get_text_words Stub.annot_error (py "python") (py "python boom")).
  - vm_compute. reflexivity.
  - vm_compute. reflexivity.
  - reflexivity.
Defined.

(** X19: the loops of the highlighter keep the pages, their order and
    their layouts, and keep every annotation that was on a page, in
    place, before the ones they add. *)
Theorem highlight_keeps_pages `{PyUnicode} (Layout coord : Type)
    (search_for : Layout → pystr → result (list (rect coord)))
    (get_text_words :
       Layout → result (list (coord * coord * coord * coord * pystr)))
    (annot_error : Layout → rect coord → option exn)
    (keywords : list pystr) (pdf : list (page Layout coord)) :
  ∃ pdf',
    for_pages Layout coord
      (forM_ (highlight_keyword Layout coord search_for get_text_words
                annot_error) keywords) pdf
    = (Return (), pdf')
    ∧ Forall2 (λ p p', layout p' = layout p ∧ annots p `prefix_of` annots p')
        pdf pdf'.
Proof.
  eexists. split; [apply for_pages_highlight|].
  unfold highlighted. apply Forall2_fmap_r, Forall_Forall2_diag, Forall_forall.
  intros p _. split; [done|]. by eexists.
Qed.

(** X20: with no keyword to highlight the document is written back as it
    was opened. *)
Theorem highlight_no_keywords `{PyUnicode} (Layout coord : Type)
    (fitz_open : list N → result (list (page Layout coord)))
    (search_for : Layout → pystr → result (list (rect coord)))
    (get_text_words :
       Layout → result (list (coord * coord * coord * coord * pystr)))
    (annot_error : Layout → rect coord → option exn)
    (pdf_write : list (page Layout coord) → result (list N))
    (f : upload) (pdf : list (page Layout coord)) :
  fitz_open (content f) = Return pdf →
  fst (highlight_pdf_keywords Layout coord fitz_open search_for get_text_words
         annot_error pdf_write [] f)
  = pdf_write pdf.
Proof.
  intros Hopen. rewrite highlight_pdf_keywords_eq, Hopen. cbn [fst].
  f_equal. unfold highlighted. clear Hopen.
  induction pdf as [|[l a] pdf IH]; [done|].
  rewrite fmap_cons, IH. cbn. by rewrite app_nil_r.
Qed.

Lemma highlight_no_keywords_witness :
  fst (highlight_pdf_keywords Stub.Layout Stub.coord Stub.fitz_open
         Stub.search_for Stub.get_text_words Stub.annot_error Stub.pdf_write
         [] resume_pdf)
  = Stub.pdf_write [Page (py "Python SQL") []; Page (py "python boom") []].
Proof.
  apply highlight_no_keywords. vm_compute. reflexivity.
Defined.

(** ** The two analyses *)

Section AnalysisFacts.
Context {U : PyUnicode}.
Variable L : libraries.

(** [analyze_resume], statement by statement. *)
Lemma analyze_resume_eq (jd : pystr) (c : lru) (f : upload) :
  analyze_resume L jd (c, f)
  = match extract_text L f with
    | (Raise e, f1) => (Raise e, (c, f1))
    | (Return text, f1) =>
        match score L text jd c with
        | (Raise e, c1) => (Raise e, (c1, f1))
        | (Return (ats, weighted, matches, missing), c1) =>
            if endswith (name f1) (py ".pdf") then
              match highlight L (elements matches) f1 with
              | (Return pdf_bytes, f2) =>
                  (Return (Row (name f1) ats weighted matches, missing,
                           Some pdf_bytes), (c1, f2))
              | (Raise e, f2) => (Raise e, (c1, f2))
              end
            else (Return (Row (name f1) ats weighted matches, missing, None),
                  (c1, f1))
        end
    end.
Proof.
  unfold analyze_resume. rewrite ST_bind_eq. unfold on_file at 1.
  destruct (extract_text L f) as [[text|e] f1]; [|done].
  rewrite ST_bind_eq. unfold on_cache at 1.
  destruct (score L text jd c) as [[[[[ats weighted] matches] missing]|e] c1];
    [|done].
  rewrite ST_bind_eq. cbn [snd].
  destruct (endswith (name f1) (py ".pdf")); [|done].
  rewrite ST_bind_eq. unfold on_file.
  by destruct (highlight L (elements matches) f1) as [[b|e] f2].
Qed.

Lemma extract_text_name (f : upload) :
  name (snd (extract_text L f)) = name f.
Proof.
  unfold extract_text.
  by destruct (get_text_from_stream_rewinds (lib_layout L) (lib_coord L)
                 (lib_fitz_open L) (lib_page_get_text L)
                 (lib_docx2txt_process L) (lib_docx2txt_tell L) f) as (? & _).
Qed.

(** With a coherent cache the analysis of a file gives what it gives
    with an empty cache, and leaves the cache coherent. *)
Lemma analyze_resume_cache (jd : pystr) (c : lru) (f : upload) :
  cache_coherent (lib_wordnet_synsets L) c →
  fst (analyze_resume L jd (c, f)) = fst (analyze_resume L jd (lru_empty, f))
  ∧ cache_coherent (lib_wordnet_synsets L) (fst (snd (analyze_resume L jd (c, f)))).
Proof.
  intros Hc. rewrite !analyze_resume_eq.
  destruct (extract_text L f) as [[text|e] f1]; [|done].
  unfold score.
  destruct (calculate_ats_score (lib_wordnet_synsets L) text jd c Hc)
    as [Hs Hc'].
  destruct (calculate_ats_score (lib_wordnet_synsets L) text jd lru_empty
              (cache_coherent_empty _)) as [Hs0 _].
  rewrite <- Hs0 in Hs. clear Hs0.
  destruct (calculate_ats _ text jd c)
    as [[[[[ats weighted] matches] missing]|e] c1];
  destruct (calculate_ats _ text jd lru_empty)
    as [[[[[ats0 weighted0] matches0] missing0]|e0] c0];
    cbn [fst snd] in *; try discriminate Hs.
  - injection Hs as <- <- <- <-.
    destruct (endswith (name f1) (py ".pdf")); [|done].
    by destruct (highlight L _ f1) as [[b|e] f2].
  - by injection Hs as <-.
Qed.

End AnalysisFacts.

Section BatchFacts.
Context {U : PyUnicode}.
Variable L : libraries.
Variable jd : pystr.

(** The analysis of one file on its own, with an empty cache. *)
Definition alone (f : upload) : result (row * gset pystr * option (list N)) :=
  fst (analyze_resume L jd (lru_empty, f)).

Lemma alone_link (f : upload) (r : row) (missing : gset pystr)
    (link : option (list N)) :
  alone f = Return (r, missing, link) →
  row_resume r = name f
  ∧ (is_Some link ↔ endswith (name f) (py ".pdf") = true).
Proof.
  unfold alone. rewrite analyze_resume_eq.
  pose proof (extract_text_name L f) as Hn.
  destruct (extract_text L f) as [[text|e] f1]; [|done]. cbn [snd] in Hn.
  destruct (score L text jd lru_empty)
    as [[[[[ats weighted] matches] missing']|e] c1]; [|done].
  rewrite Hn. destruct (endswith (name f) (py ".pdf")).
  - destruct (highlight L (elements matches) f1) as [[b|e] f2]; [|done].
    intros [= <- _ <-]. split; [done|]. split; [done|by eexists].
  - intros [= <- _ <-]. split; [done|]. split; [by intros [? ?]|done].
Qed.

Lemma analyze_next_coherent (acc : list row * gmap pystr (list N))
    (f : upload) (c : lru) :
  cache_coherent (lib_wordnet_synsets L) c →
  fst (analyze_next L jd acc f c)
  = match alone f with
    | Return (r, _, Some pdf_bytes) =>
        Return (acc.1 ++ [r], <[name f := pdf_bytes]> acc.2)
    | Return (r, _, None) => Return (acc.1 ++ [r], acc.2)
    | Raise e => Raise e
    end
  ∧ cache_coherent (lib_wordnet_synsets L) (snd (analyze_next L jd acc f c)).
Proof.
  intros Hc. destruct (analyze_resume_cache L jd c f Hc) as [Hr Hc'].
  unfold alone. rewrite <- Hr. unfold analyze_next. destruct acc as [results links].
  destruct (analyze_resume L jd (c, f)) as [[[[r m] [b|]]|e] [c1 f1]];
    by cbn [fst snd] in *.
Qed.

Lemma analyze_loop_returns (files : list upload) :
  ∀ (acc : list row * gmap pystr (list N)) (c : lru)
    (rows : list row) (links : gmap pystr (list N)),
  cache_coherent (lib_wordnet_synsets L) c →
  fst (foldM (analyze_next L jd) acc files c) = Return (rows, links) →
  ∃ new, rows = acc.1 ++ new
    ∧ Forall2 (λ f r, ∃ missing link, alone f = Return (r, missing, link))
        files new
    ∧ dom links
      = dom acc.2
        ∪ list_to_set
            (name <$> filter (λ f, endswith (name f) (py ".pdf") = true) files).
Proof.
  induction files as [|f files IH]; intros acc c rows links Hc; cbn [foldM].
  - intros [= ->]. exists []. cbn [fst snd]. rewrite app_nil_r. split; [done|].
    split; [constructor|]. rewrite filter_nil, fmap_nil. cbn [list_to_set foldr].
    by rewrite (right_id_L ∅ (∪)).
  - rewrite ST_bind_eq.
    destruct (analyze_next_coherent acc f c Hc) as [Hstep Hc1].
    destruct (analyze_next L jd acc f c) as [[acc1|e] c1]; cbn [fst snd] in *;
      [|done].
    intros Hrest. destruct (IH acc1 c1 rows links Hc1 Hrest)
      as (new & -> & Hall & Hdom).
    destruct (alone f) as [[[r m] link]|e] eqn:Ha; [|discriminate Hstep].
    destruct (alone_link f r m link Ha) as [_ Hlink].
    exists (r :: new).
    destruct link as [b|]; injection Hstep as ->; cbn [fst snd] in *.
    + split; [by rewrite <- (assoc_L (++))|]. split; [constructor; eauto|].
      rewrite Hdom, dom_insert_L.
      rewrite filter_cons_True by (apply Hlink; by eexists).
      rewrite fmap_cons, list_to_set_cons. clear. set_solver.
    + split; [by rewrite <- (assoc_L (++))|]. split; [constructor; eauto|].
      rewrite Hdom.
      rewrite filter_cons_False; [done|].
      intros Hpdf. apply Hlink in Hpdf. by destruct Hpdf.
Qed.

Lemma analyze_loop_raises (fs1 fs2 : list upload) (f : upload) (e : exn) :
  ∀ (acc : list row * gmap pystr (list N)) (c : lru),
  cache_coherent (lib_wordnet_synsets L) c →
  Forall (λ f1, ∃ x, alone f1 = Return x) fs1 →
  alone f = Raise e →
  fst (foldM (analyze_next L jd) acc (fs1 ++ f :: fs2) c) = Raise e.
Proof.
  intros acc c Hc Hok Hf. revert acc c Hc.
  induction Hok as [|f1 fs1 [[[r m] link] Hf1] _ IH]; intros acc c Hc;
    cbn [app foldM]; rewrite ST_bind_eq.
  - destruct (analyze_next_coherent acc f c Hc) as [Hstep _].
    rewrite Hf in Hstep.
    by destruct (analyze_next L jd acc f c) as [[acc1|e1] c1];
      cbn [fst] in Hstep; [done|injection Hstep as ->].
  - destruct (analyze_next_coherent acc f1 c Hc) as [Hstep Hc1].
    rewrite Hf1 in Hstep.
    destruct (analyze_next L jd acc f1 c) as [[acc1|e1] c1];
      cbn [fst snd] in *; [by apply IH | by destruct link].
Qed.

End BatchFacts.

(** X21: when the ranking loop returns, it has made one row for each
    uploaded file, in upload order, and each row is the one that the file
    gets when it is analysed on its own with an empty synonym cache: the
    resumes processed before do not change it.  The highlighted documents
    are stored under the names that end in [.pdf]. *)
Theorem ranking_rows_independent `{PyUnicode} (L : libraries)
    (files : list upload) (jd : pystr) (c : lru)
    (rows : list row) (links : gmap pystr (list N)) :
  cache_coherent (lib_wordnet_synsets L) c →
  fst (analyze_all L files jd c) = Return (Some (rows, links)) →
  Forall2 (λ f r, ∃ missing link,
             fst (analyze_resume L jd (lru_empty, f))
             = Return (r, missing, link))
    files rows
  ∧ dom links
    = list_to_set
        (name <$> filter (λ f, endswith (name f) (py ".pdf") = true) files).
Proof.
  intros Hc. unfold analyze_all.
  destruct (bool_decide (files ≠ []) && negb (is_blank jd)); [|done].
  rewrite ST_bind_eq.
  pose proof (analyze_loop_returns L jd files ([], ∅) c) as Hloop.
  destruct (foldM (analyze_next L jd) ([], ∅) files c) as [[[rows' links']|e] c1];
    [|done].
  intros [= -> ->].
  destruct (Hloop rows links Hc eq_refl) as (new & -> & Hall & Hdom).
  split; [exact Hall|]. rewrite Hdom. cbn [snd].
  rewrite dom_empty_L. by rewrite (left_id_L ∅ (∪)).
Qed.

(** X22: the ranking loop has no handler: when a file raises, on its own,
    and the files before it do not, the whole ranking raises that
    exception and no row is returned. *)
Theorem ranking_aborts_on_failure `{PyUnicode} (L : libraries)
    (fs1 fs2 : list upload) (f : upload) (jd : pystr) (c : lru) (e : exn) :
  cache_coherent (lib_wordnet_synsets L) c →
  is_blank jd = false →
  Forall (λ f1, ∃ x, fst (analyze_resume L jd (lru_empty, f1)) = Return x) fs1 →
  fst (analyze_resume L jd (lru_empty, f)) = Raise e →
  fst (analyze_all L (fs1 ++ f :: fs2) jd c) = Raise e.
Proof.
  intros Hc Hjd Hok Hf. unfold analyze_all. rewrite Hjd.
  rewrite bool_decide_true by (by destruct fs1).
  cbn [andb negb]. rewrite ST_bind_eq.
  pose proof (analyze_loop_raises L jd fs1 fs2 f e ([], ∅) c Hc Hok Hf) as Hr.
  by destruct (foldM _ _ _ c) as [[acc|e'] c1]; cbn [fst] in Hr;
    [done|injection Hr as ->].
Qed.

Lemma ranking_rows_independent_witness :
  fst (analyze_all stub_libraries [sql_pdf; notes_txt] (py "Python SQL AWS")
         lru_empty)
  = Return (Some ([Row (py "b.pdf") 66 70 (list_to_set [py "sql"; py "aws"]);
                   Row (py "notes.txt") 0 0 ∅],
                  {[ py "b.pdf" := [4] ]}))
  ∧ Forall2 (λ f r, ∃ missing link,
               fst (analyze_resume stub_libraries (py "Python SQL AWS")
                      (lru_empty, f))
               = Return (r, missing, link))
      [sql_pdf; notes_txt]
      [Row (py "b.pdf") 66 70 (list_to_set [py "sql"; py "aws"]);
       Row (py "notes.txt") 0 0 ∅]
  ∧ dom ({[ py "b.pdf" := [4] ]} : gmap pystr (list N))
    = list_to_set
        (name <$> filter (λ f, endswith (name f) (py ".pdf") = true)
                    [sql_pdf; notes_txt]).
Proof.
  assert (Hrun :
    fst (analyze_all stub_libraries [sql_pdf; notes_txt] (py "Python SQL AWS")
           lru_empty)
    = Return (Some ([Row (py "b.pdf") 66 70 (list_to_set [py "sql"; py "aws"]);
                     Row (py "notes.txt") 0 0 ∅],
                    {[ py "b.pdf" := [4] ]})))
    by (vm_compute; reflexivity).
  split; [exact Hrun|].
  exact (ranking_rows_independent stub_libraries _ _ lru_empty _ _
           (cache_coherent_empty _) Hrun).
Defined.

Lemma ranking_aborts_on_failure_witness :
  fst (analyze_all broken_libraries ([notes_txt] ++ resume_pdf :: [sql_pdf])
         (py "Python SQL AWS") lru_empty)
  = Raise (LibraryError 2).
Proof.
  apply ranking_aborts_on_failure.
  - apply cache_coherent_empty.
  - reflexivity.
  - constructor; [|constructor]. eexists. vm_compute. reflexivity.
  - vm_compute. reflexivity.
Defined.

Lemma endswith_app (s suffix : pystr) :
  endswith s suffix = true ↔ ∃ stem, s = stem ++ suffix.
Proof.
  unfold endswith. rewrite bool_decide_eq_true. split.
  - intros Hd. exists (take (length s - length suffix) s).
    pose proof (take_drop (length s - length suffix) s) as Htd.
    by rewrite Hd in Htd.
  - intros [stem ->]. rewrite length_app.
    replace (length stem + length suffix - length suffix)%nat
      with (length stem) by lia.
    by rewrite drop_app_length.
Qed.

(** X23: the handlers test the name with [endswith(".pdf")] and
    [get_text_from_file] tests the lower-cased extension.  Every file
    that is highlighted was read as a PDF; a file whose name ends in
    [.PDF] is read as a PDF and is not highlighted. *)
Theorem highlighted_only_if_pdf `{PyUnicode} (L : libraries) (jd : pystr)
    (c : lru) (f : upload) (r : row) (missing : gset pystr)
    (link : option (list N)) :
  fst (analyze_resume L jd (c, f)) = Return (r, missing, link) →
  (is_Some link → file_type f = py "pdf")
  ∧ (∀ stem, name f = stem ++ py ".PDF" →
       file_type f = py "pdf" ∧ link = None).
Proof.
  rewrite analyze_resume_eq. pose proof (extract_text_name L f) as Hn.
  destruct (extract_text L f) as [[text|e] f1]; [|done]. cbn [snd] in Hn.
  destruct (score L text jd c) as [[[[[ats weighted] matches] missing']|e] c1];
    [|done].
  rewrite Hn. destruct (endswith (name f) (py ".pdf")) eqn:Hends.
  - destruct (highlight L (elements matches) f1) as [[b|e] f2]; [|done].
    intros [= <- _ <-]. apply endswith_app in Hends as [stem Hstem]. split.
    + intros _.
      rewrite (file_type_after_period f stem (py "pdf") Hstem)
        by (apply (bool_decide_unpack _); by vm_compute).
      apply str_lower_clean. by apply Forall_bool_decide.
    + intros stem' Hstem'. exfalso. rewrite Hstem in Hstem'.
      apply (f_equal (λ s, reverse s)) in Hstem'.
      rewrite !reverse_app in Hstem'. discriminate Hstem'.
  - intros [= <- _ <-]. split; [by intros [? ?]|].
    intros stem Hstem. split; [|done].
    rewrite (file_type_after_period f stem (py "PDF") Hstem)
      by (apply (bool_decide_unpack _); by vm_compute).
    by rewrite str_lower_ascii by (by apply Forall_bool_decide).
Qed.

Lemma highlighted_only_if_pdf_witness :
  fst (analyze_resume stub_libraries (py "Python SQL boom")
         (lru_empty, resume_pdf))
  = Return (Row (py "resume.PDF") 100 100
              (list_to_set [py "python"; py "sql"; py "boom"]), ∅, None)
  ∧ file_type resume_pdf = py "pdf".
Proof.
  assert (Hrun :
    fst (analyze_resume stub_libraries (py "Python SQL boom")
           (lru_empty, resume_pdf))
    = Return (Row (py "resume.PDF") 100 100
                (list_to_set [py "python"; py "sql"; py "boom"]), ∅, None))
    by (vm_compute; reflexivity).
  split; [exact Hrun|].
  exact (proj1 (proj2 (highlighted_only_if_pdf _ _ _ _ _ _ _ Hrun)
                  (py "resume") eq_refl)).
Defined.

(** ** How far the ATS score is from the exact percentage *)

Section FloatBetween.
Local Open Scope Z_scope.

Lemma shr_fexp_ge m e l K j mrs e' :
  0 <= m -> 0 <= K -> e <= j -> K * 2 ^ (j - e) <= m ->
  shr_fexp Float.prec Float.emax m e l = (mrs, e') ->
  e' <= j -> K * 2 ^ (j - e') <= shr_m mrs.
Proof.
  intros Hm HK He Hle. unfold shr_fexp, shr.
  destruct (fexp Float.prec Float.emax (Zdigits2 m + e) - e) as [|p|p] eqn:Hk;
    intros [= <- <-] He'; rewrite ?shr_record_of_loc_m; try assumption.
  assert (Hm0 : 0 <= shr_m (shr_record_of_loc m l))
    by (rewrite shr_record_of_loc_m; exact Hm).
  destruct (iter_shr_1 p _ Hm0) as [Ha _].
  rewrite shr_record_of_loc_m in Ha. rewrite Ha.
  assert (Hp2 : 0 < 2 ^ Z.pos p) by (apply Z.pow_pos_nonneg; lia).
  assert (Hsplit : 2 ^ (j - e) = 2 ^ (j - (e + Z.pos p)) * 2 ^ Z.pos p).
  { rewrite <- Z.pow_add_r by lia. f_equal. lia. }
  apply Z.div_le_lower_bound; [lia|]. rewrite Hsplit in Hle. lia.
Qed.

(** Rounding keeps a value between two bounds of the grid [2 ^ j]. *)
Lemma binary_round_aux_between mx ex lx Klo Khi j :
  0 < Klo -> Khi < 2 ^ 53 ->
  emin Float.prec Float.emax <= j <= Float.emax - Float.prec -> ex <= j ->
  Klo * 2 ^ (j - ex) <= mx <= Khi * 2 ^ (j - ex) ->
  (lx <> loc_Exact -> mx < Khi * 2 ^ (j - ex)) ->
  exists m e,
    binary_round_aux Float.prec Float.emax false mx ex lx = S754_finite false m e
    /\ e <= j /\ Klo * 2 ^ (j - e) <= Zpos m <= Khi * 2 ^ (j - e).
Proof.
  intros HKlo HKhi Hj He [Hlo Hhi] Hstrict.
  assert (Hpow : 0 < 2 ^ (j - ex)) by (apply Z.pow_pos_nonneg; lia).
  assert (Hm : 0 <= mx) by nia.
  assert (HK : 0 < Khi < 2 ^ 53) by nia.
  unfold binary_round_aux.
  destruct (shr_fexp Float.prec Float.emax mx ex lx) as [mrs1 e1] eqn:H1.
  destruct (shr_fexp_le _ _ _ Khi j _ _ Hm HK (proj1 Hj) He Hhi H1)
    as (He1 & Hm1 & Hr1).
  pose proof (shr_fexp_ge _ _ _ Klo j _ _ Hm ltac:(lia) He Hlo H1 He1) as Hl1.
  destruct (round_nearest_even_bounds mrs1) as [Hb Hb'].
  set (m2 := round_nearest_even (shr_m mrs1) (loc_of_shr_record mrs1)) in *.
  assert (Hm2 : 0 <= m2 <= Khi * 2 ^ (j - e1)).
  { split; [lia|].
    destruct (Z.eq_dec (shr_m mrs1) (Khi * 2 ^ (j - e1))) as [Heq|Hne]; [|lia].
    rewrite (Hb' (Hr1 Heq Hstrict)). lia. }
  destruct (shr_fexp Float.prec Float.emax m2 e1 loc_Exact) as [mrs3 e3] eqn:H3.
  destruct (shr_fexp_le _ _ _ Khi j _ _ (proj1 Hm2) HK (proj1 Hj) He1 (proj2 Hm2) H3)
    as (He3 & Hm3 & _).
  pose proof (shr_fexp_ge _ _ _ Klo j _ _ (proj1 Hm2) ltac:(lia) He1
                ltac:(lia) H3 He3) as Hl3.
  assert (Hpow3 : 0 < 2 ^ (j - e3)) by (apply Z.pow_pos_nonneg; lia).
  destruct (shr_m mrs3) as [|m|m] eqn:Em3; [nia| |lia].
  replace (e3 <=? Float.emax - Float.prec) with true
    by (symmetry; apply Z.leb_le; lia).
  exists m, e3. repeat split; [exact He3 | lia | lia].
Qed.

Lemma Zdigits2_mono (p q : positive) :
  (p <= q)%positive -> Zdigits2 (Zpos p) <= Zdigits2 (Zpos q).
Proof.
  intros Hpq. apply Zdigits2_bound; [lia|cbn; lia|].
  cbn [Zdigits2]. rewrite digits2_pos_size.
  pose proof (Pos.size_gt q) as Hgt.
  assert (Zpos q < 2 ^ Zpos (Pos.size q)).
  { rewrite <- Pos2Z.inj_pow. apply Pos2Z.pos_lt_pos. exact Hgt. }
  lia.
Qed.

(** The quotient of positive integers between two multiples of
    [2 ^ -45]. *)
Lemma SFdiv_between (pm pn : positive) (Klo Khi : Z) :
  (pm <= pn)%positive -> 0 < Klo -> Khi < 2 ^ 53 ->
  Klo * Zpos pn <= Zpos pm * 2 ^ 45 <= Khi * Zpos pn ->
  exists m e,
    SFdiv Float.prec Float.emax (S754_finite false pm 0) (S754_finite false pn 0)
      = S754_finite false m e
    /\ e <= -45 /\ Klo * 2 ^ (-45 - e) <= Zpos m <= Khi * 2 ^ (-45 - e).
Proof.
  intros Hle HKlo HKhi [Hlo Hhi]. unfold SFdiv, SFdiv_core_binary.
  pose proof (Zdigits2_mono pm pn Hle) as Hd.
  set (e' := Z.min _ _).
  assert (He' : e' <= -53).
  { subst e'. unfold fexp, emin, Float.prec, Float.emax. lia. }
  replace (0 - 0 - e') with (- e') by lia.
  set (m' := match - e' with Z.pos _ => _ | Z0 => _ | Z.neg _ => _ end).
  assert (Hm' : m' = Zpos pm * 2 ^ (- e')).
  { subst m'. destruct (- e') as [|s|s] eqn:Es; [lia| |lia].
    apply Z.shiftl_mul_pow2. lia. }
  pose proof (Z_div_mod m' (Zpos pn) eq_refl) as Hdm.
  destruct (Z.div_eucl m' (Zpos pn)) as [q r]. destruct Hdm as [Hq Hr].
  cbn [xorb].
  assert (Hsplit : 2 ^ (- e') = 2 ^ (-45 - e') * 2 ^ 45).
  { rewrite <- Z.pow_add_r by lia. f_equal. lia. }
  assert (Hpow : 0 < 2 ^ (-45 - e')) by (apply Z.pow_pos_nonneg; lia).
  apply (binary_round_aux_between q e' (new_location (Z.pos pn) r) Klo Khi (-45));
    [assumption | assumption | unfold emin, Float.prec, Float.emax; lia | lia | |].
  - rewrite Hm', Hsplit in Hq. split; nia.
  - intros Hl. apply new_location_exact in Hl.
    rewrite Hm', Hsplit in Hq. nia.
Qed.

(** The product with 100 and its truncation, for a float between two
    multiples of [2 ^ -45]. *)
Lemma percent_between (m : positive) (e Klo Khi lo hi : Z) :
  e <= -45 -> 0 < Klo -> 0 <= lo -> hi <= 100 ->
  Klo * 2 ^ (-45 - e) <= Zpos m <= Khi * 2 ^ (-45 - e) ->
  lo * 2 ^ 43 <= 25 * Klo ->
  25 * Khi <= (hi + 1) * 2 ^ 43 - 8 ->
  exists a,
    Float.to_int (Float.mul (S754_finite false m e) (Float.of_int 100)) = Return a
    /\ lo <= a <= hi.
Proof.
  intros He HKlo Hlo0 Hhi100 [Hlo Hhi] HKlo2 HKhi2.
  rewrite of_int_100. unfold Float.mul, SFmul. cbn [xorb].
  assert (Hpow : 0 < 2 ^ (-45 - e)) by (apply Z.pow_pos_nonneg; lia).
  set (Klo2 := Z.max 1 (lo * 2 ^ 40)).
  set (Khi2 := (hi + 1) * 2 ^ 40 - 1).
  assert (Hsplit : 2 ^ (-40 - (e + -46)) = 2 ^ 51 * 2 ^ (-45 - e)).
  { rewrite <- Z.pow_add_r by lia. f_equal. lia. }
  assert (Hp : Z.pos (m * (25 * 2 ^ 48)) = Z.pos m * (25 * 2 ^ 48))
    by (rewrite Pos2Z.inj_mul; reflexivity).
  destruct (binary_round_aux_between (Zpos (m * (25 * 2 ^ 48))) (e + -46)
              loc_Exact Klo2 Khi2 (-40))
    as (my & ey & Hy & Hey & Hmy).
  - subst Klo2. lia.
  - subst Khi2. lia.
  - unfold emin, Float.prec, Float.emax. lia.
  - lia.
  - rewrite Hsplit, Hp. subst Klo2 Khi2. split; [|nia].
    destruct (Z.max_spec 1 (lo * 2 ^ 40)) as [[_ ->]|[_ ->]]; nia.
  - intros Hc. exfalso. by apply Hc.
  - rewrite Hy. cbn [Float.to_int cond_Zopp]. eexists. split; [reflexivity|].
    rewrite Z.shiftl_div_pow2 by lia.
    assert (Hpe : 0 < 2 ^ (- ey)) by (apply Z.pow_pos_nonneg; lia).
    assert (Hsp : 2 ^ (- ey) = 2 ^ 40 * 2 ^ (-40 - ey)).
    { rewrite <- Z.pow_add_r by lia. f_equal. lia. }
    assert (Hpe' : 0 < 2 ^ (-40 - ey)) by (apply Z.pow_pos_nonneg; lia).
    split.
    + apply Z.div_le_lower_bound; [lia|]. rewrite Hsp.
      subst Klo2. destruct Hmy as [Hmy _].
      destruct (Z.max_spec 1 (lo * 2 ^ 40)) as [[_ Hmax]|[_ Hmax]];
        rewrite Hmax in Hmy; nia.
    + apply Z.lt_succ_r. apply Z.div_lt_upper_bound; [lia|]. rewrite Hsp.
      subst Khi2. destruct Hmy as [_ Hmy]. nia.
Qed.

End FloatBetween.

Section FloatWithinOne.
Local Open Scope Z_scope.

Lemma percent_within_one (pm pn : positive) :
  (pm <= pn)%positive -> Zpos pn < 2 ^ 30 ->
  exists q a,
    Float.int_truediv (Zpos pm) (Zpos pn) = Return q
    /\ Float.to_int (Float.mul q (Float.of_int 100)) = Return a
    /\ 100 * Zpos pm / Zpos pn - 1 <= a <= 100 * Zpos pm / Zpos pn
    /\ ((100 * Zpos pm) mod Zpos pn <> 0 -> a = 100 * Zpos pm / Zpos pn).
Proof.
  intros Hle Hn.
  set (m := Zpos pm) in *. set (n := Zpos pn) in *.
  assert (Hm : 0 < m <= n) by (subst m n; lia).
  set (k := 100 * m / n).
  pose proof (Z.div_mod (100 * m) n ltac:(lia)) as Hdk.
  pose proof (Z.mod_pos_bound (100 * m) n ltac:(lia)) as Hrk.
  fold k in Hdk.
  assert (Hk1 : k * n <= 100 * m) by lia.
  assert (Hk2 : 100 * m < (k + 1) * n) by lia.
  assert (Hk0 : 0 <= k) by (subst k; apply Z.div_pos; lia).
  assert (Hk100 : k <= 100) by nia.
  set (Klo := m * 2 ^ 45 / n).
  pose proof (Z.div_mod (m * 2 ^ 45) n ltac:(lia)) as HdK.
  pose proof (Z.mod_pos_bound (m * 2 ^ 45) n ltac:(lia)) as HrK.
  fold Klo in HdK.
  assert (HK1 : Klo * n <= m * 2 ^ 45) by lia.
  assert (HK2 : m * 2 ^ 45 < (Klo + 1) * n) by lia.
  assert (HKpos : 0 < Klo) by nia.
  assert (HKle : Klo <= 2 ^ 45) by nia.
  destruct (SFdiv_between pm pn Klo (Klo + 1) Hle HKpos ltac:(lia))
    as (mx & ex & Hq & Hex & Hmx); [fold m n; lia|].
  destruct (percent_between mx ex Klo (Klo + 1) (Z.max 0 (k - 1)) k)
    as (a & Ha & Hab); try assumption; try lia.
  - destruct (Z.max_spec 0 (k - 1)) as [[_ ->]|[_ ->]]; nia.
  - nia.
  - exists (S754_finite false mx ex), a. split; [|split; [exact Ha|split; [lia|]]].
    + unfold Float.int_truediv. fold n.
      destruct (Z.eqb_spec n 0) as [|_]; [lia|].
      subst m n. cbn [Float.exact]. by rewrite Hq.
    + intros Hmod.
      destruct (percent_between mx ex Klo (Klo + 1) k k)
        as (a' & Ha' & Hab'); try assumption; try lia; [nia|nia|].
      rewrite Ha in Ha'. injection Ha' as <-. lia.
Qed.

End FloatWithinOne.

Lemma ats_score_within_one {U : PyUnicode} (matches jd_kw : gset pystr) :
  matches ⊆ jd_kw → (Z.of_nat (size jd_kw) < 2 ^ 30)%Z →
  ∃ ats, ats_score matches jd_kw = Return ats
    ∧ (100 * Z.of_nat (size matches) / Z.of_nat (size jd_kw) - 1 ≤ ats
       ≤ 100 * Z.of_nat (size matches) / Z.of_nat (size jd_kw))%Z
    ∧ ((100 * Z.of_nat (size matches)) `mod` Z.of_nat (size jd_kw) ≠ 0 →
       ats = 100 * Z.of_nat (size matches) / Z.of_nat (size jd_kw))%Z.
Proof.
  intros Hsub Hn.
  destruct (decide (matches = ∅)) as [->|Hm].
  { rewrite ats_score_none, size_empty. exists 0%Z. split; [done|].
    change (100 * Z.of_nat 0)%Z with 0%Z. rewrite Zdiv_0_l. split; [lia|done]. }
  assert (Hjd : jd_kw ≠ ∅) by set_solver.
  pose proof (subseteq_size _ _ Hsub) as Hle.
  assert (Hmpos : size matches ≠ 0%nat) by (by intros ?%size_empty_inv%leibniz_equiv).
  unfold ats_score. rewrite decide_False by done.
  destruct (Z.of_nat (size matches)) as [|pm|pm] eqn:Em; [lia| |lia].
  destruct (Z.of_nat (size jd_kw)) as [|pn|pn] eqn:En; [lia| |lia].
  destruct (percent_within_one pm pn ltac:(lia) Hn)
    as (q & a & -> & Ha & Hb & Hc).
  by exists a.
Qed.

(** X24: for a job description with fewer than [2 ^ 30] keywords the ATS
    score is the exact truncated percentage
    [floor(100 * |matched| / |jd_kw|)] or one less than it, and it is the
    exact one whenever [100 * |matched| / |jd_kw|] is not a whole number:
    the binary64 rounding never adds a point and can cost one only at a
    whole percentage. *)
Theorem ats_within_one_of_percentage `{PyUnicode}
    (wordnet_synsets : pystr → list (list pystr))
    (resume_text jd_text : pystr) (c : lru) :
  (Z.of_nat (size (extract_keywords jd_text)) < 2 ^ 30)%Z →
  ∃ ats weighted matched missing,
    fst (calculate_ats wordnet_synsets resume_text jd_text c)
      = Return (ats, weighted, matched, missing)
    ∧ (100 * Z.of_nat (size matched) / Z.of_nat (size (extract_keywords jd_text))
         - 1 ≤ ats
       ≤ 100 * Z.of_nat (size matched)
           / Z.of_nat (size (extract_keywords jd_text)))%Z
    ∧ ((100 * Z.of_nat (size matched))
         `mod` Z.of_nat (size (extract_keywords jd_text)) ≠ 0 →
       ats = 100 * Z.of_nat (size matched)
               / Z.of_nat (size (extract_keywords jd_text)))%Z.
Proof.
  intros Hn.
  destruct (calculate_ats_returns wordnet_synsets resume_text jd_text c)
    as (ats & ma & mi & c' & Hr & Hats & _ & Hu & _).
  eexists ats, _, ma, mi. rewrite Hr. split; [reflexivity|].
  destruct (ats_score_within_one ma (extract_keywords jd_text))
    as (a & Ha & Hb & Hc); [clear - Hu; set_solver | exact Hn |].
  rewrite Hats in Ha. by injection Ha as <-.
Qed.

Lemma ats_within_one_of_percentage_witness :
  ∃ ats weighted matched missing,
    fst (calculate_ats no_wordnet resume_twenty_nine jd_fifty lru_empty)
      = Return (ats, weighted, matched, missing)
    ∧ (100 * Z.of_nat (size matched) / Z.of_nat (size (extract_keywords jd_fifty))
         - 1 ≤ ats
       ≤ 100 * Z.of_nat (size matched)
           / Z.of_nat (size (extract_keywords jd_fifty)))%Z
    ∧ ((100 * Z.of_nat (size matched))
         `mod` Z.of_nat (size (extract_keywords jd_fifty)) ≠ 0 →
       ats = 100 * Z.of_nat (size matched)
               / Z.of_nat (size (extract_keywords jd_fifty)))%Z.
Proof.
  apply ats_within_one_of_percentage.
  rewrite extract_keywords_jd_fifty, (proj2 kw_sizes). reflexivity.
Defined.

(** ** Scores of a resume with more keywords *)

Section ScoreOrder.
Context {U : PyUnicode}.
Local Open Scope Z_scope.

(** The ATS score of more matches is no lower, for fewer than [2 ^ 30]
    keywords. *)
Lemma ats_score_mono (m1 m2 jd_kw : gset pystr) (a1 a2 : Z) :
  m1 ⊆ m2 → m2 ⊆ jd_kw → (Z.of_nat (size jd_kw) < 2 ^ 30)%Z →
  ats_score m1 jd_kw = Return a1 → ats_score m2 jd_kw = Return a2 →
  (a1 ≤ a2)%Z.
Proof.
  intros H12 H2 Hn Ha1 Ha2.
  pose proof (subseteq_size _ _ H12) as Hle.
  pose proof (subseteq_size _ _ H2) as Hle2.
  destruct (decide (size m1 = size m2)) as [Heq|Hne].
  { assert (Hs : ats_score m1 jd_kw = ats_score m2 jd_kw)
      by (unfold ats_score; by rewrite Heq).
    rewrite Hs, Ha2 in Ha1. injection Ha1 as <-. lia. }
  destruct (ats_score_within_one m1 jd_kw) as (b1 & Hb1 & Hr1 & _);
    [clear - H12 H2; set_solver | exact Hn |].
  destruct (ats_score_within_one m2 jd_kw) as (b2 & Hb2 & Hr2 & Hx2);
    [exact H2 | exact Hn |].
  rewrite Ha1 in Hb1. injection Hb1 as <-.
  rewrite Ha2 in Hb2. injection Hb2 as <-.
  set (n := Z.of_nat (size jd_kw)) in *.
  set (x1 := Z.of_nat (size m1)) in *.
  set (x2 := Z.of_nat (size m2)) in *.
  assert (Hn0 : (0 < n)%Z) by lia.
  assert (Hx : (x1 < x2)%Z) by lia.
  assert (Hdiv : (100 * x1 / n ≤ 100 * x2 / n)%Z)
    by (apply Z.div_le_mono; lia).
  destruct (Z.eq_dec ((100 * x2) `mod` n) 0) as [Hmod|Hmod].
  - assert (Hlt : (100 * x1 / n < 100 * x2 / n)%Z).
    { apply Z.div_lt_upper_bound; [lia|].
      pose proof (Z.div_mod (100 * x2) n ltac:(lia)) as Hdm.
      rewrite Hmod in Hdm. lia. }
    lia.
  - specialize (Hx2 Hmod). lia.
Qed.

End ScoreOrder.

(** X25: adding keywords to a resume never lowers a score: with the
    synonyms read through coherent caches and a job description of fewer
    than [2 ^ 30] keywords, a resume whose keywords include those of
    another gets an ATS score and a weighted score that are no lower,
    the binary64 rounding notwithstanding. *)
Theorem richer_resume_never_scores_lower `{PyUnicode}
    (wordnet_synsets : pystr → list (list pystr))
    (r1 r2 jd_text : pystr) (c1 c2 : lru) :
  cache_coherent wordnet_synsets c1 →
  cache_coherent wordnet_synsets c2 →
  extract_keywords r1 ⊆ extract_keywords r2 →
  (Z.of_nat (size (extract_keywords jd_text)) < 2 ^ 30)%Z →
  ∃ ats1 weighted1 matched1 missing1 ats2 weighted2 matched2 missing2,
    fst (calculate_ats wordnet_synsets r1 jd_text c1)
      = Return (ats1, weighted1, matched1, missing1)
    ∧ fst (calculate_ats wordnet_synsets r2 jd_text c2)
      = Return (ats2, weighted2, matched2, missing2)
    ∧ (ats1 ≤ ats2)%Z
    ∧ (weighted1 ≤ weighted2)%Z.
Proof.
  intros Hc1 Hc2 Hsub Hn.
  destruct (calculate_ats_returns wordnet_synsets r1 jd_text c1)
    as (a1 & ma1 & mi1 & c1' & Hr1 & Ha1 & _ & Hu1 & _).
  destruct (calculate_ats_returns wordnet_synsets r2 jd_text c2)
    as (a2 & ma2 & mi2 & c2' & Hr2 & Ha2 & _ & Hu2 & _).
  eexists a1, _, ma1, mi1, a2, _, ma2, mi2.
  rewrite Hr1, Hr2. split; [reflexivity|]. split; [reflexivity|].
  pose proof (proj1 (calculate_ats_score wordnet_synsets r1 jd_text c1 Hc1)) as Hs1.
  pose proof (proj1 (calculate_ats_score wordnet_synsets r2 jd_text c2 Hc2)) as Hs2.
  rewrite Hr1 in Hs1. rewrite Hr2 in Hs2. unfold score_of_keywords in Hs1, Hs2.
  destruct (ats_score _ _) in Hs1; [|done].
  destruct (ats_score _ _) in Hs2; [|done].
  cbn in Hs1, Hs2. injection Hs1 as _ _ Em1 _. injection Hs2 as _ _ Em2 _.
  assert (Hmono : ∀ w, is_match wordnet_synsets (extract_keywords r1) w →
                       is_match wordnet_synsets (extract_keywords r2) w).
  { intros w [Hw|Hw]; [left; by apply Hsub|right].
    intros Hempty. apply Hw. clear - Hsub Hempty. set_solver. }
  assert (H12 : ma1 ⊆ ma2).
  { rewrite Em1, Em2. intros w.
    rewrite !elem_of_list_to_set, !list_elem_of_filter.
    intros [Hw Hin]. split; [auto|done]. }
  assert (H2 : ma2 ⊆ extract_keywords jd_text)
    by (clear - Hu2; set_solver).
  pose proof (ats_score_mono ma1 ma2 _ a1 a2 H12 H2 Hn Ha1 Ha2) as Hats.
  split; [exact Hats|].
  assert (Hp : (size (ma1 ∩ priority) ≤ size (ma2 ∩ priority))%nat)
    by (apply subseteq_size; clear - H12; set_solver).
  lia.
Qed.

Lemma richer_resume_never_scores_lower_witness :
  ∃ ats1 weighted1 matched1 missing1 ats2 weighted2 matched2 missing2,
    fst (calculate_ats no_wordnet (py "Python") (py "Python SQL AWS") lru_empty)
      = Return (ats1, weighted1, matched1, missing1)
    ∧ fst (calculate_ats no_wordnet (py "Python and SQL") (py "Python SQL AWS")
             lru_empty)
      = Return (ats2, weighted2, matched2, missing2)
    ∧ (ats1 ≤ ats2)%Z
    ∧ (weighted1 ≤ weighted2)%Z.
Proof.
  apply richer_resume_never_scores_lower;
    [apply cache_coherent_empty | apply cache_coherent_empty | |].
  - apply (bool_decide_unpack _). vm_compute. exact I.
  - apply (bool_decide_unpack _). vm_compute. exact I.
Defined.

(** ** Annotations up to the first failure *)

Section HighlightPartial.
Context {U : PyUnicode}.
Variable Layout : Type.
Variable coord : Type.
Variable search_for : Layout → pystr → result (list (rect coord)).
Variable get_text_words :
  Layout → result (list (coord * coord * coord * coord * pystr)).
Variable annot_error : Layout → rect coord → option exn.

Local Abbreviation add_one := (add_highlight_annot Layout coord annot_error).

Lemma add_loop_stops (l : Layout) (rs : list (rect coord)) :
  ∀ a, ∃ r added,
    forM_ add_one rs (Page l a) = (r, Page l (a ++ added))
    ∧ Forall (λ x, annot_error l x = None) added
    ∧ ((r = Return () ∧ added = rs)
       ∨ ∃ e x rest, r = Raise e ∧ rs = added ++ x :: rest
                     ∧ annot_error l x = Some e).
Proof.
  induction rs as [|x rs IH]; intros a; cbn [forM_].
  - exists (Return ()), []. cbn. rewrite app_nil_r. split; [done|].
    split; [constructor|by left].
  - rewrite ST_bind_eq. unfold add_highlight_annot at 1. cbn [layout annots].
    destruct (annot_error l x) as [e|] eqn:Hx.
    + exists (Raise e), []. rewrite app_nil_r. split; [done|].
      split; [constructor|]. right. by exists e, x, rs.
    + destruct (IH (a ++ [x])) as (r & added & Hrun & Hok & Hend).
      exists r, (x :: added). rewrite Hrun.
      split; [by rewrite <- (assoc_L (++))|]. split; [by constructor|].
      destruct Hend as [[-> ->]|(e & y & rest & -> & -> & Hy)]; [by left|].
      right. by exists e, y, rest.
Qed.

Lemma scan_loop_stops (kw : pystr) (l : Layout)
    (words : list (coord * coord * coord * coord * pystr)) :
  ∀ a, ∃ r added,
    forM_ (λ inst,
             let '(x0, y0, x1, y1, word) := inst in
             if decide (str_lower word = str_lower kw)
             then add_one (x0, y0, x1, y1)
             else mret ())
      words (Page l a) = (r, Page l (a ++ added))
    ∧ Forall (λ x, annot_error l x = None) added
    ∧ ((r = Return () ∧ added = word_rects kw words)
       ∨ ∃ e x rest, r = Raise e ∧ word_rects kw words = added ++ x :: rest
                     ∧ annot_error l x = Some e).
Proof.
  unfold word_rects.
  induction words as [|[[[[x0 y0] x1] y1] word] words IH]; intros a; cbn [forM_].
  - exists (Return ()), []. cbn. rewrite app_nil_r. split; [done|].
    split; [constructor|by left].
  - rewrite ST_bind_eq. cbn [snd].
    destruct (decide (str_lower word = str_lower kw)) as [Heq|Hne].
    + rewrite filter_cons_True by done. rewrite fmap_cons.
      unfold add_highlight_annot at 1. cbn [layout annots].
      destruct (annot_error l (x0, y0, x1, y1)) as [e|] eqn:Hx.
      * exists (Raise e), []. rewrite app_nil_r. split; [done|].
        split; [constructor|]. right. by eexists e, (x0, y0, x1, y1), _.
      * destruct (IH (a ++ [(x0, y0, x1, y1)])) as (r & added & Hrun & Hok & Hend).
        exists r, ((x0, y0, x1, y1) :: added).
        rewrite <- (assoc_L (++)) in Hrun.
        split; [exact Hrun|]. split; [by constructor|].
        destruct Hend as [[-> ->]|(e & y & rest & -> & -> & Hy)]; [by left|].
        right. by exists e, y, rest.
    + rewrite filter_cons_False by done. cbn [mret ST_ret]. apply IH.
Qed.

End HighlightPartial.

(** X26: for one keyword on one page the annotations are made in order,
    the regions of the search first and the words of the scan after, up
    to the first one that is refused: the ones made before stay, no later
    one is tried, and a search that fails leaves the page as it was, the
    word scan not being run. *)
Theorem highlight_stops_at_first_failure `{PyUnicode} (Layout coord : Type)
    (search_for : Layout → pystr → result (list (rect coord)))
    (get_text_words :
       Layout → result (list (coord * coord * coord * coord * pystr)))
    (annot_error : Layout → rect coord → option exn)
    (kw : pystr) (l : Layout) (a : list (rect coord)) :
  ∃ added,
    highlight_keyword Layout coord search_for get_text_words annot_error kw
      (Page l a)
    = (Return (), Page l (a ++ added))
    ∧ Forall (λ r, annot_error l r = None) added
    ∧ (∀ e, search_for l kw = Raise e → added = [])
    ∧ (∀ found, search_for l kw = Return found →
         let full :=
           found ++ match get_text_words l with
                    | Return words => word_rects kw words
                    | Raise _ => []
                    end in
         added = full
         ∨ ∃ r rest e, full = added ++ r :: rest ∧ annot_error l r = Some e).
Proof.
  unfold highlight_keyword, try_except, mark_keyword.
  rewrite ST_bind_eq. cbn [layout].
  destruct (search_for l kw) as [found|e0].
  2:{ exists []. rewrite app_nil_r. split; [done|]. split; [constructor|].
      split; [done|]. intros found [=]. }
  rewrite ST_bind_eq.
  destruct (add_loop_stops Layout coord annot_error l found a)
    as (r1 & add1 & Hrun1 & Hok1 & Hend1).
  rewrite Hrun1.
  destruct Hend1 as [[-> ->]|(e & x & rest & -> & -> & Hx)].
  2:{ exists add1. split; [done|]. split; [done|]. split; [intros ? [=]|].
      intros found' [= <-]. cbn zeta. right.
      eexists x, _, e. split; [|exact Hx]. by rewrite <- (assoc_L (++)). }
  rewrite ST_bind_eq. cbn [layout].
  destruct (get_text_words l) as [words|e1].
  2:{ exists found. split; [done|]. split; [done|]. split; [intros ? [=]|].
      intros found' [= <-]. cbn zeta. left. by rewrite app_nil_r. }
  destruct (scan_loop_stops Layout coord annot_error kw l words (a ++ found))
    as (r2 & add2 & Hrun2 & Hok2 & Hend2).
  rewrite Hrun2. exists (found ++ add2).
  split; [destruct r2 as [[]|?]; by rewrite <- (assoc_L (++))|].
  split; [by apply Forall_app|]. split; [intros ? [=]|].
  intros found' [= <-]. cbn zeta.
  destruct Hend2 as [[-> ->]|(e & x & rest & -> & -> & Hx)]; [by left|].
  right. eexists x, rest, e. split; [|exact Hx]. by rewrite <- (assoc_L (++)).
Qed.

(** ** Resumes with the same name *)

Section SameName.
Context {U : PyUnicode}.
Variable L : libraries.
Variable jd : pystr.

Lemma analyze_loop_other_names (nm : pystr) (files : list upload) :
  ∀ (acc : list row * gmap pystr (list N)) (c : lru)
    (rows : list row) (links : gmap pystr (list N)),
  cache_coherent (lib_wordnet_synsets L) c →
  Forall (λ g, name g ≠ nm) files →
  fst (foldM (analyze_next L jd) acc files c) = Return (rows, links) →
  links !! nm = acc.2 !! nm.
Proof.
  induction files as [|g files IH]; intros acc c rows links Hc Hnames;
    cbn [foldM].
  - by intros [= ->].
  - apply Forall_cons in Hnames as [Hg Hnames]. rewrite ST_bind_eq.
    destruct (analyze_next_coherent L jd acc g c Hc) as [Hstep Hc1].
    destruct (analyze_next L jd acc g c) as [[acc1|e] c1]; cbn [fst snd] in *;
      [|done].
    intros Hrest. rewrite (IH acc1 c1 rows links Hc1 Hnames Hrest).
    destruct (alone L jd g) as [[[r m] [b|]]|e]; [| |discriminate Hstep];
      injection Hstep as ->; cbn [snd]; [|done].
    by rewrite lookup_insert_ne.
Qed.

Lemma analyze_loop_last_name (f : upload) (r : row) (missing : gset pystr)
    (b : list N) (fs1 fs2 : list upload) :
  ∀ (acc : list row * gmap pystr (list N)) (c : lru)
    (rows : list row) (links : gmap pystr (list N)),
  cache_coherent (lib_wordnet_synsets L) c →
  Forall (λ g, name g ≠ name f) fs2 →
  alone L jd f = Return (r, missing, Some b) →
  fst (foldM (analyze_next L jd) acc (fs1 ++ f :: fs2) c) = Return (rows, links) →
  links !! name f = Some b.
Proof.
  induction fs1 as [|g fs1 IH]; intros acc c rows links Hc Hnames Hf;
    cbn [app foldM]; rewrite ST_bind_eq.
  - destruct (analyze_next_coherent L jd acc f c Hc) as [Hstep Hc1].
    rewrite Hf in Hstep.
    destruct (analyze_next L jd acc f c) as [[acc1|e] c1]; cbn [fst snd] in *;
      [|done].
    injection Hstep as ->. intros Hrest.
    rewrite (analyze_loop_other_names (name f) fs2 _ c1 rows links Hc1 Hnames Hrest).
    cbn [snd]. apply lookup_insert_eq.
  - destruct (analyze_next_coherent L jd acc g c Hc) as [_ Hc1].
    destruct (analyze_next L jd acc g c) as [[acc1|e] c1]; cbn [fst snd] in *;
      [|done].
    by apply IH.
Qed.

End SameName.

(** X27: the highlighted documents are stored by file name, so of the
    uploads that share a name only the last one keeps its document: the
    table has a row for each, the links have the bytes of the last. *)
Theorem ranking_last_upload_wins `{PyUnicode} (L : libraries)
    (fs1 fs2 : list upload) (f : upload) (jd : pystr) (c : lru)
    (rows : list row) (links : gmap pystr (list N))
    (r : row) (missing : gset pystr) (b : list N) :
  cache_coherent (lib_wordnet_synsets L) c →
  Forall (λ g, name g ≠ name f) fs2 →
  fst (analyze_resume L jd (lru_empty, f)) = Return (r, missing, Some b) →
  fst (analyze_all L (fs1 ++ f :: fs2) jd c) = Return (Some (rows, links)) →
  links !! name f = Some b ∧ length rows = length (fs1 ++ f :: fs2).
Proof.
  intros Hc Hnames Hf. unfold analyze_all.
  destruct (bool_decide (fs1 ++ f :: fs2 ≠ []) && negb (is_blank jd)); [|done].
  rewrite ST_bind_eq.
  pose proof (analyze_loop_last_name L jd f r missing b fs1 fs2 ([], ∅) c) as Hlast.
  pose proof (analyze_loop_returns L jd (fs1 ++ f :: fs2) ([], ∅) c) as Hloop.
  destruct (foldM (analyze_next L jd) ([], ∅) (fs1 ++ f :: fs2) c)
    as [[[rows' links']|e] c1]; [|done].
  intros [= -> ->]. split; [by apply (Hlast rows links)|].
  destruct (Hloop rows links Hc eq_refl) as (new & -> & Hall & _).
  cbn [fst app]. symmetry. exact (Forall2_length _ _ _ Hall).
Qed.

Lemma ranking_last_upload_wins_witness :
  fst (analyze_all stub_libraries
         [Upload (py "cv.pdf") (py "python") 0;
          Upload (py "cv.pdf") (py "sql sql") 0]
         (py "Python SQL") lru_empty)
  = Return (Some ([Row (py "cv.pdf") 50 52 (list_to_set [py "python"]);
                   Row (py "cv.pdf") 50 52 (list_to_set [py "sql"])],
                  {[ py "cv.pdf" := [4] ]}))
  ∧ ({[ py "cv.pdf" := [4] ]} : gmap pystr (list N)) !! py "cv.pdf" = Some [4]
  ∧ length [Row (py "cv.pdf") 50 52 (list_to_set [py "python"]);
            Row (py "cv.pdf") 50 52 (list_to_set [py "sql"])] = 2%nat.
Proof.
  assert (Hrun :
    fst (analyze_all stub_libraries
           ([Upload (py "cv.pdf") (py "python") 0]
            ++ Upload (py "cv.pdf") (py "sql sql") 0 :: [])
           (py "Python SQL") lru_empty)
    = Return (Some ([Row (py "cv.pdf") 50 52 (list_to_set [py "python"]);
                     Row (py "cv.pdf") 50 52 (list_to_set [py "sql"])],
                    {[ py "cv.pdf" := [4] ]})))
    by (vm_compute; reflexivity).
  split; [exact Hrun|].
  apply (ranking_last_upload_wins stub_libraries
           [Upload (py "cv.pdf") (py "python") 0] []
           (Upload (py "cv.pdf") (py "sql sql") 0) (py "Python SQL") lru_empty
           _ _ (Row (py "cv.pdf") 50 52 (list_to_set [py "sql"]))
           (list_to_set [py "python"]) [4]
           (cache_coherent_empty _) (Forall_nil_2 _)).
  - vm_compute. reflexivity.
  - exact Hrun.
Defined.
